(** * Mind Reader: the rock-paper-scissors pattern analyser and predictor

    A shallow embedding of
    - the shared game rules ([GAME_CHOICES], [GAME_RULES], [getCounterMove],
      [determineWinner]),
    - the class [PatternAnalyzer] of [apps/server/src/ai/analyzer.ts], and
    - [GameManager.getGame] / [GameManager.processMove] of
      [apps/server/src/index.ts],
    followed by the properties the specification states about them.

    Numbers.  Counters ([frequencies], [transitions], [streaks],
    [totalMoves], scores of a game, confidences) are JavaScript numbers that
    only ever hold integers; they are [Z].  Candidate scores ([0.3],
    [prob * 0.5], ...) are doubles in the code and are modelled by their
    exact rational value in [Q]; [Binary64_scores_agree] compares the two on
    the score literals and on the transition scores of small counts.  The
    entropy of [calculateRandomness], which needs [Math.log2], is computed
    in exact real arithmetic in [R].  [Math.round] is rounding half up,
    [floor (x + 1/2)].

    Effects.  A call that may throw returns an [Outcome].  What
    [predictNextMove] reads from outside (the environment's API key, the
    number [Math.random()] returns, the answer of the text service) is a
    [World] passed to it; [processMove] passes the game registry and the
    Redis store along as a [Manager]. *)

From stdpp Require Import gmap strings list.
From Stdlib Require Import ZArith QArith Qround Reals Lra Lia.
From Stdlib Require Import String Ascii DecimalString Floats.SpecFloat.
Import ListNotations.

Local Open Scope string_scope.
Local Open Scope Z_scope.

(** ** JavaScript helpers *)

Module JS.

(** Exceptions that can leave the modelled functions. *)
Inductive Exception : Type :=
| TypeError  (* e.g. [Object.values(undefined)] *)
| Error (message : string).

(** The result of a call that may throw (or of a promise that may reject). *)
Inductive Outcome (A : Type) : Type :=
| Returns (a : A)
| Throws (e : Exception).
Arguments Returns {A} a.
Arguments Throws {A} e.

(** [arr[i]]: [None] stands for [undefined]. *)
Definition at_index {A : Type} (arr : list A) (i : Z) : option A :=
  if i <? 0 then None else arr !! Z.to_nat i.

(** [arr.length] *)
Definition len {A : Type} (arr : list A) : Z := Z.of_nat (List.length arr).

(** [arr.slice(-n)]: the last [n] entries, all of them if there are fewer. *)
Definition slice_last {A : Type} (n : nat) (arr : list A) : list A :=
  skipn (List.length arr - n) arr.

(** [strs.join('')] *)
Definition join (strs : list string) : string :=
  fold_right String.append "" strs.

(** [Math.max(...xs)] and [Math.min(...xs)] on a non-empty argument list. *)
Definition Math_max (xs : list Z) : Z :=
  match xs with
  | [] => 0
  | x :: rest => fold_left Z.max rest x
  end.

Definition Math_min (xs : list Z) : Z :=
  match xs with
  | [] => 0
  | x :: rest => fold_left Z.min rest x
  end.

(** [Math.round]: to the nearest integer, halves towards +infinity. *)
Definition Math_round (x : Q) : Z := Qfloor (x + (1 # 2)).

Definition Math_round_R (x : R) : Z := Int_part (x + / 2).

(** [Math.log2] *)
Definition Math_log2 (x : R) : R := (ln x / ln 2)%R.

(** [x > y] on scores. *)
Definition Qgtb (x y : Q) : bool := negb (Qle_bool x y).

(** Truthiness of an optional string: [undefined] and [''] are falsy. *)
Definition truthy (s : option string) : bool :=
  match s with
  | Some s => negb (String.eqb s "")
  | None => false
  end.

(** [a || b] on optional strings. *)
Definition or_else (a b : option string) : option string :=
  if truthy a then a else b.

(** [`${n}`] for an integer [n]. *)
Definition number_to_string (n : Z) : string :=
  NilZero.string_of_int (Z.to_int n).

(** [Buffer.from(s).toString('base64')] for a string of single-byte
    characters. *)
Definition base64_alphabet : list ascii :=
  list_ascii_of_string
    "ABCDEFGHIJKLMNOPQRSTUVWXYZabcdefghijklmnopqrstuvwxyz0123456789+/".

Definition base64_digit (n : N) : ascii :=
  nth (N.to_nat n) base64_alphabet "="%char.

Fixpoint base64_bytes (bytes : list N) : string :=
  match bytes with
  | [] => ""
  | [a] =>
      String (base64_digit (a / 4))
        (String (base64_digit ((a mod 4) * 16)) "==")
  | [a; b] =>
      String (base64_digit (a / 4))
        (String (base64_digit ((a mod 4) * 16 + b / 16))
           (String (base64_digit ((b mod 16) * 4)) "="))
  | a :: b :: c :: rest =>
      String (base64_digit (a / 4))
        (String (base64_digit ((a mod 4) * 16 + b / 16))
           (String (base64_digit ((b mod 16) * 4 + c / 64))
              (String (base64_digit (c mod 64)) (base64_bytes rest))))
  end%N.

Definition base64 (s : string) : string :=
  base64_bytes (map N_of_ascii (list_ascii_of_string s)).

End JS.
Import JS.

(** ** Shared types and rules ([@mind-reader/shared]) *)

Inductive GameChoice : Type := rock | paper | scissors.

#[global] Instance GameChoice_eq_dec : EqDecision GameChoice.
Proof. solve_decision. Defined.

(** The string a [GameChoice] is at run time. *)
Definition choiceName (c : GameChoice) : string :=
  match c with
  | rock => "rock"
  | paper => "paper"
  | scissors => "scissors"
  end.

Inductive Winner : Type := player | ai | tie.

#[global] Instance Winner_eq_dec : EqDecision Winner.
Proof. solve_decision. Defined.

Inductive Status : Type := waiting | playing | finished.

#[global] Instance Status_eq_dec : EqDecision Status.
Proof. solve_decision. Defined.

(** [Record<GameChoice, A>], with its properties in the order the code
    creates them: rock, paper, scissors. *)
Record PerChoice (A : Type) : Type := mkPerChoice {
  of_rock : A;
  of_paper : A;
  of_scissors : A;
}.
Arguments mkPerChoice {A} _ _ _.
Arguments of_rock {A} _.
Arguments of_paper {A} _.
Arguments of_scissors {A} _.

(** [rec[c]] *)
Definition get {A : Type} (c : GameChoice) (rec : PerChoice A) : A :=
  match c with
  | rock => of_rock rec
  | paper => of_paper rec
  | scissors => of_scissors rec
  end.

(** [rec[c] = v] *)
Definition set {A : Type} (c : GameChoice) (v : A) (rec : PerChoice A)
  : PerChoice A :=
  match c with
  | rock => mkPerChoice v (of_paper rec) (of_scissors rec)
  | paper => mkPerChoice (of_rock rec) v (of_scissors rec)
  | scissors => mkPerChoice (of_rock rec) (of_paper rec) v
  end.

(** [Object.entries(rec)] and [Object.values(rec)] *)
Definition entries {A : Type} (rec : PerChoice A) : list (GameChoice * A) :=
  [(rock, of_rock rec); (paper, of_paper rec); (scissors, of_scissors rec)].

Definition values {A : Type} (rec : PerChoice A) : list A :=
  [of_rock rec; of_paper rec; of_scissors rec].

Record GameMove : Type := mkGameMove {
  playerId : string;
  choice : GameChoice;
  timestamp : Z;
  aiPrediction : GameChoice;
  aiChoice : GameChoice;
  aiConfidence : Z;
  correct : bool;
  winner : Winner;
}.

Record PlayerPattern : Type := mkPlayerPattern {
  frequencies : PerChoice Z;
  transitions : PerChoice (PerChoice Z);
  streaks : PerChoice Z;
  totalMoves : Z;
  lastMoves : list GameChoice;
  winRate : Q;
  randomnessScore : Z;
}.

Record GameState : Type := mkGameState {
  gameId : string;
  game_playerId : string;
  username : string;
  playerScore : Z;
  aiScore : Z;
  moves : list GameMove;
  currentStreak : Z;
  gameStartTime : Z;
  status : Status;
}.

Record AIAnalysis : Type := mkAIAnalysis {
  prediction : GameChoice;
  confidence : Z;
  reasoning : string;
  patternType : string;
}.

Definition GAME_CHOICES : list GameChoice := [rock; paper; scissors].

(** Game rules: what beats what. *)
Definition GAME_RULES : PerChoice GameChoice :=
  {| of_rock := scissors; of_paper := rock; of_scissors := paper |}.

Definition getCounterMove (choice : GameChoice) : GameChoice :=
  let entries := entries GAME_RULES in
  let counter :=
    List.find (fun '(_, beats) => bool_decide (beats = choice)) entries in
  match counter with
  | Some (c, _) => c
  | None => rock
  end.

Definition determineWinner (playerChoice aiChoice : GameChoice) : Winner :=
  if decide (playerChoice = aiChoice) then tie
  else if decide (get playerChoice GAME_RULES = aiChoice) then player
  else ai.

(** ** The world outside the analyser *)

(** What the prompt sent to the text service is built from (the holes of the
    template literal in [predictNextMove]). *)
Record Prompt : Type := mkPrompt {
  prompt_lastMoves : list GameChoice;
  prompt_frequencies : PerChoice Z;
  prompt_randomness : Z;
  prompt_patternType : string;
  prompt_prediction : GameChoice;
}.

(** What [model.generateContent(prompt)] followed by
    [result.response.text().trim()] comes to: the call rejects or throws, or
    it produces a (trimmed) text. *)
Inductive GeminiReply : Type :=
| ServiceFails (e : Exception)
| ServiceReplies (trimmed : string).

(** Everything [predictNextMove] reads besides its arguments:
    [process.env.GEMINI_API_KEY], the value the one call of [Math.random()]
    returns (a number in [0, 1)), and the text service. *)
Record World : Type := mkWorld {
  GEMINI_API_KEY : option string;
  Math_random : Q;
  generateContent : string -> Prompt -> GeminiReply;
}.

(** ** [class PatternAnalyzer] *)

Module PatternAnalyzer.

(** The model handle is the key it was created with. *)
Definition getGeminiModel (apiKey : option string) (w : World)
  : Outcome string :=
  let key := or_else apiKey (GEMINI_API_KEY w) in
  match key with
  | Some k =>
      if truthy key then Returns k
      else Throws (Error "No Gemini API key provided")
  | None => Throws (Error "No Gemini API key provided")
  end.

Definition zeroes : PerChoice Z := mkPerChoice 0 0 0.

(** Calculate basic statistics *)
Definition calculateFrequencies (moves : list GameChoice) : PerChoice Z :=
  let frequencies := zeroes in
  fold_left
    (fun frequencies move => set move (get move frequencies + 1) frequencies)
    moves frequencies.

(** Calculate transition counts: the loop over
    [i = 0 .. moves.length - 2], with [from = moves[i]] and
    [to = moves[i + 1]]. *)
Fixpoint calculateTransitions_loop (moves : list GameChoice)
    (transitions : PerChoice (PerChoice Z)) : PerChoice (PerChoice Z) :=
  match moves with
  | from :: ((to :: _) as rest) =>
      calculateTransitions_loop rest
        (set from (set to (get to (get from transitions) + 1)
                     (get from transitions)) transitions)
  | _ => transitions
  end.

Definition calculateTransitions (moves : list GameChoice)
  : PerChoice (PerChoice Z) :=
  calculateTransitions_loop moves (mkPerChoice zeroes zeroes zeroes).

(** One term of the entropy sum. *)
Definition entropy_step (frequencies : PerChoice Z) (totalMoves : Z)
    (entropy : R) (choice : GameChoice) : R :=
  let probability := (IZR (get choice frequencies) / IZR totalMoves)%R in
  if Rlt_dec 0 probability
  then (entropy - probability * Math_log2 probability)%R
  else entropy.

(** Calculate randomness score (0-100) *)
Definition calculateRandomness (pattern : PlayerPattern) : Z :=
  let frequencies := frequencies pattern in
  let totalMoves := totalMoves pattern in
  if totalMoves =? 0 then 100
  else
    let entropy :=
      fold_left (entropy_step frequencies totalMoves) GAME_CHOICES 0%R in
    let maxEntropy := Math_log2 3 in
    Math_round_R (entropy / maxEntropy * 100)%R.

(** The streak loop over [i = 1 .. choices.length - 1]: [prev] is
    [choices[i - 1]] and the head of [rest] is [choices[i]]. *)
Fixpoint streaks_loop (prev : GameChoice) (rest : list GameChoice)
    (currentStreak : Z) (streaks : PerChoice Z) : Z * PerChoice Z :=
  match rest with
  | [] => (currentStreak, streaks)
  | cur :: rest' =>
      if decide (cur = prev)
      then streaks_loop cur rest' (currentStreak + 1) streaks
      else
        streaks_loop cur rest' 1
          (if get prev streaks <? currentStreak
           then set prev currentStreak streaks
           else streaks)
  end.

Definition calculateStreaks (choices : list GameChoice) : PerChoice Z :=
  match choices with
  | [] => zeroes
  | first :: rest =>
      let '(currentStreak, streaks) := streaks_loop first rest 1 zeroes in
      (* Update last streak *)
      let final := List.last choices first in
      if get final streaks <? currentStreak
      then set final currentStreak streaks
      else streaks
  end.

(** The pattern before its [randomnessScore] is filled in. *)
Definition initialPattern (moves : list GameMove) : PlayerPattern :=
  let choices := map choice moves in
  {| frequencies := calculateFrequencies choices;
     transitions := calculateTransitions choices;
     streaks := calculateStreaks choices;
     totalMoves := len moves;
     lastMoves := slice_last 10 choices;
     winRate :=
       (inject_Z (len (List.filter (fun m => negb (correct m)) moves))
        / inject_Z (Z.max (len moves) 1))%Q;
     randomnessScore := 0 |}.

(** [pattern.randomnessScore = v] *)
Definition set_randomnessScore (v : Z) (pattern : PlayerPattern)
  : PlayerPattern :=
  {| frequencies := frequencies pattern;
     transitions := transitions pattern;
     streaks := streaks pattern;
     totalMoves := totalMoves pattern;
     lastMoves := lastMoves pattern;
     winRate := winRate pattern;
     randomnessScore := v |}.

(** Analyze patterns and create PlayerPattern object *)
Definition analyzePattern (moves : list GameMove) : PlayerPattern :=
  let pattern := initialPattern moves in
  set_randomnessScore (calculateRandomness pattern) pattern.

(** *** Prediction *)

(** An entry of the [predictions] array. *)
Record Candidate : Type := mkCandidate {
  cand_choice : GameChoice;
  score : Q;
  type : string;
}.

(** The first entry of [rec] whose value is [v], as
    [Object.entries(rec).find(([_, freq]) => freq === v)?.[0]]. *)
Definition find_key (v : Z) (rec : PerChoice Z) : option GameChoice :=
  match List.find (fun '(_, freq) => freq =? v) (entries rec) with
  | Some (c, _) => Some c
  | None => None
  end.

(** 1. Frequency-based prediction (what they play most) *)
Definition frequencyStrategy (pattern : PlayerPattern) : list Candidate :=
  let maxFreq := Math_max (values (frequencies pattern)) in
  let favoriteChoice :=
    default rock (find_key maxFreq (frequencies pattern)) in
  [ {| cand_choice := favoriteChoice; score := 3 # 10;
       type := "frequency" |} ].

(** 2. Transition-based prediction (what they play after their last
    move) *)
Definition transitionStrategy (pattern : PlayerPattern)
    (lastMove : GameChoice) : list Candidate :=
  let transitions := get lastMove (transitions pattern) in
  let totalTransitions := fold_left Z.add (values transitions) 0 in
  if 0 <? totalTransitions then
    let '(maxTransition, transitionPrediction) :=
      fold_left
        (fun '(maxTransition, transitionPrediction) choice =>
           let prob :=
             (inject_Z (get choice transitions)
              / inject_Z totalTransitions)%Q in
           if Qgtb prob maxTransition then (prob, choice)
           else (maxTransition, transitionPrediction))
        GAME_CHOICES (0%Q, rock) in
    [ {| cand_choice := transitionPrediction;
         score := (maxTransition * (1 # 2))%Q;
         type := "sequential" |} ]
  else [].

(** 3. Anti-pattern prediction (assume player is trying to be
    unpredictable) *)
Definition metaStrategy (pattern : PlayerPattern) : list Candidate :=
  if 70 <? randomnessScore pattern then
    let minFreq := Math_min (values (frequencies pattern)) in
    let leastUsed :=
      default scissors (find_key minFreq (frequencies pattern)) in
    [ {| cand_choice := leastUsed; score := 4 # 10; type := "meta" |} ]
  else [].

(** 4. Win-stay/lose-shift pattern.  [random] is what [Math.random()]
    returns; for a number in [0, 1) the index is in range. *)
Definition winStayStrategy (pattern : PlayerPattern) (random : Q)
  : list Candidate :=
  let lastMoves := lastMoves pattern in
  if 2 <=? len lastMoves then
    match at_index lastMoves (len lastMoves - 1),
          at_index lastMoves (len lastMoves - 2) with
    | Some lastPlayerMove, Some secondLastMove =>
        if decide (lastPlayerMove = secondLastMove) then
          let alternatives :=
            List.filter (fun c => negb (bool_decide (c = lastPlayerMove)))
              GAME_CHOICES in
          let index := Qfloor (random * inject_Z (len alternatives)) in
          match at_index alternatives index with
          | Some switchPrediction =>
              [ {| cand_choice := switchPrediction; score := 35 # 100;
                   type := "psychological" |} ]
          | None => []
          end
        else []
    | _, _ => []
    end
  else [].

(** 5. Rotation pattern detection *)
Definition rotationStrategy (pattern : PlayerPattern) : list Candidate :=
  let lastMoves := lastMoves pattern in
  if 3 <=? len lastMoves then
    match slice_last 3 lastMoves with
    | [s0; s1; s2] =>
        if bool_decide (s0 = rock) && bool_decide (s1 = paper)
           && bool_decide (s2 = scissors)
        then [ {| cand_choice := rock; score := 6 # 10;
                  type := "sequential" |} ]
        else if bool_decide (s0 = scissors) && bool_decide (s1 = rock)
                && bool_decide (s2 = paper)
        then [ {| cand_choice := scissors; score := 6 # 10;
                  type := "sequential" |} ]
        else []
    | _ => []
    end
  else [].

(** The [predictions] array once all five strategies have pushed. *)
Definition predictions (pattern : PlayerPattern) (lastMove : GameChoice)
    (random : Q) : list Candidate :=
  frequencyStrategy pattern
  ++ transitionStrategy pattern lastMove
  ++ metaStrategy pattern
  ++ winStayStrategy pattern random
  ++ rotationStrategy pattern.

Definition defaultPrediction : Candidate :=
  {| cand_choice := rock; score := 33 # 100; type := "frequency" |}.

(** The body of the selection scan: [pred] replaces the current best only
    when its score is strictly higher. *)
Definition keep_better (bestPrediction pred : Candidate) : Candidate :=
  if Qgtb (score pred) (score bestPrediction) then pred
  else bestPrediction.

(** Choose the prediction with highest score *)
Definition selectBest (predictions : list Candidate) : Candidate :=
  let bestPrediction := hd defaultPrediction predictions in
  fold_left keep_better predictions bestPrediction.

Definition coldStart : AIAnalysis :=
  {| prediction := rock;
     confidence := 35;
     reasoning := "Most players start with rock. It's a classic opening move!";
     patternType := "psychological" |}.

(** The table [fallbackReasons] of the [catch] branch. *)
Definition fallbackReasons (prediction lastMove : GameChoice)
  : list (string * string) :=
  [ ("frequency",
     "You love playing " ++ choiceName prediction ++ " - it's your go-to move!");
    ("sequential",
     "Following your pattern, " ++ choiceName prediction ++ " comes next.");
    ("meta",
     "You're being unpredictable, but I think " ++ choiceName prediction
     ++ " is due!");
    ("psychological",
     "After " ++ choiceName lastMove ++ ", players often switch to "
     ++ choiceName prediction ++ ".");
    ("complex",
     "Your complex pattern points to " ++ choiceName prediction ++ ".") ].

(** [table[key]] *)
Definition table_lookup (key : string) (table : list (string * string))
  : option string :=
  match List.find (fun '(k, _) => String.eqb k key) table with
  | Some (_, v) => Some v
  | None => None
  end.

(** [fallbackReasons[patternType] || `I predict ${prediction}!`] *)
Definition fallbackReasoning (patternType : string)
    (prediction lastMove : GameChoice) : string :=
  let reason :=
    table_lookup patternType (fallbackReasons prediction lastMove) in
  match reason with
  | Some text =>
      if truthy reason then text
      else "I predict " ++ choiceName prediction ++ "!"
  | None => "I predict " ++ choiceName prediction ++ "!"
  end.

(** Make prediction based on patterns *)
Definition predictNextMove (pattern : PlayerPattern)
    (apiKey : option string) (w : World) : Outcome AIAnalysis :=
  if totalMoves pattern <? 2 then
    (* First move bias - many players start with rock *)
    Returns coldStart
  else
    match at_index (lastMoves pattern) (len (lastMoves pattern) - 1) with
    | None =>
        (* [pattern.transitions[undefined]] is [undefined], and
           [Object.values(undefined)] throws *)
        Throws TypeError
    | Some lastMove =>
        let bestPrediction :=
          selectBest (predictions pattern lastMove (Math_random w)) in
        let prediction := cand_choice bestPrediction in
        let confidence :=
          Z.min (Math_round (score bestPrediction * 100)) 85 in
        let patternType := type bestPrediction in
        let fallback :=
          {| prediction := prediction;
             confidence := confidence;
             reasoning := fallbackReasoning patternType prediction lastMove;
             patternType := patternType |} in
        match getGeminiModel apiKey w with
        | Throws _ => Returns fallback
        | Returns model =>
            let prompt :=
              {| prompt_lastMoves := lastMoves pattern;
                 prompt_frequencies := frequencies pattern;
                 prompt_randomness := randomnessScore pattern;
                 prompt_patternType := patternType;
                 prompt_prediction := prediction |} in
            match generateContent w model prompt with
            | ServiceFails _ => Returns fallback
            | ServiceReplies reasoning =>
                Returns
                  {| prediction := prediction;
                     confidence := confidence;
                     reasoning :=
                       if truthy (Some reasoning) then reasoning
                       else "I sense you'll play " ++ choiceName prediction
                            ++ " next!";
                     patternType := patternType |}
            end
        end
    end.

(** Generate pattern hash for caching *)
Definition generatePatternHash (pattern : PlayerPattern) : string :=
  let key :=
    join (map choiceName (slice_last 5 (lastMoves pattern)))
    ++ "-" ++ number_to_string (totalMoves pattern) in
  base64 key.

End PatternAnalyzer.

(** ** Redis operations used by the game manager

    The store is modelled as always reachable: one map per kind of key. *)

Module redisOps.

Record Redis : Type := mkRedis {
  json : gmap string GameState;          (* [game:<id>] documents *)
  streams : gmap string (list GameMove); (* [moves:<id>] streams *)
  counters : gmap string Z;              (* [metric:<name>] counters *)
}.

Definition GAME_KEY (gameId : string) : string := "game:" ++ gameId.
Definition MOVES_KEY (gameId : string) : string := "moves:" ++ gameId.

Definition saveGameState (gameState : GameState) (r : Redis) : Redis :=
  {| json := <[GAME_KEY (gameId gameState) := gameState]> (json r);
     streams := streams r;
     counters := counters r |}.

Definition getGameState (gameId : string) (r : Redis) : option GameState :=
  json r !! GAME_KEY gameId.

Definition addMove (gameId : string) (move : GameMove) (r : Redis)
  : Redis :=
  {| json := json r;
     streams :=
       <[MOVES_KEY gameId :=
           (default [] (streams r !! MOVES_KEY gameId) ++ [move])%list]>
         (streams r);
     counters := counters r |}.

Definition incrementMetric (metric : string) (r : Redis) : Redis :=
  {| json := json r;
     streams := streams r;
     counters :=
       <["metric:" ++ metric :=
           default 0 (counters r !! ("metric:" ++ metric)) + 1]>
         (counters r) |}.

End redisOps.

(** ** [class GameManager]: the game registry and [processMove] *)

Module GameManager.

(** The mutable state a call works on: the in-memory [games] map and the
    Redis store behind it. *)
Record Manager : Type := mkManager {
  games : gmap string GameState;
  redis : redisOps.Redis;
}.

(** Get game state: memory first, then Redis (and remember it). *)
Definition getGame (gameId : string) (m : Manager)
  : option GameState * Manager :=
  match games m !! gameId with
  | Some game => (Some game, m)
  | None =>
      match redisOps.getGameState gameId (redis m) with
      | Some gameState =>
          (Some gameState,
           {| games := <[gameId := gameState]> (games m);
              redis := redis m |})
      | None => (None, m)
      end
  end.

(** Update scores based on RPS winner (not prediction accuracy), then add
    the move to the game. *)
Definition recordMove (move : GameMove) (game : GameState) : GameState :=
  {| gameId := gameId game;
     game_playerId := game_playerId game;
     username := username game;
     playerScore :=
       match winner move with
       | player => playerScore game + 1
       | _ => playerScore game
       end;
     aiScore :=
       match winner move with
       | ai => aiScore game + 1
       | _ => aiScore game
       end;
     moves := (moves game ++ [move])%list;
     currentStreak :=
       match winner move with
       | ai => 0
       | player => currentStreak game + 1
       | tie => currentStreak game
       end;
     gameStartTime := gameStartTime game;
     status := status game |}.

(** Process a player's move.  [now] is what [Date.now()] returns.  The
    game object is the one held by [games], so its update is visible
    there. *)
Definition processMove (gameId playerId : string) (choice : GameChoice)
    (aiPrediction : GameChoice) (aiConfidence : Z) (now : Z) (m : Manager)
  : Outcome (GameMove * Manager) :=
  let '(found, m) := getGame gameId m in
  match found with
  | None => Throws (Error "Game not found or not active")
  | Some game =>
      if negb (bool_decide (status game = playing)) then
        Throws (Error "Game not found or not active")
      else if negb (String.eqb (game_playerId game) playerId) then
        Throws (Error "Player not authorized for this game")
      else
        (* Check if AI predicted correctly *)
        let correct := bool_decide (aiPrediction = choice) in
        (* AI plays the counter-move to its prediction *)
        let aiChoice := getCounterMove aiPrediction in
        (* Determine winner based on RPS rules *)
        let winner := determineWinner choice aiChoice in
        let move :=
          {| playerId := playerId;
             choice := choice;
             timestamp := now;
             aiPrediction := aiPrediction;
             aiChoice := aiChoice;
             aiConfidence := aiConfidence;
             correct := correct;
             winner := winner |} in
        let game := recordMove move game in
        let r := redisOps.saveGameState game (redis m) in
        let r := redisOps.addMove gameId move r in
        let r := redisOps.incrementMetric "total_moves" r in
        let r :=
          if correct then redisOps.incrementMetric "ai_correct_predictions" r
          else r in
        Returns (move, {| games := <[gameId := game]> (games m);
                          redis := r |})
  end.

End GameManager.

(** ** Further Redis operations ([redis/operations.ts])

    Player patterns, the analysis cache, the per-player statistics hash and
    the leaderboard sorted sets.  Documents and hash fields are kept as the
    values their JSON or decimal text denotes.  Expiry of keys is an event
    of its own, see [Server.step]. *)

Module redisMore.

Record PlayerStats : Type := mkPlayerStats {
  stats_username : string;
  totalWins : Z;
  totalGames : Z;
  stats_totalMoves : Z;
  longestStreak : Z;
  totalRandomnessScore : Z;
  lastPlayed : Z;
}.

Record Store : Type := mkStore {
  patterns : gmap string PlayerPattern;  (* [pattern:<playerId>] *)
  analyses : gmap string AIAnalysis;     (* [analysis:<hash>] *)
  hashes : gmap string PlayerStats;      (* [player:<username>] *)
  zsets : gmap string (gmap string Q);   (* [leaderboard:<kind>] *)
}.

Definition PLAYER_PATTERN_KEY (playerId : string) : string :=
  "pattern:" ++ playerId.

Definition savePlayerPattern (playerId : string) (pattern : PlayerPattern)
    (r : Store) : Store :=
  {| patterns := <[PLAYER_PATTERN_KEY playerId := pattern]> (patterns r);
     analyses := analyses r;
     hashes := hashes r;
     zsets := zsets r |}.

(** Pattern Analysis Cache *)
Definition cacheAnalysis (patternHash : string) (analysis : AIAnalysis)
    (r : Store) : Store :=
  {| patterns := patterns r;
     analyses := <["analysis:" ++ patternHash := analysis]> (analyses r);
     hashes := hashes r;
     zsets := zsets r |}.

Definition getCachedAnalysis (patternHash : string) (r : Store)
  : option AIAnalysis :=
  analyses r !! ("analysis:" ++ patternHash).

(** [redisClient.zAdd(name, { score, value })] *)
Definition zAdd (name : string) (score : Q) (value : string)
    (sets : gmap string (gmap string Q)) : gmap string (gmap string Q) :=
  <[name := <[value := score]> (default ∅ (sets !! name))]> sets.

(** What [hGetAll] finds when the hash is absent: every field reads as
    ['0']. *)
Definition noStats (username : string) : PlayerStats :=
  {| stats_username := username; totalWins := 0; totalGames := 0;
     stats_totalMoves := 0; longestStreak := 0; totalRandomnessScore := 0;
     lastPlayed := 0 |}.

(** Player Stats Operations *)
Definition updatePlayerStats (stats : PlayerStats) (r : Store) : Store :=
  let key := "player:" ++ stats_username stats in
  let existing := default (noStats (stats_username stats)) (hashes r !! key) in
  let updated :=
    {| stats_username := stats_username stats;
       totalWins := totalWins existing + totalWins stats;
       totalGames := totalGames existing + totalGames stats;
       stats_totalMoves := stats_totalMoves existing + stats_totalMoves stats;
       longestStreak := Z.max (longestStreak existing) (longestStreak stats);
       totalRandomnessScore :=
         totalRandomnessScore existing + totalRandomnessScore stats;
       lastPlayed := lastPlayed stats |} in
  let winRate :=
    if 0 <? totalGames updated
    then (inject_Z (totalWins updated) / inject_Z (totalGames updated)
          * 100)%Q
    else 0%Q in
  let avgRandomness :=
    if 0 <? totalGames updated
    then (inject_Z (totalRandomnessScore updated)
          / inject_Z (totalGames updated))%Q
    else 0%Q in
  {| patterns := patterns r;
     analyses := analyses r;
     hashes := <[key := updated]> (hashes r);
     zsets :=
       zAdd "leaderboard:randomness" avgRandomness (stats_username stats)
         (zAdd "leaderboard:streak" (inject_Z (longestStreak updated))
            (stats_username stats)
            (zAdd "leaderboard:winrate" winRate (stats_username stats)
               (zAdd "leaderboard:wins" (inject_Z (totalWins updated))
                  (stats_username stats) (zsets r)))) |}.

Definition getPlayerStats (username : string) (r : Store)
  : option PlayerStats :=
  match hashes r !! ("player:" ++ username) with
  | Some stats =>
      if truthy (Some (stats_username stats)) then Some stats else None
  | None => None
  end.

End redisMore.

(** ** [class GameManager]: the remaining methods

    The state is the [Manager] of [processMove] together with the map of
    player API keys and the rest of the Redis store.  Every method returns
    its outcome and the state it leaves behind, also when it throws. *)

Module Server.

Record State : Type := mkState {
  manager : GameManager.Manager;
  playerApiKeys : gmap string string;
  store : redisMore.Store;
}.

Definition with_manager (m : GameManager.Manager) (s : State) : State :=
  {| manager := m; playerApiKeys := playerApiKeys s; store := store s |}.

Definition with_store (r : redisMore.Store) (s : State) : State :=
  {| manager := manager s; playerApiKeys := playerApiKeys s; store := r |}.

(** Set player API key *)
Definition setPlayerApiKey (playerId apiKey : string) (s : State) : State :=
  {| manager := manager s;
     playerApiKeys := <[playerId := apiKey]> (playerApiKeys s);
     store := store s |}.

(** Get player API key *)
Definition getPlayerApiKey (playerId : string) (s : State) : option string :=
  playerApiKeys s !! playerId.

(** Create a new game.  [gameId] is what [uuidv4()] returns, [now] what
    [Date.now()] returns; [username] defaults to ['Anonymous']. *)
Definition createGame (gameId : string) (now : Z) (playerId : string)
    (username : option string) (s : State) : GameState * State :=
  let gameState :=
    {| gameId := gameId;
       game_playerId := playerId;
       username := default "Anonymous" username;
       playerScore := 0;
       aiScore := 0;
       moves := [];
       currentStreak := 0;
       gameStartTime := now;
       status := playing |} in
  (gameState,
   with_manager
     {| GameManager.games :=
          <[gameId := gameState]> (GameManager.games (manager s));
        GameManager.redis :=
          redisOps.saveGameState gameState
            (GameManager.redis (manager s)) |} s).

(** Get game state *)
Definition getGame (gameId : string) (s : State)
  : option GameState * State :=
  let '(found, m) := GameManager.getGame gameId (manager s) in
  (found, with_manager m s).

(** Process a player's move.  When [processMove] throws, what is left of
    the call is the lookup of the game. *)
Definition processMove (gameId playerId : string) (choice : GameChoice)
    (aiPrediction : GameChoice) (aiConfidence : Z) (now : Z) (s : State)
  : Outcome GameMove * State :=
  match GameManager.processMove gameId playerId choice aiPrediction
          aiConfidence now (manager s) with
  | Returns (move, m) => (Returns move, with_manager m s)
  | Throws e => (Throws e, snd (getGame gameId s))
  end.

(** Get player pattern analysis *)
Definition getPlayerPattern (gameId : string) (s : State)
  : Outcome PlayerPattern * State :=
  let '(found, s) := getGame gameId s in
  match found with
  | None => (Throws (Error "Game not found"), s)
  | Some game =>
      let pattern := PatternAnalyzer.analyzePattern (moves game) in
      (* Save pattern to Redis *)
      (Returns pattern,
       with_store
         (redisMore.savePlayerPattern (game_playerId game) pattern (store s))
         s)
  end.

(** Get AI prediction.  [w] is the world the call of [predictNextMove]
    sees. *)
Definition getAIPrediction (gameId : string) (w : World) (s : State)
  : Outcome AIAnalysis * State :=
  let '(found, s) := getGame gameId s in
  match found with
  | None => (Throws (Error "Game not found or not active"), s)
  | Some game =>
      if negb (bool_decide (status game = playing)) then
        (Throws (Error "Game not found or not active"), s)
      else
        (* Get player pattern *)
        let pattern := PatternAnalyzer.analyzePattern (moves game) in
        (* Check cache first *)
        let patternHash := PatternAnalyzer.generatePatternHash pattern in
        match redisMore.getCachedAnalysis patternHash (store s) with
        | Some cached => (Returns cached, s)
        | None =>
            (* Get player's API key *)
            let apiKey := getPlayerApiKey (game_playerId game) s in
            (* Generate new prediction *)
            match PatternAnalyzer.predictNextMove pattern apiKey w with
            | Throws e => (Throws e, s)
            | Returns analysis =>
                (* Cache the analysis *)
                (Returns analysis,
                 with_store
                   (redisMore.cacheAnalysis patternHash analysis (store s))
                   s)
            end
        end
  end.

(** [game.status = 'finished'] *)
Definition finish (game : GameState) : GameState :=
  {| gameId := gameId game;
     game_playerId := game_playerId game;
     username := username game;
     playerScore := playerScore game;
     aiScore := aiScore game;
     moves := moves game;
     currentStreak := currentStreak game;
     gameStartTime := gameStartTime game;
     status := finished |}.

(** End game.  The game object is the one held by [games], so setting its
    status is visible to the [getPlayerPattern] that follows. *)
Definition endGame (gameId : string) (now : Z) (s : State)
  : Outcome GameState * State :=
  let '(found, s) := getGame gameId s in
  match found with
  | None => (Throws (Error "Game not found"), s)
  | Some game =>
      let game := finish game in
      let s :=
        with_manager
          {| GameManager.games :=
               <[gameId := game]> (GameManager.games (manager s));
             GameManager.redis :=
               redisOps.saveGameState game (GameManager.redis (manager s)) |}
          s in
      (* Update player stats *)
      match getPlayerPattern gameId s with
      | (Throws e, s) => (Throws e, s)
      | (Returns pattern, s) =>
          let playerWon := aiScore game <? playerScore game in
          let s :=
            with_store
              (redisMore.updatePlayerStats
                 {| redisMore.stats_username := username game;
                    redisMore.totalWins := if playerWon then 1 else 0;
                    redisMore.totalGames := 1;
                    redisMore.stats_totalMoves := len (moves game);
                    redisMore.longestStreak := currentStreak game;
                    redisMore.totalRandomnessScore := randomnessScore pattern;
                    redisMore.lastPlayed := now |}
                 (store s))
              s in
          (* Clean up from memory *)
          (Returns game,
           with_manager
             {| GameManager.games :=
                  delete gameId (GameManager.games (manager s));
                GameManager.redis := GameManager.redis (manager s) |}
             s)
      end
  end.

(** A fresh server: nothing in memory, nothing in Redis. *)
Definition initial : State :=
  {| manager :=
       {| GameManager.games := ∅;
          GameManager.redis :=
            {| redisOps.json := ∅; redisOps.streams := ∅;
               redisOps.counters := ∅ |} |};
     playerApiKeys := ∅;
     store :=
       {| redisMore.patterns := ∅; redisMore.analyses := ∅;
          redisMore.hashes := ∅; redisMore.zsets := ∅ |} |}.

(** Redis drops a game document (one hour after its last save) or a cached
    analysis (five minutes after it was stored). *)
Definition expireGame (key : string) (s : State) : State :=
  with_manager
    {| GameManager.games := GameManager.games (manager s);
       GameManager.redis :=
         {| redisOps.json :=
              delete key (redisOps.json (GameManager.redis (manager s)));
            redisOps.streams :=
              redisOps.streams (GameManager.redis (manager s));
            redisOps.counters :=
              redisOps.counters (GameManager.redis (manager s)) |} |}
    s.

Definition expireAnalysis (key : string) (s : State) : State :=
  with_store
    {| redisMore.patterns := redisMore.patterns (store s);
       redisMore.analyses := delete key (redisMore.analyses (store s));
       redisMore.hashes := redisMore.hashes (store s);
       redisMore.zsets := redisMore.zsets (store s) |}
    s.

(** One event in the life of the server: a call of a method of the game
    manager, with any arguments, or the expiry of a key. *)
Inductive step : State -> State -> Prop :=
| step_setPlayerApiKey playerId apiKey s :
    step s (setPlayerApiKey playerId apiKey s)
| step_createGame gameId now playerId username s :
    step s (snd (createGame gameId now playerId username s))
| step_getGame gameId s :
    step s (snd (getGame gameId s))
| step_processMove gameId playerId choice aiPrediction aiConfidence now s :
    step s (snd (processMove gameId playerId choice aiPrediction
                   aiConfidence now s))
| step_getPlayerPattern gameId s :
    step s (snd (getPlayerPattern gameId s))
| step_getAIPrediction gameId w s :
    step s (snd (getAIPrediction gameId w s))
| step_endGame gameId now s :
    step s (snd (endGame gameId now s))
| step_expireGame key s :
    step s (expireGame key s)
| step_expireAnalysis key s :
    step s (expireAnalysis key s).

(** The states a server can be in. *)
Inductive reachable : State -> Prop :=
| reachable_initial : reachable initial
| reachable_step s s' : reachable s -> step s s' -> reachable s'.

End Server.

(** ** Double precision

    The scores of the code are IEEE 754 doubles.  This module evaluates them
    in binary64 arithmetic (the Standard Library's [SpecFloat]) so that the
    rational model of the scores can be compared with what the doubles give:
    see [Binary64_scores_agree] below. *)

Module Binary64.

Definition prec : Z := 53.
Definition emax : Z := 1024.

(** The double of an integer, and the operations [/] and [*]. *)
Definition of_Z (z : Z) : spec_float := binary_normalize prec emax z 0 false.
Definition div : spec_float -> spec_float -> spec_float := SFdiv prec emax.
Definition mul : spec_float -> spec_float -> spec_float := SFmul prec emax.

(** The double nearest to [a / b]; for [3 / 10] this is the literal [0.3]. *)
Definition of_ratio (a b : Z) : spec_float := div (of_Z a) (of_Z b).

Definition is_finite (f : spec_float) : bool :=
  match f with
  | S754_finite _ _ _ | S754_zero _ => true
  | _ => false
  end.

(** The exact value of a finite double. *)
Definition to_Q (f : spec_float) : Q :=
  match f with
  | S754_finite s m e =>
      let v :=
        if 0 <=? e then inject_Z (Z.pos m * 2 ^ e)
        else Z.pos m # Pos.pow 2 (Z.to_pos (- e)) in
      if s then Qopp v else v
  | _ => 0%Q
  end.

(** The score literals of [predictNextMove], as doubles and as rationals. *)
Definition literals : list (spec_float * Q) :=
  [ (of_ratio 3 10, 3 # 10); (of_ratio 33 100, 33 # 100);
    (of_ratio 35 100, 35 # 100); (of_ratio 4 10, 4 # 10);
    (of_ratio 6 10, 6 # 10) ].

(** [Math.round(score * 100)] gives the same integer on the double [d] as
    on the rational [q]. *)
Definition agree_rounding (d : spec_float) (q : Q) : bool :=
  is_finite (mul d (of_Z 100))
  && (Math_round (to_Q (mul d (of_Z 100))) =? Math_round (q * 100)).

(** The doubles [d1], [d2] compare as the rationals [q1], [q2] do. *)
Definition agree_order (d1 : spec_float) (q1 : Q) (d2 : spec_float) (q2 : Q)
  : bool :=
  match Qcompare (to_Q d1) (to_Q d2), Qcompare q1 q2 with
  | Lt, Lt | Eq, Eq | Gt, Gt => true
  | _, _ => false
  end.

(** The transition score [a / b * 0.5]: as a double it compares with every
    literal as the rational does, and it rounds to the same confidence
    whenever it is at least the 0.3 of the frequency candidate, which is
    always in the list. *)
Definition transition_agrees (a b : Z) : bool :=
  let d := mul (of_ratio a b) (of_ratio 1 2) in
  let q := (inject_Z a / inject_Z b * (1 # 2))%Q in
  is_finite d
  && forallb (fun '(cd, cq) => agree_order d q cd cq) literals
  && (if Qle_bool (3 # 10) q then agree_rounding d q else true).

Definition range (n : Z) : list Z := map Z.of_nat (seq 1 (Z.to_nat n)).

(** All literals, and all transition scores [a / b * 0.5] with
    [0 <= a <= b <= n]. *)
Definition agree_up_to (n : Z) : bool :=
  forallb (fun '(cd, cq) => agree_rounding cd cq) literals
  && forallb
       (fun b => forallb (fun a => transition_agrees a b) (0 :: range b))
       (range n).

End Binary64.

(** * Vocabulary of the properties *)

Import PatternAnalyzer.

(** The sum of the three counts of a record. *)
Definition sum3 (rec : PerChoice Z) : Z :=
  of_rock rec + of_paper rec + of_scissors rec.

(** [best] sits in [preds] at the first position that holds the highest
    score: everything before it scores strictly less, nothing after it
    scores more. *)
Definition first_max (best : Candidate) (preds : list Candidate) : Prop :=
  exists pre post,
    preds = (pre ++ best :: post)%list
    /\ Forall (fun c => (score c < score best)%Q) pre
    /\ Forall (fun c => (score c <= score best)%Q) post.

(** The rationale step of [predictNextMove] fails in world [w]: no key is
    available, so [getGeminiModel] throws, or the text service fails on
    whatever prompt it is given. *)
Definition rationale_fails (apiKey : option string) (w : World) : Prop :=
  match getGeminiModel apiKey w with
  | Throws _ => True
  | Returns model =>
      forall prompt, exists e, generateContent w model prompt = ServiceFails e
  end.

(** The tags the five strategies attach to their candidates. *)
Definition strategy_tags : list string :=
  ["frequency"; "sequential"; "meta"; "psychological"].

(** The contribution of a symbol of probability [p] to the entropy, in
    natural units. *)
Definition plogp (p : R) : R :=
  if Rlt_dec 0 p then (- (p * ln p))%R else 0%R.

(** ** Sample data *)

(** A move of a round in which the AI predicted rock. *)
Definition sample_move (c : GameChoice) : GameMove :=
  {| playerId := "alice"; choice := c; timestamp := 0;
     aiPrediction := rock; aiChoice := getCounterMove rock;
     aiConfidence := 35;
     correct := bool_decide (rock = c);
     winner := determineWinner c (getCounterMove rock) |}.

Definition rotation_history : list GameMove :=
  map sample_move [rock; paper; scissors; rock; paper; scissors].

(** A pattern as [analyzePattern] shapes it, with the randomness score of a
    balanced history written in. *)
Definition rotation_pattern : PlayerPattern :=
  set_randomnessScore 100 (initialPattern rotation_history).

Definition repeat_pattern : PlayerPattern :=
  set_randomnessScore 58
    (initialPattern (map sample_move [paper; rock; rock])).

(** Two patterns that differ in their statistics and in the older entries of
    [lastMoves], but not in the last five entries or the move count. *)
Definition tail_pattern_a : PlayerPattern :=
  set_randomnessScore 98
    (initialPattern
       (map sample_move
          [rock; rock; paper; scissors; rock; paper; scissors])).

Definition tail_pattern_b : PlayerPattern :=
  set_randomnessScore 91
    (initialPattern
       (map sample_move
          [paper; scissors; paper; scissors; rock; paper; scissors])).

(** A world without any API key, and one whose text service is down. *)
Definition no_key_world : World :=
  {| GEMINI_API_KEY := None;
     Math_random := 3 # 4;
     generateContent := fun _ _ => ServiceReplies "never asked" |}.

Definition service_down_world : World :=
  {| GEMINI_API_KEY := Some "key";
     Math_random := 1 # 4;
     generateContent := fun _ _ => ServiceFails (Error "503") |}.

Definition sample_game : GameState :=
  {| gameId := "g1"; game_playerId := "alice"; username := "Alice";
     playerScore := 0; aiScore := 0; moves := []; currentStreak := 0;
     gameStartTime := 0; status := playing |}.

Definition sample_manager : GameManager.Manager :=
  {| GameManager.games := {[ "g1" := sample_game ]};
     GameManager.redis :=
       {| redisOps.json := ∅; redisOps.streams := ∅;
          redisOps.counters := ∅ |} |}.

(** ** Vocabulary of the random draw *)

(** The [n] equally spaced numbers [0, 1/n, ..., (n - 1)/n] of [0, 1). *)
Definition grid (n : nat) : list Q :=
  map (fun k => Z.of_nat k # Pos.of_nat n) (seq 0 n).

(** How many of the random numbers make the win-stay/lose-shift strategy
    propose the symbol [c]. *)
Definition draws (pattern : PlayerPattern) (c : GameChoice)
    (randoms : list Q) : nat :=
  List.length
    (List.filter
       (fun random =>
          bool_decide
            (map cand_choice (winStayStrategy pattern random) = [c]))
       randoms).

(** ** Vocabulary of the further properties *)

From Stdlib Require Import DecimalZ DecimalPos.

(** The number of moves of a history whose prediction was wrong. *)
Fixpoint wrong_predictions (history : list GameMove) : Z :=
  match history with
  | [] => 0
  | move :: rest =>
      (if correct move then 0 else 1) + wrong_predictions rest
  end.

(** How often [c] occurs in a list of choices. *)
Definition occurrences (c : GameChoice) (cs : list GameChoice) : Z :=
  len (List.filter (fun x => bool_decide (x = c)) cs).

(** The pairs [(cs[i], cs[i + 1])]. *)
Definition adjacent_pairs (cs : list GameChoice)
  : list (GameChoice * GameChoice) :=
  combine cs (tl cs).

(** The position of a symbol in [GAME_CHOICES]. *)
Definition rank (c : GameChoice) : Z :=
  match c with
  | rock => 0
  | paper => 1
  | scissors => 2
  end.

(** [c] is the first symbol, in the order of [GAME_CHOICES], at which the
    record takes its greatest value; likewise for its least value. *)
Definition first_greatest (c : GameChoice) (rec : PerChoice Z) : Prop :=
  forall d, get d rec <= get c rec /\ (rank d < rank c -> get d rec < get c rec).

Definition first_least (c : GameChoice) (rec : PerChoice Z) : Prop :=
  forall d, get c rec <= get d rec /\ (rank d < rank c -> get c rec < get d rec).

(** The length of the run of [c] that [cs] starts with, and the length of
    the longest run of [c] anywhere in [cs]. *)
Fixpoint leading_run (c : GameChoice) (cs : list GameChoice) : nat :=
  match cs with
  | x :: rest => if decide (x = c) then S (leading_run c rest) else 0%nat
  | [] => 0%nat
  end.

Fixpoint longest_run (c : GameChoice) (cs : list GameChoice) : nat :=
  match cs with
  | [] => 0%nat
  | x :: rest => Nat.max (leading_run c (x :: rest)) (longest_run c rest)
  end.

(** The streak loop of [analyzePattern] followed by its last update, started
    in the middle of a history: [prev] is the symbol just seen and
    [currentStreak] the length of the run it ends. *)
Definition streaks_from (prev : GameChoice) (rest : list GameChoice)
    (currentStreak : Z) (streaks : PerChoice Z) : PerChoice Z :=
  let '(currentStreak, streaks) :=
    streaks_loop prev rest currentStreak streaks in
  let final := List.last (prev :: rest) prev in
  if get final streaks <? currentStreak
  then set final currentStreak streaks
  else streaks.

(** No cell of the transition table is negative. *)
Definition nonneg_transitions (pattern : PlayerPattern) : Prop :=
  forall a b, 0 <= get b (get a (transitions pattern)).

(** A history of four moves that ends in the rotation rock, paper,
    scissors, and one that ends in scissors, rock, paper. *)
Definition ascending_history : list GameMove :=
  map sample_move [paper; rock; paper; scissors].

Definition shifted_history : list GameMove :=
  map sample_move [rock; rock; scissors; rock; paper].

(** The position of a character in a list of characters, counted from [i];
    and the value of a base64 digit (64 for a character outside the
    alphabet). *)
Fixpoint index_from (ch : ascii) (alphabet : list ascii) (i : N) : N :=
  match alphabet with
  | [] => i
  | x :: rest => if Ascii.eqb x ch then i else index_from ch rest (i + 1)%N
  end.

Definition base64_value (ch : ascii) : N := index_from ch base64_alphabet 0.

(** What is checked of each digit position: the digit decodes to the
    position it stands for, and it is not the padding character. *)
Definition base64_digit_ok (i : N) : bool :=
  (base64_value (base64_digit i) =? i)%N
  && negb (Ascii.eqb (base64_digit i) "=").

(** ** Vocabulary of the game registry *)

(** The rounds of a game that [who] won. *)
Definition wins (who : Winner) (ms : list GameMove) : Z :=
  len (List.filter (fun m => bool_decide (winner m = who)) ms).

(** The number of rounds the player has won since the AI last won one; ties
    leave it as it is. *)
Definition streak_after (ms : list GameMove) : Z :=
  fold_left
    (fun streak m =>
       match winner m with
       | ai => 0
       | player => streak + 1
       | tie => streak
       end)
    ms 0.

(** A recorded move follows the rules: the AI played the counter to its
    prediction, the winner is who the rules say, and the prediction is
    marked correct exactly when it was the player's choice. *)
Definition move_by_rules (m : GameMove) : Prop :=
  aiChoice m = getCounterMove (aiPrediction m)
  /\ winner m = determineWinner (choice m) (aiChoice m)
  /\ correct m = bool_decide (aiPrediction m = choice m).

(** The bookkeeping of a game agrees with its list of moves. *)
Definition game_consistent (g : GameState) : Prop :=
  playerScore g = wins player (moves g)
  /\ aiScore g = wins ai (moves g)
  /\ currentStreak g = streak_after (moves g)
  /\ Forall move_by_rules (moves g)
  /\ Forall (fun m => playerId m = game_playerId g) (moves g).

(** The value of a metric counter, 0 while it was never incremented. *)
Definition metric (name : string) (m : GameManager.Manager) : Z :=
  default 0
    (redisOps.counters (GameManager.redis m) !! ("metric:" ++ name)).

(** The registry of games is in order: every game is filed under its own
    id, in memory and in Redis, its bookkeeping is consistent, and a game
    held in memory is the same as its Redis document, if there is one. *)
Definition registry_ok (m : GameManager.Manager) : Prop :=
  (forall id g,
      GameManager.games m !! id = Some g ->
      gameId g = id /\ game_consistent g)
  /\ (forall key g,
         redisOps.json (GameManager.redis m) !! key = Some g ->
         key = redisOps.GAME_KEY (gameId g) /\ game_consistent g)
  /\ (forall id g g',
         GameManager.games m !! id = Some g ->
         redisOps.json (GameManager.redis m) !! redisOps.GAME_KEY id
         = Some g' ->
         g = g').

Definition metrics_ok (m : GameManager.Manager) : Prop :=
  0 <= metric "ai_correct_predictions" m <= metric "total_moves" m.

(** ** A sample run of the server

    Alice opens game [g1] on a fresh server and plays rock while the AI
    predicts paper; Bob opens game [g2] beside it. *)
Definition opened_game : GameState :=
  fst (Server.createGame "g1" 1000 "alice" (Some "Alice") Server.initial).

Definition opened_server : Server.State :=
  snd (Server.createGame "g1" 1000 "alice" (Some "Alice") Server.initial).

Definition first_move : GameMove :=
  {| playerId := "alice"; choice := rock; timestamp := 2000;
     aiPrediction := paper; aiChoice := scissors; aiConfidence := 35;
     correct := false; winner := player |}.

Definition played_server : Server.State :=
  snd (Server.processMove "g1" "alice" rock paper 35 2000 opened_server).

Definition ended_game : GameState :=
  {| gameId := "g1"; game_playerId := "alice"; username := "Alice";
     playerScore := 1; aiScore := 0; moves := [first_move];
     currentStreak := 1; gameStartTime := 1000; status := finished |}.

Definition second_game : GameState :=
  fst (Server.createGame "g2" 1500 "bob" None opened_server).

Definition two_games_server : Server.State :=
  snd (Server.createGame "g2" 1500 "bob" None opened_server).

(** The player [pid] makes the moves [choices] in game [id], one after the
    other; the AI predicts paper each time. *)
Definition play (id pid : string) (choices : list GameChoice)
    (s : Server.State) : Server.State :=
  fold_left (fun s c => snd (Server.processMove id pid c paper 50 0 s))
    choices s.

(** Alice and Bob have each played six rounds.  Their histories end in the
    same five choices, but Alice played rock three times and Bob twice. *)
Definition busy_server : Server.State :=
  Eval vm_compute in
    play "g2" "bob" [paper; rock; scissors; rock; paper; scissors]
      (play "g1" "alice" [rock; rock; scissors; rock; paper; scissors]
         two_games_server).

Definition alice_game : GameState :=
  Eval vm_compute in
    default opened_game
      (GameManager.games (Server.manager busy_server) !! "g1").

Definition bob_game : GameState :=
  Eval vm_compute in
    default second_game
      (GameManager.games (Server.manager busy_server) !! "g2").

(** A world whose text service answers with the number of rocks it was
    told about. *)
Definition counting_world : World :=
  {| GEMINI_API_KEY := Some "key";
     Math_random := 1 # 4;
     generateContent :=
       fun _ prompt =>
         ServiceReplies
           ("Rock count: "
            ++ number_to_string (of_rock (prompt_frequencies prompt))) |}.

(** The analysis of a rotation that is about to return to rock. *)
Definition rock_analysis (text : string) : AIAnalysis :=
  {| prediction := rock; confidence := 60; reasoning := text;
     patternType := "sequential" |}.

(** ** Sequences of calls *)

(** A call of a method of the game manager with its arguments, or the
    expiry of a key: the events of [Server.step], by name. *)
Inductive Call : Type :=
| call_setPlayerApiKey (playerId apiKey : string)
| call_createGame (gameId : string) (now : Z) (playerId : string)
    (username : option string)
| call_getGame (gameId : string)
| call_processMove (gameId playerId : string) (choice : GameChoice)
    (aiPrediction : GameChoice) (aiConfidence : Z) (now : Z)
| call_getPlayerPattern (gameId : string)
| call_getAIPrediction (gameId : string) (w : World)
| call_endGame (gameId : string) (now : Z)
| expiry_game (key : string)
| expiry_analysis (key : string).

(** The state a call leaves behind, and the state after a sequence of
    calls. *)
Definition after_call (c : Call) (s : Server.State) : Server.State :=
  match c with
  | call_setPlayerApiKey playerId apiKey =>
      Server.setPlayerApiKey playerId apiKey s
  | call_createGame gameId now playerId username =>
      snd (Server.createGame gameId now playerId username s)
  | call_getGame gameId => snd (Server.getGame gameId s)
  | call_processMove gameId playerId choice aiPrediction aiConfidence now =>
      snd (Server.processMove gameId playerId choice aiPrediction
             aiConfidence now s)
  | call_getPlayerPattern gameId => snd (Server.getPlayerPattern gameId s)
  | call_getAIPrediction gameId w => snd (Server.getAIPrediction gameId w s)
  | call_endGame gameId now => snd (Server.endGame gameId now s)
  | expiry_game key => Server.expireGame key s
  | expiry_analysis key => Server.expireAnalysis key s
  end.

Definition after_calls (calls : list Call) (s : Server.State)
  : Server.State :=
  fold_left (fun s c => after_call c s) calls s.

(** The call is a [createGame] whose fresh id comes out as [id]. *)
Definition creates (id : string) (c : Call) : Prop :=
  match c with
  | call_createGame gameId _ _ _ => gameId = id
  | _ => False
  end.

(** No copy of the game [id], in memory or in Redis, is in play. *)
Definition retired (id : string) (m : GameManager.Manager) : Prop :=
  (forall g, GameManager.games m !! id = Some g -> status g <> playing)
  /\ (forall g,
         redisOps.getGameState id (GameManager.redis m) = Some g ->
         status g <> playing).

(** * Properties *)

(** ** Auxiliary facts *)

Lemma sum3_set_incr (c : GameChoice) (rec : PerChoice Z) :
  sum3 (set c (get c rec + 1) rec) = sum3 rec + 1.
Proof. destruct c; unfold sum3; simpl; lia. Qed.

Lemma frequencies_fold_sum (moves : list GameChoice) (acc : PerChoice Z) :
  sum3 (fold_left
          (fun frequencies move =>
             set move (get move frequencies + 1) frequencies)
          moves acc)
  = sum3 acc + len moves.
Proof.
  revert acc.
  induction moves as [|move moves IH]; intros acc; simpl.
  - unfold len; simpl; lia.
  - rewrite IH, sum3_set_incr. unfold len. cbn [List.length]. lia.
Qed.

Lemma len_map {A B : Type} (f : A -> B) (l : list A) : len (map f l) = len l.
Proof. unfold len. now rewrite length_map. Qed.

Lemma frequencies_fold_nonneg (moves : list GameChoice) (acc : PerChoice Z) :
  (forall c, 0 <= get c acc)%Z ->
  forall c,
    0 <= get c (fold_left
                  (fun frequencies move =>
                     set move (get move frequencies + 1) frequencies)
                  moves acc).
Proof.
  revert acc. induction moves as [|move moves IH]; intros acc Hacc;
    cbn [fold_left]; [exact Hacc|].
  apply IH. intros c. pose proof (Hacc move). pose proof (Hacc c).
  destruct move, c; cbn [get set of_rock of_paper of_scissors] in *; lia.
Qed.

Lemma frequencies_fold_same (c : GameChoice) (moves : list GameChoice)
    (acc : PerChoice Z) :
  Forall (fun move => move = c) moves ->
  fold_left
    (fun frequencies move => set move (get move frequencies + 1) frequencies)
    moves acc
  = set c (get c acc + len moves) acc.
Proof.
  intros Hsame. revert acc.
  induction Hsame as [|move moves -> _ IH]; intros acc; cbn [fold_left].
  - unfold len. cbn [List.length].
    destruct c, acc; cbn; f_equal; lia.
  - rewrite IH. unfold len. cbn [List.length].
    destruct c, acc; cbn; f_equal; lia.
Qed.
(** ** Game rules *)

(** C10: for every symbol [c], [getCounterMove c] is the one symbol that
    beats [c], so the AI wins when it plays it against [c]; and a move that
    [processMove] records with its [correct] flag set has winner [ai].
    [processMove] does return a move for a playing game of that player. *)
Theorem counterMove_beats_prediction :
  (forall c : GameChoice,
      get (getCounterMove c) GAME_RULES = c
      /\ (forall d, get d GAME_RULES = c -> d = getCounterMove c)
      /\ determineWinner c (getCounterMove c) = ai)
  /\ (forall gameId playerId choice aiPrediction aiConfidence now m move m',
         GameManager.processMove gameId playerId choice aiPrediction
           aiConfidence now m = Returns (move, m') ->
         correct move = true -> winner move = ai)
  /\ (forall gameId playerId choice aiPrediction aiConfidence now m game,
         GameManager.games m !! gameId = Some game ->
         status game = playing ->
         game_playerId game = playerId ->
         exists move m',
           GameManager.processMove gameId playerId choice aiPrediction
             aiConfidence now m = Returns (move, m')
           /\ correct move = bool_decide (aiPrediction = choice)
           /\ winner move = determineWinner choice (getCounterMove aiPrediction)).
Proof.
  split; [|split].
  - intros c. repeat split.
    + now destruct c.
    + intros d Hd. destruct c, d; try reflexivity; discriminate Hd.
    + now destruct c.
  - intros gameId playerId choice aiPrediction aiConfidence now m move m' Hrun
      Hcorrect.
    unfold GameManager.processMove in Hrun.
    destruct (GameManager.getGame gameId m) as [[game|] m1]; [|discriminate].
    destruct (negb (bool_decide (status game = playing))); [discriminate|].
    destruct (negb (String.eqb (game_playerId game) playerId));
      [discriminate|].
    injection Hrun as Hmove _. subst move. simpl in *.
    apply bool_decide_eq_true in Hcorrect. subst choice.
    now destruct aiPrediction.
  - intros gameId playerId choice aiPrediction aiConfidence now m game Hgame
      Hstatus Hplayer.
    unfold GameManager.processMove, GameManager.getGame.
    rewrite Hgame, Hstatus, Hplayer, String.eqb_refl. simpl.
    eexists _, _. split; [reflexivity|]. simpl. split; reflexivity.
Qed.

(** ** Pattern statistics *)

(** C5: the three frequency counts of an analysed history add up to
    [totalMoves], which is the length of the history. *)
Theorem frequencies_sum_totalMoves (history : list GameMove) :
  let pattern := analyzePattern history in
  of_rock (frequencies pattern) + of_paper (frequencies pattern)
  + of_scissors (frequencies pattern) = totalMoves pattern
  /\ totalMoves pattern = len history.
Proof.
  simpl. split; [|reflexivity].
  unfold calculateFrequencies.
  pose proof (frequencies_fold_sum (map choice history) zeroes) as Hsum.
  unfold sum3 in Hsum. rewrite Hsum, len_map. simpl. lia.
Qed.

(** ** Entropy and the randomness score *)

Section Entropy.
Local Open Scope R_scope.

Lemma ln_le_minus_1 (x : R) : 0 < x -> ln x <= x - 1.
Proof.
  intros Hpos.
  destruct (Req_dec (ln x) 0) as [Hzero|Hnonzero].
  - assert (x = 1) as ->.
    { rewrite <- (exp_ln x Hpos), Hzero. apply exp_0. }
    rewrite ln_1. lra.
  - pose proof (exp_ineq1 (ln x) Hnonzero) as Hexp.
    rewrite (exp_ln x Hpos) in Hexp. lra.
Qed.

Lemma ln_2_pos : 0 < ln 2.
Proof. pose proof ln_lt_2. lra. Qed.

Lemma ln_3_pos : 0 < ln 3.
Proof.
  pose proof ln_2_pos.
  assert (ln 2 < ln 3) by (apply ln_increasing; lra). lra.
Qed.

Lemma plogp_bounds (p : R) :
  0 <= p <= 1 -> 0 <= plogp p <= p * ln 3 + (/ 3 - p).
Proof.
  intros [Hlow Hhigh]. unfold plogp.
  destruct (Rlt_dec 0 p) as [Hpos|Hzero].
  - split.
    + pose proof (ln_le_minus_1 p Hpos). nra.
    + assert (0 < / (3 * p)) as Hinv by (apply Rinv_0_lt_compat; lra).
      pose proof (ln_le_minus_1 (/ (3 * p)) Hinv) as Hln.
      rewrite ln_Rinv, ln_mult in Hln by lra.
      assert (p * / (3 * p) = / 3) as Hcancel by (field; lra).
      assert (p * (- (ln 3 + ln p)) <= p * (/ (3 * p) - 1)) as Hscaled
        by (apply Rmult_le_compat_l; lra).
      lra.
  - assert (p = 0) as -> by lra. lra.
Qed.

Lemma entropy_step_plogp (frequencies : PerChoice Z) (totalMoves : Z)
    (entropy : R) (c : GameChoice) :
  entropy_step frequencies totalMoves entropy c
  = entropy + plogp (IZR (get c frequencies) / IZR totalMoves) / ln 2.
Proof.
  unfold entropy_step, plogp, Math_log2.
  destruct (Rlt_dec 0 _); unfold Rdiv; [ring|lra].
Qed.

Lemma entropy_bounds (frequencies : PerChoice Z) (totalMoves : Z) :
  (0 <= of_rock frequencies)%Z -> (0 <= of_paper frequencies)%Z ->
  (0 <= of_scissors frequencies)%Z ->
  (sum3 frequencies = totalMoves)%Z -> (totalMoves <> 0)%Z ->
  0 <= fold_left (entropy_step frequencies totalMoves) GAME_CHOICES 0
    <= Math_log2 3.
Proof.
  intros Hrock Hpaper Hscissors Hsum Hnonzero.
  cbn [fold_left GAME_CHOICES]. rewrite !entropy_step_plogp. cbn [get].
  unfold sum3 in Hsum.
  assert (0 < IZR totalMoves) as Hpos by (apply IZR_lt; lia).
  assert (forall k : Z, (0 <= k <= totalMoves)%Z ->
                        0 <= IZR k / IZR totalMoves <= 1) as Hprob.
  { intros k [Hk0 Hk1]. apply IZR_le in Hk0, Hk1. split.
    - apply Rmult_le_pos; [exact Hk0|]. left. now apply Rinv_0_lt_compat.
    - apply Rmult_le_reg_r with (IZR totalMoves); [exact Hpos|].
      unfold Rdiv. rewrite Rmult_assoc, Rinv_l by lra. lra. }
  pose proof (plogp_bounds _ (Hprob (of_rock frequencies) ltac:(lia))) as Hr.
  pose proof (plogp_bounds _ (Hprob (of_paper frequencies) ltac:(lia))) as Hp.
  pose proof (plogp_bounds _ (Hprob (of_scissors frequencies) ltac:(lia)))
    as Hs.
  assert (IZR (of_rock frequencies) / IZR totalMoves
          + IZR (of_paper frequencies) / IZR totalMoves
          + IZR (of_scissors frequencies) / IZR totalMoves = 1) as Hone.
  { rewrite <- Hsum, !plus_IZR. field. rewrite <- !plus_IZR, Hsum. lra. }
  set (pr := IZR (of_rock frequencies) / IZR totalMoves) in *.
  set (pp := IZR (of_paper frequencies) / IZR totalMoves) in *.
  set (ps := IZR (of_scissors frequencies) / IZR totalMoves) in *.
  pose proof ln_2_pos as Hln2. pose proof ln_3_pos as Hln3.
  unfold Math_log2.
  assert (0 + plogp pr / ln 2 + plogp pp / ln 2 + plogp ps / ln 2
          = (plogp pr + plogp pp + plogp ps) / ln 2) as -> by (field; lra).
  split.
  - apply Rmult_le_pos; [lra|]. left. now apply Rinv_0_lt_compat.
  - apply Rmult_le_compat_r; [left; now apply Rinv_0_lt_compat|].
    assert (pr * ln 3 + pp * ln 3 + ps * ln 3 = ln 3) as Hsum3.
    { replace (pr * ln 3 + pp * ln 3 + ps * ln 3)
        with ((pr + pp + ps) * ln 3) by ring.
      rewrite Hone. ring. }
    lra.
Qed.

Lemma Math_round_R_range (x : R) (lo hi : Z) :
  IZR lo <= x <= IZR hi -> (lo <= Math_round_R x <= hi)%Z.
Proof.
  intros [Hlo Hhi]. unfold Math_round_R.
  destruct (base_Int_part (x + / 2)) as [Hfloor Hfrac].
  split.
  - assert (IZR lo - 1 < IZR (Int_part (x + / 2))) as H by lra.
    rewrite <- minus_IZR in H. apply lt_IZR in H. lia.
  - assert (IZR (Int_part (x + / 2)) < IZR hi + 1) as H by lra.
    rewrite <- plus_IZR in H. apply lt_IZR in H. lia.
Qed.

Lemma plogp_0 : plogp 0 = 0.
Proof. unfold plogp. destruct (Rlt_dec 0 0); lra. Qed.

Lemma plogp_1 : plogp 1 = 0.
Proof. unfold plogp. destruct (Rlt_dec 0 1); [rewrite ln_1|]; lra. Qed.

(** The entropy of a history that repeats one symbol is zero. *)
Lemma entropy_single_symbol (c : GameChoice) (n : Z) :
  (n <> 0)%Z ->
  fold_left (entropy_step (set c n zeroes) n) GAME_CHOICES 0 = 0.
Proof.
  intros Hnonzero.
  assert (IZR n <> 0) as Hn by (now apply not_0_IZR).
  assert (IZR n / IZR n = 1) as Hone by (now field).
  assert (IZR 0 / IZR n = 0) as Hzero by (now field).
  cbn [fold_left GAME_CHOICES]. rewrite !entropy_step_plogp.
  destruct c; cbn [get set zeroes of_rock of_paper of_scissors];
    rewrite ?Hone, ?Hzero, ?plogp_0, ?plogp_1; unfold Rdiv; lra.
Qed.

Lemma plogp_third : plogp (IZR 2 / IZR 6) = / 3 * ln 3.
Proof.
  assert (IZR 2 / IZR 6 = / 3) as -> by lra.
  unfold plogp. destruct (Rlt_dec 0 (/ 3)) as [_|Hneg]; [|lra].
  rewrite ln_Rinv by lra. ring.
Qed.

(** A history that plays each symbol twice is scored as fully random. *)
Lemma randomness_balanced (history : list GameMove) :
  calculateFrequencies (map choice history) = mkPerChoice 2%Z 2%Z 2%Z ->
  len history = 6%Z ->
  randomnessScore (analyzePattern history) = 100%Z.
Proof.
  intros Hfreq Hlen.
  change (randomnessScore (analyzePattern history))
    with (calculateRandomness (initialPattern history)).
  unfold calculateRandomness.
  change (frequencies (initialPattern history))
    with (calculateFrequencies (map choice history)).
  change (totalMoves (initialPattern history)) with (len history).
  rewrite Hfreq, Hlen. cbn [Z.eqb fold_left GAME_CHOICES].
  rewrite !entropy_step_plogp. cbn [get of_rock of_paper of_scissors].
  rewrite plogp_third.
  pose proof ln_2_pos as Hln2. pose proof ln_3_pos as Hln3.
  assert ((0 + / 3 * ln 3 / ln 2 + / 3 * ln 3 / ln 2 + / 3 * ln 3 / ln 2)
          / Math_log2 3 * 100 = 100) as ->.
  { unfold Math_log2. field. lra. }
  assert (100 <= Math_round_R 100 <= 100)%Z; [|lia].
  apply Math_round_R_range. lra.
Qed.

End Entropy.

(** C6: the randomness score of an analysed history lies between 0 and 100;
    it is 100 when the history is empty ([totalMoves] is 0) and 0 when a
    non-empty history repeats a single symbol.  A symbol that was never
    played adds no term to the entropy. *)
Theorem randomnessScore_range (history : list GameMove) :
  let pattern := analyzePattern history in
  0 <= randomnessScore pattern <= 100
  /\ (totalMoves pattern = 0 -> randomnessScore pattern = 100)
  /\ (forall c,
         history <> [] ->
         Forall (fun move => choice move = c) history ->
         randomnessScore pattern = 0)
  /\ (forall c entropy,
         get c (frequencies pattern) = 0 ->
         entropy_step (frequencies pattern) (totalMoves pattern) entropy c
         = entropy).
Proof.
  cbn zeta.
  change (randomnessScore (analyzePattern history))
    with (calculateRandomness (initialPattern history)).
  change (totalMoves (analyzePattern history)) with (len history).
  change (frequencies (analyzePattern history))
    with (calculateFrequencies (map choice history)).
  unfold calculateRandomness.
  change (frequencies (initialPattern history))
    with (calculateFrequencies (map choice history)).
  change (totalMoves (initialPattern history)) with (len history).
  split; [|split; [|split]].
  - destruct (Z.eqb_spec (len history) 0) as [Hempty|Hnonempty]; [lia|].
    apply Math_round_R_range.
    pose proof (frequencies_fold_nonneg (map choice history) zeroes) as Hpos.
    pose proof (frequencies_fold_sum (map choice history) zeroes) as Hsum.
    rewrite len_map in Hsum. change (sum3 zeroes) with 0 in Hsum.
    fold (calculateFrequencies (map choice history)) in Hpos, Hsum.
    destruct (entropy_bounds (calculateFrequencies (map choice history))
                (len history)) as [Hlow Hhigh].
    + apply (Hpos ltac:(intros []; cbn; lia) rock).
    + apply (Hpos ltac:(intros []; cbn; lia) paper).
    + apply (Hpos ltac:(intros []; cbn; lia) scissors).
    + lia.
    + exact Hnonempty.
    + assert (0 < Math_log2 3)%R as Hmax.
      { unfold Math_log2. apply Rmult_lt_0_compat; [apply ln_3_pos|].
        apply Rinv_0_lt_compat, ln_2_pos. }
      set (entropy := fold_left _ GAME_CHOICES 0%R) in *.
      assert (0 <= entropy / Math_log2 3 <= 1)%R as [Hratio0 Hratio1].
      { split.
        - apply Rmult_le_pos; [exact Hlow|].
          left. now apply Rinv_0_lt_compat.
        - apply Rmult_le_reg_r with (Math_log2 3); [exact Hmax|].
          unfold Rdiv. rewrite Rmult_assoc, Rinv_l by lra. lra. }
      lra.
  - intros Hempty. now rewrite Hempty.
  - intros c Hnonempty Hsame.
    assert (len history <> 0) as Hlen.
    { destruct history; [congruence|]. unfold len. cbn [List.length]. lia. }
    destruct (Z.eqb_spec (len history) 0) as [Hzero|_]; [lia|].
    unfold calculateFrequencies.
    rewrite (frequencies_fold_same c), len_map
      by (now apply Forall_map).
    replace (get c zeroes + len history) with (len history)
      by (now destruct c).
    rewrite (entropy_single_symbol c _ Hlen).
    assert (0 <= Math_round_R (0 / Math_log2 3 * 100) <= 0); [|lia].
    apply Math_round_R_range. unfold Rdiv. lra.
  - intros c entropy Hnever. unfold entropy_step. rewrite Hnever.
    destruct (Rlt_dec 0 (0 / IZR (len history))) as [Hpos|_];
      [|reflexivity].
    unfold Rdiv in Hpos. lra.
Qed.

(** ** Selection of the best candidate *)

Section Selection.
Local Open Scope Q_scope.

Lemma Qgtb_true (x y : Q) : Qgtb x y = true <-> y < x.
Proof.
  unfold Qgtb. rewrite negb_true_iff. split.
  - intros H. apply Qnot_le_lt. intros Hle.
    apply Qle_bool_iff in Hle. congruence.
  - intros H. destruct (Qle_bool x y) eqn:E; [|reflexivity].
    apply Qle_bool_iff in E. exfalso. exact (Qlt_not_le _ _ H E).
Qed.

Lemma Qgtb_false (x y : Q) : Qgtb x y = false <-> x <= y.
Proof. unfold Qgtb. rewrite negb_false_iff. apply Qle_bool_iff. Qed.

Lemma keep_better_cases (best pred : Candidate) :
  (keep_better best pred = pred /\ score best < score pred)
  \/ (keep_better best pred = best /\ score pred <= score best).
Proof.
  unfold keep_better.
  destruct (Qgtb (score pred) (score best)) eqn:Hcmp.
  - left. split; [reflexivity|]. now apply Qgtb_true.
  - right. split; [reflexivity|]. now apply Qgtb_false.
Qed.

Lemma fold_keep_better (preds : list Candidate) (start : Candidate) :
  (fold_left keep_better preds start = start
   /\ Forall (fun c => score c <= score start) preds)
  \/ (score start < score (fold_left keep_better preds start)
      /\ first_max (fold_left keep_better preds start) preds).
Proof.
  revert start. induction preds as [|c rest IH]; intros start; cbn [fold_left].
  - left. split; [reflexivity|constructor].
  - destruct (keep_better_cases start c) as [[-> Hcmp]|[-> Hcmp]].
    + right.
      destruct (IH c) as [[Heq Hall]|[Hlt (pre & post & Hsplit & Hpre & Hpost)]].
      * rewrite Heq. split; [exact Hcmp|].
        exists [], rest. repeat split; [constructor|exact Hall].
      * split; [now apply Qlt_trans with (score c)|].
        exists (c :: pre), post. rewrite Hsplit at 1. repeat split.
        -- constructor; assumption.
        -- exact Hpost.
    + destruct (IH start) as [[Heq Hall]|[Hlt (pre & post & Hsplit & Hpre & Hpost)]].
      * left. split; [exact Heq|]. constructor; assumption.
      * right. split; [exact Hlt|].
        exists (c :: pre), post. rewrite Hsplit at 1. repeat split.
        -- constructor; [|exact Hpre]. now apply Qle_lt_trans with (score start).
        -- exact Hpost.
Qed.

Lemma selectBest_first_max (first : Candidate) (rest : list Candidate) :
  first_max (selectBest (first :: rest)) (first :: rest).
Proof.
  unfold selectBest. cbn [hd fold_left].
  destruct (keep_better_cases first first) as [[_ Hcmp]|[-> _]];
    [now apply Qlt_irrefl in Hcmp|].
  destruct (fold_keep_better rest first)
    as [[Heq Hall]|[Hlt (pre & post & Hsplit & Hpre & Hpost)]].
  - rewrite Heq. exists [], rest. repeat split; [constructor|exact Hall].
  - exists (first :: pre), post. rewrite Hsplit at 1. repeat split.
    + constructor; assumption.
    + exact Hpost.
Qed.

End Selection.

(** ** The predictor *)

Lemma at_index_last {A : Type} (arr : list A) :
  arr = [] \/ exists x, at_index arr (len arr - 1) = Some x.
Proof.
  destruct arr as [|a arr]; [now left|right].
  unfold at_index, len. cbn [List.length].
  destruct (Z.ltb_spec (Z.of_nat (S (List.length arr)) - 1) 0); [lia|].
  apply lookup_lt_is_Some. cbn [List.length]. lia.
Qed.

Lemma at_index_nil {A : Type} (i : Z) : at_index (@nil A) i = None.
Proof. unfold at_index. now destruct (i <? 0). Qed.

(** The three ways a call of [predictNextMove] can end. *)
Lemma predictNextMove_cases (pattern : PlayerPattern)
    (apiKey : option string) (w : World) :
  (totalMoves pattern < 2
   /\ predictNextMove pattern apiKey w = Returns coldStart)
  \/ (2 <= totalMoves pattern /\ lastMoves pattern = []
      /\ predictNextMove pattern apiKey w = Throws TypeError)
  \/ (2 <= totalMoves pattern
      /\ exists lastMove text,
          at_index (lastMoves pattern) (len (lastMoves pattern) - 1)
          = Some lastMove
          /\ let best :=
               selectBest (predictions pattern lastMove (Math_random w)) in
             predictNextMove pattern apiKey w
             = Returns {| prediction := cand_choice best;
                          confidence :=
                            Z.min (Math_round (score best * 100)) 85;
                          reasoning := text;
                          patternType := type best |}).
Proof.
  unfold predictNextMove.
  destruct (Z.ltb_spec (totalMoves pattern) 2) as [Hcold|Hcold].
  - left. split; [lia|reflexivity].
  - right.
    destruct (at_index_last (lastMoves pattern)) as [Hnil|[lastMove Hlast]].
    + left. rewrite Hnil, at_index_nil. repeat split. lia.
    + right. split; [lia|]. rewrite Hlast. exists lastMove.
      destruct (getGeminiModel apiKey w) as [model|e];
        [|eexists; split; reflexivity].
      destruct (generateContent w model _) as [e|text];
        eexists; split; reflexivity.
Qed.

Lemma predictNextMove_cold (pattern : PlayerPattern)
    (apiKey : option string) (w : World) :
  totalMoves pattern < 2 ->
  predictNextMove pattern apiKey w = Returns coldStart.
Proof.
  intros Hfew. unfold predictNextMove.
  destruct (Z.ltb_spec (totalMoves pattern) 2); [reflexivity|lia].
Qed.

(** C1: with fewer than two moves on record (none at all included) the
    prediction is the fixed opening guess, whatever else the pattern
    holds. *)
Theorem cold_start_prediction (pattern : PlayerPattern)
    (apiKey : option string) (w : World) :
  totalMoves pattern < 2 ->
  predictNextMove pattern apiKey w
  = Returns
      {| prediction := rock;
         confidence := 35;
         reasoning :=
           "Most players start with rock. It's a classic opening move!";
         patternType := "psychological" |}.
Proof. exact (predictNextMove_cold pattern apiKey w). Qed.

(** C3: the confidence of a returned analysis is 35 on the cold-start path
    and otherwise [round (100 * winning score)] cut off at 85; in both cases
    it is at most 85.  The call returns unless the pattern claims two or
    more moves and has an empty [lastMoves]. *)
Theorem confidence_at_most_85 (pattern : PlayerPattern)
    (apiKey : option string) (w : World) :
  match predictNextMove pattern apiKey w with
  | Returns analysis =>
      confidence analysis <= 85
      /\ if totalMoves pattern <? 2 then confidence analysis = 35
         else exists lastMove,
             at_index (lastMoves pattern) (len (lastMoves pattern) - 1)
             = Some lastMove
             /\ let best :=
                  selectBest
                    (predictions pattern lastMove (Math_random w)) in
                confidence analysis
                = Z.min (Math_round (score best * 100)) 85
  | Throws _ => 2 <= totalMoves pattern /\ lastMoves pattern = []
  end.
Proof.
  destruct (predictNextMove_cases pattern apiKey w)
    as [[Hcold ->]|[(Hwarm & Hnil & ->)|(Hwarm & lastMove & text & Hlast & ->)]].
  - split; [simpl; lia|].
    destruct (Z.ltb_spec (totalMoves pattern) 2); [reflexivity|lia].
  - split; assumption.
  - split; [simpl; lia|].
    destruct (Z.ltb_spec (totalMoves pattern) 2); [lia|].
    exists lastMove. split; [exact Hlast|reflexivity].
Qed.

(** C8: with two or more moves on record the returned prediction, tag and
    confidence are those of the candidate at the first position of highest
    score in the list the five strategies produce, in the order frequency,
    transition, meta, win-stay, rotation. *)
Theorem best_is_first_highest (pattern : PlayerPattern)
    (apiKey : option string) (w : World) :
  2 <= totalMoves pattern ->
  match predictNextMove pattern apiKey w with
  | Returns analysis =>
      exists lastMove best,
        at_index (lastMoves pattern) (len (lastMoves pattern) - 1)
        = Some lastMove
        /\ first_max best
             (frequencyStrategy pattern
              ++ transitionStrategy pattern lastMove
              ++ metaStrategy pattern
              ++ winStayStrategy pattern (Math_random w)
              ++ rotationStrategy pattern)
        /\ prediction analysis = cand_choice best
        /\ patternType analysis = type best
        /\ confidence analysis = Z.min (Math_round (score best * 100)) 85
  | Throws _ => lastMoves pattern = []
  end.
Proof.
  intros Hwarm.
  destruct (predictNextMove_cases pattern apiKey w)
    as [[Hcold _]|[(_ & Hnil & ->)|(_ & lastMove & text & Hlast & ->)]].
  - lia.
  - exact Hnil.
  - exists lastMove, (selectBest (predictions pattern lastMove (Math_random w))).
    split; [exact Hlast|]. split; [|repeat split].
    unfold predictions at 1. unfold frequencyStrategy at 1.
    cbn [app]. apply selectBest_first_max.
Qed.

(** ** The rationale step *)

Lemma first_max_In (best : Candidate) (preds : list Candidate) :
  first_max best preds -> In best preds.
Proof.
  intros (pre & post & -> & _). apply in_or_app. right. now left.
Qed.

Lemma selectBest_In (preds : list Candidate) :
  preds <> [] -> In (selectBest preds) preds.
Proof.
  destruct preds as [|first rest]; [congruence|intros _].
  apply first_max_In, selectBest_first_max.
Qed.

Lemma predictions_nonempty (pattern : PlayerPattern) (lastMove : GameChoice)
    (random : Q) :
  predictions pattern lastMove random <> [].
Proof. unfold predictions, frequencyStrategy. discriminate. Qed.

Lemma predictions_tags (pattern : PlayerPattern) (lastMove : GameChoice)
    (random : Q) (c : Candidate) :
  In c (predictions pattern lastMove random) -> In (type c) strategy_tags.
Proof.
  unfold predictions. rewrite !in_app_iff.
  intros [Hin|[Hin|[Hin|[Hin|Hin]]]].
  - unfold frequencyStrategy in Hin.
    destruct Hin as [<-|[]]. simpl. tauto.
  - unfold transitionStrategy in Hin.
    destruct (0 <? _); [|destruct Hin].
    destruct (fold_left _ GAME_CHOICES _) as [maxTransition choice].
    destruct Hin as [<-|[]]. simpl. tauto.
  - unfold metaStrategy in Hin.
    destruct (70 <? _); [|destruct Hin].
    destruct Hin as [<-|[]]. simpl. tauto.
  - unfold winStayStrategy in Hin.
    destruct (2 <=? _); [|destruct Hin].
    destruct (at_index _ _) as [lastPlayerMove|]; [|destruct Hin].
    destruct (at_index _ _) as [secondLastMove|]; [|destruct Hin].
    destruct (decide _); [|destruct Hin].
    destruct (at_index _ _) as [switchPrediction|]; [|destruct Hin].
    destruct Hin as [<-|[]]. simpl. tauto.
  - unfold rotationStrategy in Hin.
    destruct (3 <=? _); [|destruct Hin].
    destruct (slice_last 3 _) as [|s0 [|s1 [|s2 [|s3 rest]]]];
      try destruct Hin.
    destruct (_ && _); [destruct Hin as [<-|[]]; simpl; tauto|].
    destruct (_ && _); [destruct Hin as [<-|[]]; simpl; tauto|].
    destruct Hin.
Qed.

(** Each strategy tag has its own template, and the template is not
    empty. *)
Lemma fallback_template (tag : string) (prediction lastMove : GameChoice) :
  In tag strategy_tags ->
  table_lookup tag (fallbackReasons prediction lastMove)
  = Some (fallbackReasoning tag prediction lastMove)
  /\ fallbackReasoning tag prediction lastMove <> "".
Proof.
  intros [<-|[<-|[<-|[<-|[]]]]]; split; try reflexivity; discriminate.
Qed.

(** When the rationale step fails, the [catch] branch answers. *)
Lemma predictNextMove_fallback (pattern : PlayerPattern)
    (apiKey : option string) (w : World) (lastMove : GameChoice) :
  rationale_fails apiKey w ->
  2 <= totalMoves pattern ->
  at_index (lastMoves pattern) (len (lastMoves pattern) - 1) = Some lastMove ->
  let best := selectBest (predictions pattern lastMove (Math_random w)) in
  predictNextMove pattern apiKey w
  = Returns {| prediction := cand_choice best;
               confidence := Z.min (Math_round (score best * 100)) 85;
               reasoning :=
                 fallbackReasoning (type best) (cand_choice best) lastMove;
               patternType := type best |}.
Proof.
  intros Hfails Hwarm Hlast. unfold predictNextMove.
  destruct (Z.ltb_spec (totalMoves pattern) 2); [lia|].
  rewrite Hlast. unfold rationale_fails in Hfails.
  destruct (getGeminiModel apiKey w) as [model|e]; [|reflexivity].
  match goal with
  | |- context [generateContent w model ?prompt] =>
      destruct (Hfails prompt) as [e ->]
  end.
  reflexivity.
Qed.

(** C4: when the rationale step fails (no API key, or the text service
    fails), [predictNextMove] still returns whenever it returns in any other
    world; prediction, confidence and pattern type are those every world with
    the same random draw gets; and past the cold start the reasoning is the
    template of the winning candidate's tag, which is never empty.  A throw
    does not depend on the key or the service. *)
Theorem rationale_failure_falls_back (pattern : PlayerPattern)
    (apiKey : option string) (w : World) :
  rationale_fails apiKey w ->
  match predictNextMove pattern apiKey w with
  | Returns analysis =>
      (forall apiKey' w' analysis',
          Math_random w' = Math_random w ->
          predictNextMove pattern apiKey' w' = Returns analysis' ->
          prediction analysis' = prediction analysis
          /\ confidence analysis' = confidence analysis
          /\ patternType analysis' = patternType analysis)
      /\ (2 <= totalMoves pattern ->
          exists lastMove,
            at_index (lastMoves pattern) (len (lastMoves pattern) - 1)
            = Some lastMove
            /\ table_lookup (patternType analysis)
                 (fallbackReasons (prediction analysis) lastMove)
               = Some (reasoning analysis)
            /\ reasoning analysis
               = fallbackReasoning (patternType analysis)
                   (prediction analysis) lastMove
            /\ reasoning analysis <> "")
  | Throws e =>
      forall apiKey' w', predictNextMove pattern apiKey' w' = Throws e
  end.
Proof.
  intros Hfails.
  destruct (predictNextMove_cases pattern apiKey w)
    as [[Hcold Hrun]|[(Hwarm & Hnil & Hrun)|(Hwarm & lastMove & text & Hlast & _)]].
  - rewrite Hrun. split; [|lia].
    intros apiKey' w' analysis' _ Hrun'.
    rewrite (predictNextMove_cold pattern apiKey' w' Hcold) in Hrun'.
    injection Hrun' as <-. repeat split.
  - rewrite Hrun. intros apiKey' w'.
    destruct (predictNextMove_cases pattern apiKey' w')
      as [[Hcold _]|[(_ & _ & Hrun')|(_ & lastMove & _ & Hlast & _)]].
    + lia.
    + exact Hrun'.
    + rewrite Hnil, at_index_nil in Hlast. discriminate.
  - rewrite (predictNextMove_fallback pattern apiKey w lastMove Hfails Hwarm Hlast).
    cbn [prediction confidence reasoning patternType]. split.
    + intros apiKey' w' analysis' Hrandom Hrun'.
      destruct (predictNextMove_cases pattern apiKey' w')
        as [[Hcold _]|[(_ & Hnil & Hthrow)|(_ & lastMove' & text' & Hlast' & Hreturn)]].
      * lia.
      * rewrite Hthrow in Hrun'. discriminate.
      * rewrite Hreturn in Hrun'. injection Hrun' as <-.
        rewrite Hlast in Hlast'. injection Hlast' as <-.
        rewrite Hrandom. repeat split.
    + intros _. exists lastMove. split; [exact Hlast|].
      destruct (fallback_template
                  (type (selectBest
                           (predictions pattern lastMove (Math_random w))))
                  (cand_choice
                     (selectBest
                        (predictions pattern lastMove (Math_random w))))
                  lastMove) as [Hlookup Hnonempty].
      * eapply predictions_tags, selectBest_In, predictions_nonempty.
      * repeat split; assumption.
Qed.

(** ** The win-stay/lose-shift strategy *)

Lemma at_index_app_last2 {A : Type} (earlier : list A) (a b : A) :
  let arr := (earlier ++ [a; b])%list in
  2 <= len arr
  /\ at_index arr (len arr - 1) = Some b
  /\ at_index arr (len arr - 2) = Some a.
Proof.
  cbn zeta. unfold at_index, len. rewrite length_app. cbn [List.length].
  split; [lia|]. split.
  - destruct (Z.ltb_spec (Z.of_nat (List.length earlier + 2) - 1) 0); [lia|].
    replace (Z.to_nat (Z.of_nat (List.length earlier + 2) - 1))
      with (List.length earlier + 1)%nat by lia.
    rewrite lookup_app_r by lia.
    now replace (List.length earlier + 1 - List.length earlier)%nat
      with 1%nat by lia.
  - destruct (Z.ltb_spec (Z.of_nat (List.length earlier + 2) - 2) 0); [lia|].
    replace (Z.to_nat (Z.of_nat (List.length earlier + 2) - 2))
      with (List.length earlier + 0)%nat by lia.
    rewrite lookup_app_r by lia.
    now replace (List.length earlier + 0 - List.length earlier)%nat
      with 0%nat by lia.
Qed.

Lemma Qfloor_unique (x : Q) (z : Z) :
  (inject_Z z <= x)%Q -> (x < inject_Z (z + 1))%Q -> Qfloor x = z.
Proof.
  intros Hlow Hhigh.
  pose proof (Qfloor_resp_le _ _ Hlow) as Hfloor_low.
  rewrite Qfloor_Z in Hfloor_low.
  pose proof (Qfloor_le x) as Hfloor_le.
  assert (Qfloor x < z + 1) as Hfloor_high.
  { rewrite Zlt_Qlt. now apply Qle_lt_trans with x. }
  lia.
Qed.

(** [Math.floor(Math.random() * 2)] is 0 on the lower half of [0, 1) and 1
    on the upper half. *)
Lemma floor_random_times_2 (random : Q) :
  (0 <= random)%Q -> (random < 1)%Q ->
  ((random < 1 # 2)%Q -> Qfloor (random * inject_Z 2) = 0)
  /\ ((1 # 2 <= random)%Q -> Qfloor (random * inject_Z 2) = 1).
Proof.
  intros Hlow Hhigh. split; intros Hhalf; apply Qfloor_unique.
  - unfold Qle, inject_Z in *. simpl in *. lia.
  - unfold Qlt, Qmult, inject_Z in *. simpl in *. lia.
  - unfold Qle, Qmult, inject_Z in *. simpl in *. lia.
  - unfold Qlt, Qmult, inject_Z in *. simpl in *. lia.
Qed.

(** A point [k / m] of the grid lies in [0, 1), and in the lower half
    exactly when [k] is in the lower half of the indices. *)
Lemma grid_point (n k : nat) :
  (k < 2 * n)%nat ->
  let random := Z.of_nat k # Pos.of_nat (2 * n) in
  (0 <= random)%Q /\ (random < 1)%Q
  /\ ((k < n)%nat -> (random < 1 # 2)%Q)
  /\ ((n <= k)%nat -> (1 # 2 <= random)%Q).
Proof.
  intros Hk. cbn zeta.
  assert (Z.pos (Pos.of_nat (2 * n)) = Z.of_nat (2 * n)) as Hden.
  { rewrite <- positive_nat_Z, Nat2Pos.id by lia. reflexivity. }
  unfold Qle, Qlt. cbn [Qnum Qden]. rewrite Hden.
  repeat split; intros; lia.
Qed.

Lemma filter_map_length {A B : Type} (f : B -> bool) (g : A -> B)
    (l : list A) :
  List.length (List.filter f (map g l))
  = List.length (List.filter (fun a => f (g a)) l).
Proof.
  induction l as [|a l IH]; [reflexivity|].
  cbn [map List.filter]. destruct (f (g a)); cbn [List.length]; now rewrite IH.
Qed.

Lemma filter_seq_below (n m : nat) :
  List.length (List.filter (fun k => (k <? n)%nat) (seq 0 m)) = Nat.min n m.
Proof.
  induction m as [|m IH]; [now rewrite Nat.min_0_r|].
  rewrite seq_S, List.filter_app, length_app, IH. cbn [List.filter Nat.add].
  destruct (Nat.ltb_spec m n); cbn [List.length]; lia.
Qed.

Lemma filter_seq_from (n m : nat) :
  List.length (List.filter (fun k => (n <=? k)%nat) (seq 0 m)) = (m - n)%nat.
Proof.
  induction m as [|m IH]; [reflexivity|].
  rewrite seq_S, List.filter_app, length_app, IH. cbn [List.filter Nat.add].
  destruct (Nat.leb_spec n m); cbn [List.length]; lia.
Qed.

(** A strategy that proposes [first] on the lower half of [0, 1) and
    [second] on the upper half proposes each of them at half of the points
    of every even grid. *)
Lemma draws_on_grid (pattern : PlayerPattern) (first second : GameChoice)
    (n : nat) :
  first <> second ->
  (forall random,
      (0 <= random)%Q -> (random < 1)%Q ->
      ((random < 1 # 2)%Q ->
       map cand_choice (winStayStrategy pattern random) = [first])
      /\ ((1 # 2 <= random)%Q ->
          map cand_choice (winStayStrategy pattern random) = [second])) ->
  draws pattern first (grid (2 * n)) = n
  /\ draws pattern second (grid (2 * n)) = n.
Proof.
  intros Hdiffer Hdraw. unfold draws, grid. rewrite !filter_map_length.
  split.
  - rewrite (List.filter_ext_in _ (fun k => (k <? n)%nat)).
    + rewrite filter_seq_below. lia.
    + intros k Hin. apply in_seq in Hin.
      destruct (grid_point n k) as (Hlow & Hhigh & Hlower & Hupper); [lia|].
      destruct (Hdraw _ Hlow Hhigh) as [Hfirst Hsecond].
      destruct (Nat.ltb_spec k n) as [Hlt|Hge].
      * rewrite (Hfirst (Hlower Hlt)). now apply bool_decide_eq_true_2.
      * rewrite (Hsecond (Hupper Hge)). apply bool_decide_eq_false_2.
        congruence.
  - rewrite (List.filter_ext_in _ (fun k => (n <=? k)%nat)).
    + rewrite filter_seq_from. lia.
    + intros k Hin. apply in_seq in Hin.
      destruct (grid_point n k) as (Hlow & Hhigh & Hlower & Hupper); [lia|].
      destruct (Hdraw _ Hlow Hhigh) as [Hfirst Hsecond].
      destruct (Nat.leb_spec n k) as [Hge|Hlt].
      * rewrite (Hsecond (Hupper Hge)). now apply bool_decide_eq_true_2.
      * rewrite (Hfirst (Hlower Hlt)). apply bool_decide_eq_false_2.
        congruence.
Qed.

(** C7: when the last two entries of [lastMoves] are the same symbol, the
    win-stay/lose-shift strategy contributes one candidate, tagged
    psychological with score 0.35, drawn from the two other symbols.  The
    two alternatives [first] and [second] are fixed by the repeated symbol
    alone (they are the other two symbols in the order rock, paper,
    scissors); the random number then decides between them: every number of
    the lower half of [0, 1) gives [first], every number of the upper half
    gives [second].  The draw is uniform: the two halves have the same
    length, and on every grid of [2 n] equally spaced random numbers exactly
    [n] draws give [first] and [n] give [second].  Equal random numbers give
    equal draws.  When the last two entries differ the strategy contributes
    nothing, whatever the random number. *)
Theorem winStay_draws_other_symbol (pattern : PlayerPattern)
    (earlier : list GameChoice) (secondLast last : GameChoice) :
  lastMoves pattern = (earlier ++ [secondLast; last])%list ->
  (secondLast = last ->
   exists first second,
     (forall c, c <> last <-> c = first \/ c = second)
     /\ rank first < rank second
     /\ (forall random,
            (0 <= random)%Q -> (random < 1)%Q ->
            ((random < 1 # 2)%Q ->
             winStayStrategy pattern random
             = [ {| cand_choice := first; score := 35 # 100;
                    type := "psychological" |} ])
            /\ ((1 # 2 <= random)%Q ->
                winStayStrategy pattern random
                = [ {| cand_choice := second; score := 35 # 100;
                       type := "psychological" |} ]))
     /\ (forall n,
            draws pattern first (grid (2 * n)) = n
            /\ draws pattern second (grid (2 * n)) = n))
  /\ (secondLast <> last ->
      forall random, winStayStrategy pattern random = [])
  /\ (forall random random',
         (random' == random)%Q ->
         winStayStrategy pattern random' = winStayStrategy pattern random).
Proof.
  intros Hmoves.
  destruct (at_index_app_last2 earlier secondLast last)
    as (Hlen & Hlast & Hsecond).
  cbn zeta in Hlast, Hsecond. rewrite <- Hmoves in Hlen, Hlast, Hsecond.
  split; [|split].
  - intros ->.
    assert (forall first second,
               List.filter (fun c => negb (bool_decide (c = last)))
                 GAME_CHOICES = [first; second] ->
               forall random,
                 (0 <= random)%Q -> (random < 1)%Q ->
                 ((random < 1 # 2)%Q ->
                  winStayStrategy pattern random
                  = [ {| cand_choice := first; score := 35 # 100;
                         type := "psychological" |} ])
                 /\ ((1 # 2 <= random)%Q ->
                     winStayStrategy pattern random
                     = [ {| cand_choice := second; score := 35 # 100;
                            type := "psychological" |} ])) as Hdraw.
    { intros first second Halternatives random Hlow Hhigh.
      destruct (floor_random_times_2 random Hlow Hhigh) as [Hlower Hupper].
      unfold winStayStrategy. rewrite Hlast, Hsecond.
      destruct (Z.leb_spec 2 (len (lastMoves pattern))); [|lia].
      destruct (decide (last = last)); [|congruence].
      rewrite Halternatives.
      change (len [first; second]) with 2.
      split; intros Hhalf.
      - now rewrite (Hlower Hhalf).
      - now rewrite (Hupper Hhalf). }
    assert (forall first second,
               first <> second ->
               List.filter (fun c => negb (bool_decide (c = last)))
                 GAME_CHOICES = [first; second] ->
               forall n,
                 draws pattern first (grid (2 * n)) = n
                 /\ draws pattern second (grid (2 * n)) = n) as Hcount.
    { intros first second Hdiffer Halternatives n.
      apply draws_on_grid; [exact Hdiffer|].
      intros random Hlow Hhigh.
      destruct (Hdraw first second Halternatives random Hlow Hhigh)
        as [Hlower Hupper].
      split; intros Hhalf;
        [rewrite (Hlower Hhalf)|rewrite (Hupper Hhalf)]; reflexivity. }
    destruct last.
    + exists paper, scissors. split; [|split; [|split]].
      * intros c. destruct c; split; try tauto; try congruence;
          intros [Heq|Heq]; discriminate.
      * cbn. lia.
      * exact (Hdraw paper scissors eq_refl).
      * apply (Hcount paper scissors); [discriminate|reflexivity].
    + exists rock, scissors. split; [|split; [|split]].
      * intros c. destruct c; split; try tauto; try congruence;
          intros [Heq|Heq]; discriminate.
      * cbn. lia.
      * exact (Hdraw rock scissors eq_refl).
      * apply (Hcount rock scissors); [discriminate|reflexivity].
    + exists rock, paper. split; [|split; [|split]].
      * intros c. destruct c; split; try tauto; try congruence;
          intros [Heq|Heq]; discriminate.
      * cbn. lia.
      * exact (Hdraw rock paper eq_refl).
      * apply (Hcount rock paper); [discriminate|reflexivity].
  - intros Hdiffer random. unfold winStayStrategy. rewrite Hlast, Hsecond.
    destruct (2 <=? len (lastMoves pattern)); [|reflexivity].
    destruct (decide (last = secondLast)); [congruence|reflexivity].
  - intros random random' Hsame. unfold winStayStrategy.
    destruct (2 <=? len (lastMoves pattern)); [|reflexivity].
    rewrite Hlast, Hsecond.
    destruct (decide (last = secondLast)); [|reflexivity].
    match goal with
    | |- context [inject_Z ?n] =>
        rewrite (Qfloor_comp (random' * inject_Z n) (random * inject_Z n))
          by (now rewrite Hsame)
    end.
    reflexivity.
Qed.

(** ** The rotation history *)

(** C2: for a history whose choices are rock, paper, scissors, rock, paper,
    scissors, the rotation strategy contributes the candidate rock with
    score 0.6; the other candidates produced for that history (frequency
    0.3, transition 0.5, meta 0.4) all score strictly less; and the
    prediction returned is rock with confidence 60 (tag sequential). *)
Theorem rotation_history_predicts_rock (history : list GameMove)
    (apiKey : option string) (w : World) :
  map choice history = [rock; paper; scissors; rock; paper; scissors] ->
  let pattern := analyzePattern history in
  let rotation :=
    {| cand_choice := rock; score := 6 # 10; type := "sequential" |} in
  let others :=
    [ {| cand_choice := rock; score := 3 # 10; type := "frequency" |};
      {| cand_choice := rock; score := 1 # 2; type := "sequential" |};
      {| cand_choice := rock; score := 4 # 10; type := "meta" |} ] in
  rotationStrategy pattern = [rotation]
  /\ predictions pattern scissors (Math_random w)
     = (others ++ [rotation])%list
  /\ Forall (fun c => (score c < score rotation)%Q) others
  /\ exists text,
      predictNextMove pattern apiKey w
      = Returns {| prediction := rock; confidence := 60;
                   reasoning := text; patternType := "sequential" |}.
Proof.
  intros Hchoices. cbn zeta.
  assert (totalMoves (analyzePattern history) = 6) as Htotal.
  { cbn [analyzePattern set_randomnessScore initialPattern totalMoves].
    now rewrite <- (len_map choice), Hchoices. }
  assert (lastMoves (analyzePattern history)
          = [rock; paper; scissors; rock; paper; scissors]) as Hlast.
  { cbn [analyzePattern set_randomnessScore initialPattern lastMoves].
    now rewrite Hchoices. }
  assert (frequencies (analyzePattern history) = mkPerChoice 2 2 2) as Hfreq.
  { cbn [analyzePattern set_randomnessScore initialPattern frequencies].
    now rewrite Hchoices. }
  assert (get scissors (transitions (analyzePattern history))
          = mkPerChoice 1 0 0) as Htrans.
  { cbn [analyzePattern set_randomnessScore initialPattern transitions].
    now rewrite Hchoices. }
  assert (rotationStrategy (analyzePattern history)
          = [ {| cand_choice := rock; score := 6 # 10;
                 type := "sequential" |} ]) as Hrotation.
  { unfold rotationStrategy. now rewrite Hlast. }
  assert (winStayStrategy (analyzePattern history) (Math_random w) = [])
    as HwinStay.
  { unfold winStayStrategy. now rewrite Hlast. }
  assert (frequencyStrategy (analyzePattern history)
          = [ {| cand_choice := rock; score := 3 # 10;
                 type := "frequency" |} ]) as Hfrequency.
  { unfold frequencyStrategy. now rewrite Hfreq. }
  assert (transitionStrategy (analyzePattern history) scissors
          = [ {| cand_choice := rock; score := (1 * (1 # 2))%Q;
                 type := "sequential" |} ]) as Htransition.
  { unfold transitionStrategy. rewrite Htrans. reflexivity. }
  assert (metaStrategy (analyzePattern history)
          = [ {| cand_choice := rock; score := 4 # 10; type := "meta" |} ])
    as Hmeta.
  { unfold metaStrategy. rewrite Hfreq, randomness_balanced.
    - reflexivity.
    - exact Hfreq.
    - exact Htotal. }
  split; [exact Hrotation|].
  assert (predictions (analyzePattern history) scissors (Math_random w)
          = [ {| cand_choice := rock; score := 3 # 10; type := "frequency" |};
              {| cand_choice := rock; score := 1 # 2; type := "sequential" |};
              {| cand_choice := rock; score := 4 # 10; type := "meta" |};
              {| cand_choice := rock; score := 6 # 10;
                 type := "sequential" |} ]) as Hpredictions.
  { unfold predictions.
    now rewrite Hfrequency, Htransition, Hmeta, HwinStay, Hrotation. }
  split; [exact Hpredictions|].
  split; [repeat constructor|].
  destruct (predictNextMove_cases (analyzePattern history) apiKey w)
    as [[Hcold _]|[(_ & Hnil & _)|(_ & lastMove & text & Hlast' & Hrun)]].
  - lia.
  - rewrite Hlast in Hnil. discriminate.
  - rewrite Hlast in Hlast'. injection Hlast' as <-.
    cbn zeta in Hrun. rewrite Hpredictions in Hrun.
    exists text. exact Hrun.
Qed.

(** ** The pattern hash *)

(** C9: the pattern hash depends only on the last five entries of
    [lastMoves] and on [totalMoves]: two patterns that agree on these get
    the same hash, whatever their other fields and older entries are. *)
Theorem patternHash_of_tail_and_count (p q : PlayerPattern) :
  slice_last 5 (lastMoves p) = slice_last 5 (lastMoves q) ->
  totalMoves p = totalMoves q ->
  generatePatternHash p = generatePatternHash q.
Proof.
  intros Htail Hcount. unfold generatePatternHash.
  now rewrite Htail, Hcount.
Qed.

(** ** The rational scores against double precision *)

(** On every score literal, and on every transition score built from counts
    up to 40, binary64 arithmetic orders the scores and rounds the winning
    confidence exactly as the rational model does. *)
Lemma Binary64_scores_agree : Binary64.agree_up_to 40 = true.
Proof. vm_compute. reflexivity. Qed.

(** [Math.round(0.6 * 100)] on doubles is 60. *)
Example Binary64_rotation_confidence :
  Math_round
    (Binary64.to_Q
       (Binary64.mul (Binary64.of_ratio 6 10) (Binary64.of_Z 100))) = 60.
Proof. vm_compute. reflexivity. Qed.

(** ** Worked examples *)

(** The test vectors of RFC 4648 for the base64 encoding. *)
Example base64_rfc4648 :
  map base64 ["f"; "fo"; "foo"; "foob"; "fooba"; "foobar"]
  = ["Zg=="; "Zm8="; "Zm9v"; "Zm9vYg=="; "Zm9vYmE="; "Zm9vYmFy"].
Proof. vm_compute. reflexivity. Qed.

(** The key of [tail_pattern_a] is [paperscissorsrockpaperscissors-7]. *)
Example patternHash_example :
  generatePatternHash tail_pattern_a
  = "cGFwZXJzY2lzc29yc3JvY2twYXBlcnNjaXNzb3JzLTc=".
Proof. vm_compute. reflexivity. Qed.

(** Counts, transitions and longest streaks of rock, rock, paper, paper,
    paper, rock. *)
Example statistics_example :
  let pattern :=
    initialPattern
      (map sample_move [rock; rock; paper; paper; paper; rock]) in
  frequencies pattern = mkPerChoice 3 3 0
  /\ transitions pattern
     = mkPerChoice (mkPerChoice 1 1 0) (mkPerChoice 1 2 0) (mkPerChoice 0 0 0)
  /\ streaks pattern = mkPerChoice 2 3 0
  /\ lastMoves pattern = [rock; rock; paper; paper; paper; rock]
  /\ winRate pattern = (3 # 6)%Q.
Proof. vm_compute. repeat split. Qed.

(** After paper, rock, rock the transition candidate (rock follows rock,
    score 0.5) beats the win-stay candidate (0.35), whichever symbol was
    drawn. *)
Example repeat_example :
  predictions repeat_pattern rock (3 # 4)
  = [ {| cand_choice := rock; score := 3 # 10; type := "frequency" |};
      {| cand_choice := rock; score := 1 * (1 # 2); type := "sequential" |};
      {| cand_choice := scissors; score := 35 # 100;
         type := "psychological" |} ]
  /\ predictNextMove repeat_pattern None no_key_world
     = Returns {| prediction := rock; confidence := 50;
                  reasoning := "Following your pattern, rock comes next.";
                  patternType := "sequential" |}.
Proof. split; reflexivity. Qed.

(** A pattern that claims moves but has no recency window makes
    [predictNextMove] throw, with or without a key. *)
Example empty_window_throws :
  predictNextMove
    {| frequencies := mkPerChoice 1 1 0;
       transitions := mkPerChoice zeroes zeroes zeroes;
       streaks := mkPerChoice 1 1 0;
       totalMoves := 2;
       lastMoves := [];
       winRate := 0;
       randomnessScore := 63 |}
    (Some "key") service_down_world
  = Throws TypeError.
Proof. reflexivity. Qed.

(** The AI wins the round it predicted. *)
Example processMove_example :
  match GameManager.processMove "g1" "alice" paper paper 35 1000
          sample_manager with
  | Returns (move, m) =>
      aiChoice move = scissors /\ correct move = true /\ winner move = ai
      /\ (aiScore <$> GameManager.games m !! "g1") = Some 1
  | Throws _ => False
  end.
Proof. vm_compute. repeat split. Qed.

(** ** The properties on the sample data *)

Lemma cold_start_prediction_witness :
  predictNextMove (analyzePattern [sample_move paper]) None no_key_world
  = Returns
      {| prediction := rock;
         confidence := 35;
         reasoning :=
           "Most players start with rock. It's a classic opening move!";
         patternType := "psychological" |}.
Proof.
  apply (cold_start_prediction (analyzePattern [sample_move paper]) None
           no_key_world).
  reflexivity.
Defined.

Lemma rotation_history_predicts_rock_witness :
  exists text,
    predictNextMove (analyzePattern rotation_history) None no_key_world
    = Returns {| prediction := rock; confidence := 60;
                 reasoning := text; patternType := "sequential" |}.
Proof.
  apply (rotation_history_predicts_rock rotation_history None no_key_world).
  reflexivity.
Defined.

Lemma rationale_failure_falls_back_witness :
  rationale_fails None service_down_world
  /\ match predictNextMove rotation_pattern None service_down_world with
     | Returns analysis => reasoning analysis <> ""
     | Throws _ => False
     end.
Proof.
  assert (rationale_fails None service_down_world) as Hfails.
  { intros prompt. exists (Error "503"). reflexivity. }
  split; [exact Hfails|].
  pose proof (rationale_failure_falls_back rotation_pattern None
                service_down_world Hfails) as Hspec.
  destruct (predictNextMove rotation_pattern None service_down_world)
    as [analysis|e] eqn:Hrun.
  - destruct Hspec as [_ Htemplate].
    destruct Htemplate as (lastMove & _ & _ & _ & Hnonempty).
    + vm_compute. discriminate.
    + exact Hnonempty.
  - vm_compute in Hrun. discriminate.
Defined.

Lemma randomnessScore_range_witness :
  randomnessScore (analyzePattern [sample_move rock; sample_move rock]) = 0.
Proof.
  apply (randomnessScore_range [sample_move rock; sample_move rock]) with rock.
  - discriminate.
  - repeat constructor.
Defined.

Lemma winStay_draws_other_symbol_witness :
  winStayStrategy repeat_pattern (1 # 4)
  = [ {| cand_choice := paper; score := 35 # 100;
         type := "psychological" |} ]
  /\ winStayStrategy repeat_pattern (3 # 4)
     = [ {| cand_choice := scissors; score := 35 # 100;
            type := "psychological" |} ]
  /\ draws repeat_pattern paper (grid 10) = 5%nat
  /\ draws repeat_pattern scissors (grid 10) = 5%nat.
Proof.
  destruct (winStay_draws_other_symbol repeat_pattern [paper] rock rock)
    as [Hrepeat _].
  - reflexivity.
  - destruct (Hrepeat eq_refl)
      as (first & second & Hothers & Horder & Hdraw & Hcount).
    assert (first = paper /\ second = scissors) as [-> ->].
    { pose proof (proj2 (Hothers first) (or_introl eq_refl)) as Hfirst.
      pose proof (proj2 (Hothers second) (or_intror eq_refl)) as Hsecond.
      destruct first, second; try congruence; cbn in Horder;
        try lia; now split. }
    destruct (Hdraw (1 # 4)) as [Hlower _];
      [vm_compute; discriminate|reflexivity|].
    destruct (Hdraw (3 # 4)) as [_ Hupper];
      [vm_compute; discriminate|reflexivity|].
    split; [apply Hlower; reflexivity|].
    split; [apply Hupper; vm_compute; discriminate|].
    exact (Hcount 5%nat).
Defined.

Lemma best_is_first_highest_witness :
  match predictNextMove rotation_pattern None no_key_world with
  | Returns analysis =>
      exists best,
        first_max best (predictions rotation_pattern scissors (3 # 4))
        /\ prediction analysis = cand_choice best
  | Throws _ => False
  end.
Proof.
  pose proof (best_is_first_highest rotation_pattern None no_key_world)
    as Hspec.
  destruct (predictNextMove rotation_pattern None no_key_world)
    as [analysis|e] eqn:Hrun.
  - destruct Hspec as (lastMove & best & Hlast & Hfirst & Hprediction & _).
    + vm_compute. discriminate.
    + injection Hlast as <-. exists best. split; assumption.
  - vm_compute in Hrun. discriminate.
Defined.

Lemma patternHash_of_tail_and_count_witness :
  frequencies tail_pattern_a <> frequencies tail_pattern_b
  /\ lastMoves tail_pattern_a <> lastMoves tail_pattern_b
  /\ generatePatternHash tail_pattern_a = generatePatternHash tail_pattern_b.
Proof.
  split; [vm_compute; discriminate|].
  split; [vm_compute; discriminate|].
  apply (patternHash_of_tail_and_count tail_pattern_a tail_pattern_b);
    reflexivity.
Defined.

Lemma counterMove_beats_prediction_witness :
  exists move m',
    GameManager.processMove "g1" "alice" paper paper 35 1000 sample_manager
    = Returns (move, m')
    /\ correct move = true
    /\ winner move = ai.
Proof.
  destruct counterMove_beats_prediction as (_ & Hcorrect & Hreturns).
  destruct (Hreturns "g1" "alice" paper paper 35 1000 sample_manager
              sample_game) as (move & m' & Hrun & Hflag & _).
  - reflexivity.
  - reflexivity.
  - reflexivity.
  - exists move, m'. split; [exact Hrun|].
    assert (correct move = true) as Htrue by (now rewrite Hflag).
    split; [exact Htrue|].
    exact (Hcorrect _ _ _ _ _ _ _ _ _ Hrun Htrue).
Defined.

(** * Further properties *)

(** ** Statistics of [analyzePattern] *)

Lemma get_set_same {A : Type} (c : GameChoice) (v : A) (rec : PerChoice A) :
  get c (set c v rec) = v.
Proof. now destruct c. Qed.

Lemma get_set_other {A : Type} (c d : GameChoice) (v : A)
    (rec : PerChoice A) :
  c <> d -> get d (set c v rec) = get d rec.
Proof. destruct c, d; try reflexivity; congruence. Qed.

Lemma occurrences_cons (c x : GameChoice) (cs : list GameChoice) :
  occurrences c (x :: cs)
  = (if decide (x = c) then 1 else 0) + occurrences c cs.
Proof.
  unfold occurrences, len. cbn [List.filter].
  destruct (decide (x = c)) as [->|Hne].
  - rewrite bool_decide_eq_true_2 by reflexivity. cbn [List.length]. lia.
  - rewrite bool_decide_eq_false_2 by exact Hne. lia.
Qed.

Lemma occurrences_nonneg (c : GameChoice) (cs : list GameChoice) :
  0 <= occurrences c cs.
Proof. unfold occurrences, len. lia. Qed.

Lemma occurrences_pos_In (c : GameChoice) (cs : list GameChoice) :
  0 < occurrences c cs <-> In c cs.
Proof.
  induction cs as [|x cs IH].
  - unfold occurrences, len. cbn. split; [lia|tauto].
  - rewrite occurrences_cons. pose proof (occurrences_nonneg c cs).
    cbn [In]. destruct (decide (x = c)) as [->|Hne].
    + split; [tauto|lia].
    + split.
      * intros Hpos. right. apply IH. lia.
      * intros [Heq|Hin]; [congruence|]. apply IH in Hin. lia.
Qed.

Lemma frequencies_fold_occurrences (c : GameChoice)
    (moves : list GameChoice) (acc : PerChoice Z) :
  get c (fold_left
           (fun frequencies move =>
              set move (get move frequencies + 1) frequencies)
           moves acc)
  = get c acc + occurrences c moves.
Proof.
  revert acc. induction moves as [|move moves IH]; intros acc;
    cbn [fold_left].
  - unfold occurrences, len. cbn. lia.
  - rewrite IH, occurrences_cons.
    destruct (decide (move = c)) as [->|Hne].
    + rewrite get_set_same. lia.
    + rewrite get_set_other by exact Hne. lia.
Qed.

Lemma calculateFrequencies_occurrences (c : GameChoice)
    (cs : list GameChoice) :
  get c (calculateFrequencies cs) = occurrences c cs.
Proof.
  unfold calculateFrequencies. rewrite frequencies_fold_occurrences.
  now destruct c.
Qed.

(** X1: each frequency count of an analysed history is the number of moves
    of the history that chose that symbol. *)
Theorem frequencies_count_choices (history : list GameMove)
    (c : GameChoice) :
  get c (frequencies (analyzePattern history))
  = len (List.filter (fun move => bool_decide (choice move = c)) history).
Proof.
  change (frequencies (analyzePattern history))
    with (calculateFrequencies (map choice history)).
  rewrite calculateFrequencies_occurrences. unfold occurrences, len.
  f_equal. induction history as [|move history IH]; [reflexivity|].
  cbn [map List.filter].
  destruct (bool_decide (choice move = c)); cbn [List.length]; lia.
Qed.

Lemma sum3_set_row (from to : GameChoice) (a : GameChoice)
    (transitions : PerChoice (PerChoice Z)) :
  sum3 (get a (set from
                 (set to (get to (get from transitions) + 1)
                    (get from transitions)) transitions))
  = sum3 (get a transitions) + (if decide (from = a) then 1 else 0).
Proof.
  destruct (decide (from = a)) as [->|Hne].
  - rewrite get_set_same, sum3_set_incr. reflexivity.
  - rewrite get_set_other by exact Hne. lia.
Qed.

Lemma cell_set_row (from to : GameChoice) (a b : GameChoice)
    (transitions : PerChoice (PerChoice Z)) :
  get b (get a (set from
                  (set to (get to (get from transitions) + 1)
                     (get from transitions)) transitions))
  = get b (get a transitions)
    + (if bool_decide (from = a) && bool_decide (to = b) then 1 else 0).
Proof.
  destruct (decide (from = a)) as [->|Hne].
  - rewrite get_set_same, bool_decide_eq_true_2 by reflexivity.
    destruct (decide (to = b)) as [->|Hne].
    + rewrite get_set_same, bool_decide_eq_true_2 by reflexivity.
      reflexivity.
    + rewrite get_set_other, (bool_decide_eq_false_2 (to = b)) by exact Hne.
      cbn. lia.
  - rewrite get_set_other, (bool_decide_eq_false_2 (from = a)) by exact Hne.
    cbn. lia.
Qed.

Lemma transitions_loop_cell (a b : GameChoice) (cs : list GameChoice)
    (acc : PerChoice (PerChoice Z)) :
  get b (get a (calculateTransitions_loop cs acc))
  = get b (get a acc)
    + len (List.filter
             (fun '(x, y) => bool_decide (x = a) && bool_decide (y = b))
             (adjacent_pairs cs)).
Proof.
  revert acc. induction cs as [|from cs IH]; intros acc.
  - cbn. unfold len. cbn. lia.
  - destruct cs as [|to rest].
    + cbn. unfold len. cbn. lia.
    + change (calculateTransitions_loop (from :: to :: rest) acc)
        with (calculateTransitions_loop (to :: rest)
                (set from (set to (get to (get from acc) + 1)
                             (get from acc)) acc)).
      rewrite IH, cell_set_row.
      change (adjacent_pairs (from :: to :: rest))
        with ((from, to) :: adjacent_pairs (to :: rest)).
      cbn [List.filter].
      destruct (bool_decide (from = a) && bool_decide (to = b));
        unfold len; cbn [List.length]; lia.
Qed.

Lemma transitions_loop_row (a : GameChoice) (cs : list GameChoice)
    (acc : PerChoice (PerChoice Z)) :
  sum3 (get a (calculateTransitions_loop cs acc))
  = sum3 (get a acc) + occurrences a (removelast cs).
Proof.
  revert acc. induction cs as [|from cs IH]; intros acc.
  - cbn. unfold occurrences, len. cbn. lia.
  - destruct cs as [|to rest].
    + cbn. unfold occurrences, len. cbn. lia.
    + change (calculateTransitions_loop (from :: to :: rest) acc)
        with (calculateTransitions_loop (to :: rest)
                (set from (set to (get to (get from acc) + 1)
                             (get from acc)) acc)).
      rewrite IH, sum3_set_row.
      change (removelast (from :: to :: rest))
        with (from :: removelast (to :: rest)).
      rewrite occurrences_cons. lia.
Qed.

Lemma occurrences_removelast (a : GameChoice) (cs : list GameChoice) :
  occurrences a cs
  = occurrences a (removelast cs)
    + (if decide (last cs = Some a) then 1 else 0).
Proof.
  induction cs as [|x cs IH].
  - cbn [removelast last].
    destruct (decide (None = Some a)); [discriminate|].
    unfold occurrences, len. cbn. lia.
  - destruct cs as [|y rest].
    + cbn [removelast last]. rewrite occurrences_cons.
      unfold occurrences, len. cbn [List.filter List.length].
      destruct (decide (x = a)) as [->|Hne].
      * destruct (decide (Some a = Some a)); [lia|congruence].
      * destruct (decide (Some x = Some a)); [congruence|lia].
    + change (removelast (x :: y :: rest))
        with (x :: removelast (y :: rest)).
      change (last (x :: y :: rest)) with (last (y :: rest)).
      rewrite !occurrences_cons in *. lia.
Qed.

(** X2: the cell [transitions[a][b]] of an analysed history is the number of
    positions at which [a] is immediately followed by [b]. *)
Theorem transitions_count_adjacent_pairs (history : list GameMove)
    (a b : GameChoice) :
  get b (get a (transitions (analyzePattern history)))
  = len (List.filter
           (fun '(x, y) => bool_decide (x = a) && bool_decide (y = b))
           (adjacent_pairs (map choice history))).
Proof.
  change (transitions (analyzePattern history))
    with (calculateTransitions (map choice history)).
  unfold calculateTransitions. rewrite transitions_loop_cell.
  now destruct a, b.
Qed.

(** X3: the row of [a] in the transition table adds up to the number of
    times [a] was played before the last move, that is, to the frequency
    of [a] less one if [a] is the last move. *)
Theorem transition_row_sums (history : list GameMove) (a : GameChoice) :
  let pattern := analyzePattern history in
  let cs := map choice history in
  sum3 (get a (transitions pattern)) = occurrences a (removelast cs)
  /\ sum3 (get a (transitions pattern))
     = get a (frequencies pattern)
       - (if decide (last cs = Some a) then 1 else 0).
Proof.
  cbn zeta.
  change (transitions (analyzePattern history))
    with (calculateTransitions (map choice history)).
  change (frequencies (analyzePattern history))
    with (calculateFrequencies (map choice history)).
  unfold calculateTransitions.
  rewrite transitions_loop_row, calculateFrequencies_occurrences.
  replace (sum3 (get a (mkPerChoice zeroes zeroes zeroes))) with 0
    by (now destruct a).
  pose proof (occurrences_removelast a (map choice history)). lia.
Qed.

(** ** Streaks *)

Lemma leading_run_repeat (c : GameChoice) (n : nat)
    (post : list GameChoice) :
  (n <= leading_run c (repeat c n ++ post))%nat.
Proof.
  induction n as [|n IH]; cbn [repeat app leading_run]; [lia|].
  destruct (decide (c = c)); [lia|congruence].
Qed.

Lemma leading_run_split (c : GameChoice) (cs : list GameChoice) :
  exists post, cs = (repeat c (leading_run c cs) ++ post)%list.
Proof.
  induction cs as [|x cs [post IH]]; cbn [leading_run].
  - now exists [].
  - destruct (decide (x = c)) as [->|Hne].
    + exists post. cbn [repeat app]. now rewrite <- IH.
    + now exists (x :: cs).
Qed.

Lemma leading_le_longest (c : GameChoice) (cs : list GameChoice) :
  (leading_run c cs <= longest_run c cs)%nat.
Proof. destruct cs; cbn [longest_run leading_run]; lia. Qed.

(** A run of [n] symbols [c] occurs in [cs] exactly when [n] is at most
    [longest_run c cs]. *)
Lemma longest_run_spec (c : GameChoice) (cs : list GameChoice) (n : nat) :
  (exists pre post, cs = (pre ++ repeat c n ++ post)%list)
  <-> (n <= longest_run c cs)%nat.
Proof.
  split.
  - intros (pre & post & ->).
    induction pre as [|x pre IH].
    + cbn [app].
      pose proof (leading_run_repeat c n post).
      pose proof (leading_le_longest c (repeat c n ++ post)). lia.
    + cbn [app longest_run]. lia.
  - revert n. induction cs as [|x cs IH]; intros n Hn.
    + cbn in Hn. assert (n = 0%nat) as -> by lia. now exists [], [].
    + cbn [longest_run] in Hn.
      destruct (Nat.le_gt_cases n (leading_run c (x :: cs))) as [Hlead|Hlead].
      * destruct (leading_run_split c (x :: cs)) as [post Hsplit].
        exists [], (repeat c (leading_run c (x :: cs) - n) ++ post)%list.
        cbn [app]. rewrite app_assoc, <- repeat_app.
        now replace (n + (leading_run c (x :: cs) - n))%nat
          with (leading_run c (x :: cs)) by lia.
      * destruct (IH n) as (pre & post & ->); [lia|].
        now exists (x :: pre), post.
Qed.

Lemma last_default_irrelevant {A : Type} (x d d' : A) (l : list A) :
  List.last (x :: l) d = List.last (x :: l) d'.
Proof.
  revert x. induction l as [|y l IH]; intros x; [reflexivity|].
  change (List.last (x :: y :: l) d) with (List.last (y :: l) d).
  change (List.last (x :: y :: l) d') with (List.last (y :: l) d').
  apply IH.
Qed.

Lemma last_default_cons {A : Type} (x y d : A) (l : list A) :
  List.last (x :: y :: l) d = List.last (y :: l) y.
Proof.
  change (List.last (x :: y :: l) d) with (List.last (y :: l) d).
  apply last_default_irrelevant.
Qed.

Lemma streaks_from_cons (prev x : GameChoice) (rest : list GameChoice)
    (currentStreak : Z) (streaks : PerChoice Z) :
  streaks_from prev (x :: rest) currentStreak streaks
  = if decide (x = prev)
    then streaks_from x rest (currentStreak + 1) streaks
    else streaks_from x rest 1
           (if get prev streaks <? currentStreak
            then set prev currentStreak streaks
            else streaks).
Proof.
  unfold streaks_from. cbn [streaks_loop].
  rewrite (last_default_cons prev x prev rest).
  now destruct (decide (x = prev)).
Qed.

Lemma get_update_max (c prev : GameChoice) (v : Z) (streaks : PerChoice Z) :
  get c (if get prev streaks <? v then set prev v streaks else streaks)
  = if decide (c = prev) then Z.max (get c streaks) v else get c streaks.
Proof.
  destruct (Z.ltb_spec (get prev streaks) v) as [Hlt|Hge];
    destruct (decide (c = prev)) as [->|Hne].
  - rewrite get_set_same. lia.
  - now rewrite get_set_other by congruence.
  - lia.
  - reflexivity.
Qed.

Lemma streaks_from_spec (c prev : GameChoice) (rest : list GameChoice)
    (currentStreak : Z) (streaks : PerChoice Z) :
  0 <= currentStreak ->
  (forall d, 0 <= get d streaks) ->
  get c (streaks_from prev rest currentStreak streaks)
  = Z.max (get c streaks)
      (if decide (c = prev)
       then Z.max (currentStreak + Z.of_nat (leading_run c rest))
              (Z.of_nat (longest_run c rest))
       else Z.of_nat (longest_run c rest)).
Proof.
  revert prev currentStreak streaks.
  induction rest as [|x rest IH];
    intros prev currentStreak streaks Hpos Hstreaks;
    pose proof (Hstreaks c) as Hc0.
  - unfold streaks_from. cbn [streaks_loop List.last].
    rewrite get_update_max. cbn [leading_run longest_run].
    destruct (decide (c = prev)); lia.
  - rewrite streaks_from_cons.
    pose proof (leading_le_longest c rest) as Hlead.
    destruct (decide (x = prev)) as [->|Hx].
    + rewrite IH by (lia || assumption). cbn [leading_run longest_run].
      destruct (decide (c = prev)) as [->|Hc].
      * destruct (decide (prev = prev)); [lia|congruence].
      * destruct (decide (prev = c)); [congruence|lia].
    + rewrite IH.
      * rewrite get_update_max. cbn [leading_run longest_run].
        destruct (decide (c = x)) as [->|Hcx].
        -- destruct (decide (x = prev)); [congruence|].
           destruct (decide (x = x)); [lia|congruence].
        -- destruct (decide (x = c)); [congruence|].
           destruct (decide (c = prev)); lia.
      * lia.
      * intros d. rewrite get_update_max. pose proof (Hstreaks d).
        destruct (decide (d = prev)); lia.
Qed.

Lemma calculateStreaks_longest_run (c : GameChoice)
    (cs : list GameChoice) :
  get c (calculateStreaks cs) = Z.of_nat (longest_run c cs).
Proof.
  destruct cs as [|first rest]; [now destruct c|].
  change (calculateStreaks (first :: rest))
    with (streaks_from first rest 1 zeroes).
  rewrite streaks_from_spec by (lia || (intros []; cbn; lia)).
  replace (get c zeroes) with 0 by (now destruct c).
  cbn [longest_run leading_run].
  destruct (decide (c = first)) as [->|Hne].
  - destruct (decide (first = first)); [lia|congruence].
  - destruct (decide (first = c)); [congruence|lia].
Qed.

(** X4: [streaks[c]] of an analysed history is the length of its longest
    run of [c]: [n] consecutive moves [c] occur somewhere in the history
    exactly when [n <= streaks[c]]. *)
Theorem streaks_longest_run (history : list GameMove) (c : GameChoice)
    (n : nat) :
  (exists pre post,
      map choice history = (pre ++ repeat c n ++ post)%list)
  <-> Z.of_nat n <= get c (streaks (analyzePattern history)).
Proof.
  change (streaks (analyzePattern history))
    with (calculateStreaks (map choice history)).
  rewrite calculateStreaks_longest_run, longest_run_spec. lia.
Qed.

(** ** The recency window and the miss rate *)

Lemma slice_last_suffix {A : Type} (n : nat) (arr : list A) :
  arr = (firstn (List.length arr - n) arr ++ slice_last n arr)%list
  /\ List.length (slice_last n arr) = Nat.min (List.length arr) n.
Proof.
  unfold slice_last. split.
  - symmetry. apply firstn_skipn.
  - rewrite length_skipn. lia.
Qed.

(** X5: [lastMoves] of an analysed history is the end of its choice
    sequence: the whole sequence while it has at most ten moves, the last
    ten afterwards. *)
Theorem lastMoves_recent_window (history : list GameMove) :
  let pattern := analyzePattern history in
  (exists earlier,
      map choice history = (earlier ++ lastMoves pattern)%list)
  /\ len (lastMoves pattern) = Z.min (len history) 10.
Proof.
  cbn zeta.
  change (lastMoves (analyzePattern history))
    with (slice_last 10 (map choice history)).
  destruct (slice_last_suffix 10 (map choice history)) as [Hsplit Hlen].
  split.
  - eexists. exact Hsplit.
  - unfold len. rewrite Hlen, length_map. lia.
Qed.

Lemma Qdiv_counts (a b : Z) :
  0 <= a <= b -> 1 <= b ->
  (0 <= inject_Z a / inject_Z b)%Q
  /\ (inject_Z a / inject_Z b <= 1)%Q
  /\ ((inject_Z a / inject_Z b == 0)%Q <-> a = 0).
Proof.
  intros Ha Hb. destruct b as [|b|b]; try lia.
  unfold Qdiv, Qinv, Qmult, Qle, Qeq, inject_Z. cbn.
  repeat split; lia.
Qed.

Lemma filter_length_le {A : Type} (f : A -> bool) (l : list A) :
  (List.length (List.filter f l) <= List.length l)%nat.
Proof.
  induction l as [|x l IH]; cbn [List.filter List.length]; [lia|].
  destruct (f x); cbn [List.length]; lia.
Qed.

Lemma filter_nil_iff {A : Type} (f : A -> bool) (l : list A) :
  List.length (List.filter f l) = 0%nat <-> Forall (fun x => f x = false) l.
Proof.
  induction l as [|x l IH]; cbn [List.filter].
  - split; [constructor|reflexivity].
  - destruct (f x) eqn:Hfx; cbn [List.length].
    + split; [lia|]. intros Hall. inversion Hall; congruence.
    + rewrite IH. split.
      * intros Hall. now constructor.
      * intros Hall. now inversion Hall.
Qed.

Lemma wrong_predictions_filter (history : list GameMove) :
  len (List.filter (fun m => negb (correct m)) history)
  = wrong_predictions history.
Proof.
  induction history as [|move rest IH]; [reflexivity|].
  cbn [List.filter wrong_predictions]. rewrite <- IH.
  destruct (correct move); unfold len; cbn [negb List.length]; lia.
Qed.

(** X6: the field [winRate] of an analysed history is the share of moves
    the AI predicted wrongly: for a history that is not empty it is the
    number of wrong predictions divided by the number of moves, and for the
    empty history it is 0.  It lies between 0 and 1, and it is 0 exactly
    when every recorded prediction was correct. *)
Theorem winRate_is_miss_rate (history : list GameMove) :
  let pattern := analyzePattern history in
  (history = [] -> (winRate pattern == 0)%Q)
  /\ (history <> [] ->
      (winRate pattern
       == inject_Z (wrong_predictions history) / inject_Z (len history))%Q)
  /\ (0 <= winRate pattern)%Q
  /\ (winRate pattern <= 1)%Q
  /\ ((winRate pattern == 0)%Q
      <-> Forall (fun move => correct move = true) history).
Proof.
  cbn zeta.
  change (winRate (analyzePattern history))
    with (inject_Z
            (len (List.filter (fun m => negb (correct m)) history))
          / inject_Z (Z.max (len history) 1))%Q.
  pose proof (filter_length_le (fun m => negb (correct m)) history) as Hle.
  split; [|split].
  - intros ->. reflexivity.
  - intros Hnonempty. rewrite wrong_predictions_filter.
    replace (Z.max (len history) 1) with (len history); [reflexivity|].
    destruct history; [congruence|]. unfold len. cbn [List.length]. lia.
  - destruct (Qdiv_counts
                (len (List.filter (fun m => negb (correct m)) history))
                (Z.max (len history) 1)) as (Hlow & Hhigh & Hzero).
    + unfold len. lia.
    + lia.
    + split; [exact Hlow|]. split; [exact Hhigh|].
      rewrite Hzero. unfold len.
      rewrite <- Nat2Z.inj_0, Nat2Z.inj_iff, filter_nil_iff.
      split; intros Hall; eapply Forall_impl; try exact Hall;
        intros move; cbn beta; destruct (correct move); cbn; congruence.
Qed.

(** ** The candidates of the single strategies *)

(** X7: the frequency strategy always contributes exactly one candidate,
    with score 0.3: the symbol played most often, and among equally frequent
    symbols the first in the order rock, paper, scissors. *)
Theorem frequency_candidate_most_played (pattern : PlayerPattern) :
  exists c,
    first_greatest c (frequencies pattern)
    /\ frequencyStrategy pattern
       = [ {| cand_choice := c; score := 3 # 10; type := "frequency" |} ].
Proof.
  unfold frequencyStrategy, find_key, Math_max, first_greatest.
  destruct (frequencies pattern) as [r p s].
  cbn [values entries fold_left List.find of_rock of_paper of_scissors].
  destruct (Z.eqb_spec r (Z.max (Z.max r p) s)) as [Hr|Hr].
  - exists rock. split; [|reflexivity].
    intros []; cbn [get rank of_rock of_paper of_scissors]; lia.
  - destruct (Z.eqb_spec p (Z.max (Z.max r p) s)) as [Hp|Hp].
    + exists paper. split; [|reflexivity].
      intros []; cbn [get rank of_rock of_paper of_scissors]; lia.
    + destruct (Z.eqb_spec s (Z.max (Z.max r p) s)) as [Hs|Hs]; [|lia].
      exists scissors. split; [|reflexivity].
      intros []; cbn [get rank of_rock of_paper of_scissors]; lia.
Qed.

(** X8: the meta strategy contributes a candidate exactly when the
    randomness score exceeds 70; the candidate has score 0.4 and is the
    symbol played least often, the first such in the order rock, paper,
    scissors. *)
Theorem meta_candidate_least_played (pattern : PlayerPattern) :
  if 70 <? randomnessScore pattern
  then exists c,
      first_least c (frequencies pattern)
      /\ metaStrategy pattern
         = [ {| cand_choice := c; score := 4 # 10; type := "meta" |} ]
  else metaStrategy pattern = [].
Proof.
  unfold metaStrategy, find_key, Math_min, first_least.
  destruct (70 <? randomnessScore pattern); [|reflexivity].
  destruct (frequencies pattern) as [r p s].
  cbn [values entries fold_left List.find of_rock of_paper of_scissors].
  destruct (Z.eqb_spec r (Z.min (Z.min r p) s)) as [Hr|Hr].
  - exists rock. split; [|reflexivity].
    intros []; cbn [get rank of_rock of_paper of_scissors]; lia.
  - destruct (Z.eqb_spec p (Z.min (Z.min r p) s)) as [Hp|Hp].
    + exists paper. split; [|reflexivity].
      intros []; cbn [get rank of_rock of_paper of_scissors]; lia.
    + destruct (Z.eqb_spec s (Z.min (Z.min r p) s)) as [Hs|Hs]; [|lia].
      exists scissors. split; [|reflexivity].
      intros []; cbn [get rank of_rock of_paper of_scissors]; lia.
Qed.

Lemma Qgtb_ratio (a b t : Z) :
  0 < t ->
  Qgtb (inject_Z a / inject_Z t) (inject_Z b / inject_Z t) = (b <? a).
Proof.
  intros Ht. destruct t as [|t|t]; try lia.
  destruct (Z.ltb_spec b a) as [Hlt|Hge].
  - apply Qgtb_true.
    unfold Qdiv, Qinv, Qmult, Qlt, inject_Z. cbn. nia.
  - apply Qgtb_false.
    unfold Qdiv, Qinv, Qmult, Qle, inject_Z. cbn. nia.
Qed.

Lemma Qgtb_ratio_0 (a t : Z) :
  0 < t -> Qgtb (inject_Z a / inject_Z t) 0 = (0 <? a).
Proof.
  intros Ht. destruct t as [|t|t]; try lia.
  destruct (Z.ltb_spec 0 a) as [Hlt|Hge].
  - apply Qgtb_true.
    unfold Qdiv, Qinv, Qmult, Qlt, inject_Z. cbn. nia.
  - apply Qgtb_false.
    unfold Qdiv, Qinv, Qmult, Qle, inject_Z. cbn. nia.
Qed.

(** Expose the next comparison of the scan over the row. *)
Ltac row_step := cbn [get of_rock of_paper of_scissors].

(** The scan of [transitionStrategy] over a row with a positive sum ends at
    the first symbol with the greatest count, holding its share. *)
Lemma transition_scan (row : PerChoice Z) (total : Z) :
  0 < total -> total = sum3 row ->
  exists c,
    first_greatest c row
    /\ fold_left
         (fun '(maxTransition, transitionPrediction) choice =>
            let prob := (inject_Z (get choice row) / inject_Z total)%Q in
            if Qgtb prob maxTransition then (prob, choice)
            else (maxTransition, transitionPrediction))
         GAME_CHOICES (0%Q, rock)
       = ((inject_Z (get c row) / inject_Z total)%Q, c).
Proof.
  intros Htotal Hsum. unfold first_greatest.
  destruct row as [r p s]. unfold sum3 in Hsum.
  cbn [of_rock of_paper of_scissors] in Hsum.
  cbn [GAME_CHOICES fold_left get of_rock of_paper of_scissors].
  rewrite (Qgtb_ratio_0 r total Htotal).
  destruct (Z.ltb_spec 0 r) as [Hr|Hr].
  - row_step; rewrite (Qgtb_ratio p r total Htotal).
    destruct (Z.ltb_spec r p) as [Hp|Hp].
    + row_step; rewrite (Qgtb_ratio s p total Htotal).
      destruct (Z.ltb_spec p s) as [Hs|Hs].
      * exists scissors. split; [|reflexivity].
        intros []; cbn [get rank of_rock of_paper of_scissors]; lia.
      * exists paper. split; [|reflexivity].
        intros []; cbn [get rank of_rock of_paper of_scissors]; lia.
    + row_step; rewrite (Qgtb_ratio s r total Htotal).
      destruct (Z.ltb_spec r s) as [Hs|Hs].
      * exists scissors. split; [|reflexivity].
        intros []; cbn [get rank of_rock of_paper of_scissors]; lia.
      * exists rock. split; [|reflexivity].
        intros []; cbn [get rank of_rock of_paper of_scissors]; lia.
  - row_step; rewrite (Qgtb_ratio_0 p total Htotal).
    destruct (Z.ltb_spec 0 p) as [Hp|Hp].
    + row_step; rewrite (Qgtb_ratio s p total Htotal).
      destruct (Z.ltb_spec p s) as [Hs|Hs].
      * exists scissors. split; [|reflexivity].
        intros []; cbn [get rank of_rock of_paper of_scissors]; lia.
      * exists paper. split; [|reflexivity].
        intros []; cbn [get rank of_rock of_paper of_scissors]; lia.
    + row_step; rewrite (Qgtb_ratio_0 s total Htotal).
      destruct (Z.ltb_spec 0 s) as [Hs|Hs]; [|lia].
      exists scissors. split; [|reflexivity].
      intros []; cbn [get rank of_rock of_paper of_scissors]; lia.
Qed.

Lemma values_sum (row : PerChoice Z) :
  fold_left Z.add (values row) 0 = sum3 row.
Proof. unfold sum3. cbn. lia. Qed.

(** X9: the transition strategy looks at the row of the last move.  When
    the row adds up to nothing it contributes no candidate; otherwise it
    contributes the symbol that followed the last move most often (the first
    such in the order rock, paper, scissors), scored with half its share of
    the row. *)
Theorem transition_candidate_most_followed (pattern : PlayerPattern)
    (lastMove : GameChoice) :
  let row := get lastMove (transitions pattern) in
  if 0 <? sum3 row
  then exists c,
      first_greatest c row
      /\ transitionStrategy pattern lastMove
         = [ {| cand_choice := c;
                score :=
                  (inject_Z (get c row) / inject_Z (sum3 row) * (1 # 2))%Q;
                type := "sequential" |} ]
  else transitionStrategy pattern lastMove = [].
Proof.
  cbn zeta. unfold transitionStrategy. rewrite values_sum.
  destruct (Z.ltb_spec 0 (sum3 (get lastMove (transitions pattern))))
    as [Htotal|Htotal]; [|reflexivity].
  destruct (transition_scan (get lastMove (transitions pattern)) _ Htotal
              eq_refl) as (c & Hgreatest & Hscan).
  cbv zeta in Hscan. cbv zeta. rewrite Hscan.
  exists c. split; [exact Hgreatest|reflexivity].
Qed.

(** ** The prediction for analysed histories *)

Lemma analyzePattern_nonneg_transitions (history : list GameMove) :
  nonneg_transitions (analyzePattern history).
Proof.
  intros a b.
  change (transitions (analyzePattern history))
    with (calculateTransitions (map choice history)).
  unfold calculateTransitions. rewrite transitions_loop_cell.
  replace (get b (get a (mkPerChoice zeroes zeroes zeroes))) with 0
    by (now destruct a, b).
  unfold len. lia.
Qed.

Lemma half_share_le_half (a t : Z) :
  0 <= a <= t -> 0 < t ->
  (inject_Z a / inject_Z t * (1 # 2) <= 1 # 2)%Q.
Proof.
  intros Ha Ht. destruct t as [|t|t]; try lia.
  unfold Qdiv, Qinv, Qmult, Qle, inject_Z. cbn. nia.
Qed.

(** With a table of counts, the four strategies before the rotation
    detection never score above one half. *)
Lemma early_scores_le_half (pattern : PlayerPattern) (lastMove : GameChoice)
    (random : Q) (c : Candidate) :
  nonneg_transitions pattern ->
  In c (frequencyStrategy pattern ++ transitionStrategy pattern lastMove
        ++ metaStrategy pattern ++ winStayStrategy pattern random) ->
  (score c <= 1 # 2)%Q.
Proof.
  intros Hnonneg. rewrite !in_app_iff. intros [Hin|[Hin|[Hin|Hin]]].
  - unfold frequencyStrategy in Hin. destruct Hin as [<-|[]].
    cbn. unfold Qle. cbn. lia.
  - unfold transitionStrategy in Hin. rewrite values_sum in Hin.
    destruct (Z.ltb_spec 0 (sum3 (get lastMove (transitions pattern))))
      as [Htotal|Htotal]; [|destruct Hin].
    destruct (transition_scan (get lastMove (transitions pattern)) _ Htotal
                eq_refl) as (best & Hgreatest & Hscan).
    cbv zeta in Hscan. cbv zeta in Hin. rewrite Hscan in Hin.
    destruct Hin as [<-|[]]. cbn [score].
    apply half_share_le_half; [|exact Htotal].
    pose proof (Hnonneg lastMove rock). pose proof (Hnonneg lastMove paper).
    pose proof (Hnonneg lastMove scissors).
    unfold sum3. destruct (get lastMove (transitions pattern)) as [r p s].
    destruct best; cbn [get of_rock of_paper of_scissors] in *; lia.
  - unfold metaStrategy in Hin.
    destruct (70 <? _); [|destruct Hin].
    destruct Hin as [<-|[]]. cbn. unfold Qle. cbn. lia.
  - unfold winStayStrategy in Hin.
    destruct (2 <=? _); [|destruct Hin].
    destruct (at_index _ _) as [lastPlayerMove|]; [|destruct Hin].
    destruct (at_index _ _) as [secondLastMove|]; [|destruct Hin].
    destruct (decide _); [|destruct Hin].
    destruct (at_index _ _) as [switchPrediction|]; [|destruct Hin].
    destruct Hin as [<-|[]]. cbn. unfold Qle. cbn. lia.
Qed.

Lemma rotation_candidates (pattern : PlayerPattern) (c : Candidate) :
  In c (rotationStrategy pattern) ->
  score c = 6 # 10 /\ type c = "sequential"
  /\ (cand_choice c = rock \/ cand_choice c = scissors).
Proof.
  unfold rotationStrategy. intros Hin.
  destruct (3 <=? _); [|destruct Hin].
  destruct (slice_last 3 _) as [|s0 [|s1 [|s2 [|s3 rest]]]];
    try destruct Hin.
  destruct (_ && _); [destruct Hin as [<-|[]]; cbn; tauto|].
  destruct (_ && _); [destruct Hin as [<-|[]]; cbn; tauto|].
  destruct Hin.
Qed.

Lemma selectBest_ge_first (first : Candidate) (rest : list Candidate) :
  (score first <= score (selectBest (first :: rest)))%Q.
Proof.
  destruct (selectBest_first_max first rest)
    as (pre & post & Hsplit & Hpre & _).
  destruct pre as [|x pre]; cbn [app] in Hsplit.
  - injection Hsplit as Hbest _. rewrite <- Hbest. apply Qle_refl.
  - injection Hsplit as Hx _. subst x.
    apply Qlt_le_weak. now inversion Hpre.
Qed.

Lemma Math_round_mono (x y : Q) :
  (x <= y)%Q -> Math_round x <= Math_round y.
Proof.
  intros Hle. unfold Math_round. apply Qfloor_resp_le.
  apply Qplus_le_compat; [exact Hle|apply Qle_refl].
Qed.

Lemma slice_last_nil {A : Type} (n : nat) (arr : list A) :
  (0 < n)%nat -> slice_last n arr = [] -> arr = [].
Proof.
  intros Hn Hnil. destruct (slice_last_suffix n arr) as [_ Hlen].
  rewrite Hnil in Hlen. cbn in Hlen.
  destruct arr; [reflexivity|cbn [List.length] in Hlen; lia].
Qed.

(** The recency window of an analysed history with two or more moves is
    not empty. *)
Lemma analysed_window_nonempty (history : list GameMove) :
  2 <= totalMoves (analyzePattern history) ->
  lastMoves (analyzePattern history) <> [].
Proof.
  intros Hwarm Hnil.
  change (lastMoves (analyzePattern history))
    with (slice_last 10 (map choice history)) in Hnil.
  apply slice_last_nil in Hnil; [|lia].
  change (totalMoves (analyzePattern history)) with (len history) in Hwarm.
  destruct history; [unfold len in Hwarm; cbn in Hwarm; lia|discriminate].
Qed.

(** X10: on the pattern of any analysed history [predictNextMove] returns
    an analysis: the call never throws.  Its confidence lies between 30 and
    60, so the cap at 85 is never what decides it. *)
Theorem analysed_history_prediction (history : list GameMove)
    (apiKey : option string) (w : World) :
  exists analysis,
    predictNextMove (analyzePattern history) apiKey w = Returns analysis
    /\ 30 <= confidence analysis <= 60.
Proof.
  destruct (predictNextMove_cases (analyzePattern history) apiKey w)
    as [[Hcold ->]|[(Hwarm & Hnil & _)|(Hwarm & lastMove & text & Hlast & ->)]].
  - exists coldStart. split; [reflexivity|cbn; lia].
  - exfalso. now apply (analysed_window_nonempty history).
  - eexists. split; [reflexivity|]. cbn [confidence].
    set (preds := predictions (analyzePattern history) lastMove
                    (Math_random w)).
    assert (3 # 10 <= score (selectBest preds))%Q as Hlow.
    { unfold preds, predictions, frequencyStrategy. cbn [app].
      match goal with
      | |- (_ <= score (selectBest (?first :: ?rest)))%Q =>
          apply (selectBest_ge_first first rest)
      end. }
    assert (score (selectBest preds) <= 6 # 10)%Q as Hhigh.
    { pose proof (selectBest_In preds
                    (predictions_nonempty _ _ _)) as Hin.
      unfold preds at 2 in Hin. unfold predictions in Hin.
      rewrite !app_assoc in Hin. apply in_app_iff in Hin.
      destruct Hin as [Hin|Hin].
      - rewrite <- !app_assoc in Hin.
        apply Qle_trans with (1 # 2)%Q; [|unfold Qle; cbn; lia].
        eapply early_scores_le_half; [|exact Hin].
        apply analyzePattern_nonneg_transitions.
      - apply rotation_candidates in Hin as [-> _]. apply Qle_refl. }
    assert (Math_round ((3 # 10) * 100) = 30) as H30 by reflexivity.
    assert (Math_round ((6 # 10) * 100) = 60) as H60 by reflexivity.
    pose proof (Math_round_mono _ _
                  (Qmult_le_compat_r _ _ 100 Hlow ltac:(discriminate))).
    pose proof (Math_round_mono _ _
                  (Qmult_le_compat_r _ _ 100 Hhigh ltac:(discriminate))).
    lia.
Qed.

(** X11: whatever the pattern, the key and the world, a returned analysis
    carries one of the four tags frequency, sequential, meta and
    psychological (never complex) and a reasoning text that is not empty;
    and the only exception thrown is the type error. *)
Theorem analysis_tag_and_reasoning (pattern : PlayerPattern)
    (apiKey : option string) (w : World) :
  match predictNextMove pattern apiKey w with
  | Returns analysis =>
      In (patternType analysis) strategy_tags /\ reasoning analysis <> ""
  | Throws e => e = TypeError
  end.
Proof.
  unfold predictNextMove.
  destruct (totalMoves pattern <? 2).
  { split; [cbn; tauto|discriminate]. }
  destruct (at_index _ _) as [lastMove|]; [|reflexivity].
  set (best := selectBest (predictions pattern lastMove (Math_random w))).
  assert (In (type best) strategy_tags) as Htag.
  { eapply predictions_tags, selectBest_In, predictions_nonempty. }
  destruct (fallback_template (type best) (cand_choice best) lastMove Htag)
    as [_ Hfallback].
  destruct (getGeminiModel apiKey w) as [model|e].
  - destruct (generateContent w model _) as [e|text].
    + split; [exact Htag|exact Hfallback].
    + split; [exact Htag|]. cbn [reasoning].
      destruct text as [|a text]; [|discriminate].
      cbn. destruct (cand_choice best); discriminate.
  - split; [exact Htag|exact Hfallback].
Qed.

(** ** When the meta strategy can fire *)

Section TwoSymbols.
Local Open Scope R_scope.

Lemma plogp_bound_two (p : R) :
  0 <= p <= 1 -> plogp p <= p * ln 2 + (/ 2 - p).
Proof.
  intros [Hlow Hhigh]. unfold plogp.
  destruct (Rlt_dec 0 p) as [Hpos|Hzero].
  - assert (0 < / (2 * p)) as Hinv by (apply Rinv_0_lt_compat; lra).
    pose proof (ln_le_minus_1 (/ (2 * p)) Hinv) as Hln.
    rewrite ln_Rinv, ln_mult in Hln by lra.
    assert (p * / (2 * p) = / 2) as Hcancel by (field; lra).
    assert (p * (- (ln 2 + ln p)) <= p * (/ (2 * p) - 1)) as Hscaled
      by (apply Rmult_le_compat_l; lra).
    lra.
  - assert (p = 0) as -> by lra. lra.
Qed.

Lemma ln2_ln3_ratio : 19 * ln 2 <= 12 * ln 3.
Proof.
  assert (ln (2 ^ 19) < ln (3 ^ 12)) as Hlt by (apply ln_increasing; lra).
  rewrite !ln_pow in Hlt by lra.
  rewrite !INR_IZR_INZ in Hlt.
  change (Z.of_nat 19) with 19%Z in Hlt.
  change (Z.of_nat 12) with 12%Z in Hlt. lra.
Qed.

Lemma Math_round_R_below (x : R) (hi : Z) :
  x + / 2 < IZR (hi + 1) -> (Math_round_R x <= hi)%Z.
Proof.
  intros Hx. unfold Math_round_R.
  destruct (base_Int_part (x + / 2)) as [Hfloor _].
  assert (IZR (Int_part (x + / 2)) < IZR (hi + 1)) as H by lra.
  apply lt_IZR in H. lia.
Qed.

(** The entropy of a distribution over two symbols is at most one bit. *)
Lemma entropy_two_symbols (frequencies : PerChoice Z) (totalMoves : Z)
    (absent : GameChoice) :
  (forall c, 0 <= get c frequencies)%Z ->
  get absent frequencies = 0%Z ->
  (sum3 frequencies = totalMoves)%Z -> (totalMoves <> 0)%Z ->
  fold_left (entropy_step frequencies totalMoves) GAME_CHOICES 0 <= 1.
Proof.
  intros Hnonneg Habsent Hsum Hnonzero.
  pose proof (Hnonneg rock) as Hrock. pose proof (Hnonneg paper) as Hpaper.
  pose proof (Hnonneg scissors) as Hscissors.
  cbn [fold_left GAME_CHOICES]. rewrite !entropy_step_plogp.
  cbn [get] in *. unfold sum3 in Hsum.
  assert (0 < IZR totalMoves) as Hpos by (apply IZR_lt; lia).
  assert (forall k : Z, (0 <= k <= totalMoves)%Z ->
                        0 <= IZR k / IZR totalMoves <= 1) as Hprob.
  { intros k [Hk0 Hk1]. apply IZR_le in Hk0, Hk1. split.
    - apply Rmult_le_pos; [exact Hk0|]. left. now apply Rinv_0_lt_compat.
    - apply Rmult_le_reg_r with (IZR totalMoves); [exact Hpos|].
      unfold Rdiv. rewrite Rmult_assoc, Rinv_l by lra. lra. }
  pose proof (plogp_bound_two _ (Hprob (of_rock frequencies) ltac:(lia)))
    as Hr.
  pose proof (plogp_bound_two _ (Hprob (of_paper frequencies) ltac:(lia)))
    as Hp.
  pose proof (plogp_bound_two _
                (Hprob (of_scissors frequencies) ltac:(lia))) as Hs.
  assert (IZR (of_rock frequencies) / IZR totalMoves
          + IZR (of_paper frequencies) / IZR totalMoves
          + IZR (of_scissors frequencies) / IZR totalMoves = 1) as Hone.
  { rewrite <- Hsum, !plus_IZR. field. rewrite <- !plus_IZR, Hsum. lra. }
  assert (IZR 0 / IZR totalMoves = 0) as Hzero by (unfold Rdiv; lra).
  pose proof ln_2_pos as Hln2.
  assert (plogp (IZR (of_rock frequencies) / IZR totalMoves)
          + plogp (IZR (of_paper frequencies) / IZR totalMoves)
          + plogp (IZR (of_scissors frequencies) / IZR totalMoves)
          <= ln 2) as Htotal.
  { destruct absent; cbn [get] in Habsent; rewrite Habsent in *;
      rewrite Hzero in *; rewrite plogp_0 in *; nra. }
  set (pr := plogp (IZR (of_rock frequencies) / IZR totalMoves)) in *.
  set (pp := plogp (IZR (of_paper frequencies) / IZR totalMoves)) in *.
  set (ps := plogp (IZR (of_scissors frequencies) / IZR totalMoves)) in *.
  assert (0 + pr / ln 2 + pp / ln 2 + ps / ln 2 = (pr + pp + ps) / ln 2)
    as -> by (field; lra).
  apply Rmult_le_reg_r with (ln 2); [exact Hln2|].
  unfold Rdiv. rewrite Rmult_assoc, Rinv_l by lra. lra.
Qed.

End TwoSymbols.

(** X12: as long as a non-empty history leaves one of the three symbols
    unplayed, its randomness score is at most 63, so the meta strategy, which
    needs more than 70, contributes no candidate. *)
Theorem meta_needs_all_three_symbols (history : list GameMove)
    (absent : GameChoice) :
  history <> [] ->
  Forall (fun move => choice move <> absent) history ->
  randomnessScore (analyzePattern history) <= 63
  /\ metaStrategy (analyzePattern history) = [].
Proof.
  intros Hnonempty Habsent.
  assert (randomnessScore (analyzePattern history) <= 63) as Hscore.
  { change (randomnessScore (analyzePattern history))
      with (calculateRandomness (initialPattern history)).
    unfold calculateRandomness.
    change (frequencies (initialPattern history))
      with (calculateFrequencies (map choice history)).
    change (totalMoves (initialPattern history)) with (len history).
    assert (len history <> 0) as Hlen.
    { destruct history; [congruence|]. unfold len. cbn [List.length]. lia. }
    destruct (Z.eqb_spec (len history) 0) as [Hzero|_]; [lia|].
    pose proof (frequencies_fold_sum (map choice history) zeroes) as Hsum.
    rewrite len_map in Hsum. change (sum3 zeroes) with 0 in Hsum.
    fold (calculateFrequencies (map choice history)) in Hsum.
    assert (fold_left
              (entropy_step (calculateFrequencies (map choice history))
                 (len history)) GAME_CHOICES 0%R <= 1)%R as Hentropy.
    { apply (entropy_two_symbols _ _ absent).
      - intros c. rewrite calculateFrequencies_occurrences.
        apply occurrences_nonneg.
      - rewrite calculateFrequencies_occurrences.
        pose proof (occurrences_pos_In absent (map choice history)) as Hin.
        pose proof (occurrences_nonneg absent (map choice history)).
        destruct (Z.eq_dec (occurrences absent (map choice history)) 0)
          as [Hzero|Hpos]; [exact Hzero|exfalso].
        assert (In absent (map choice history)) as Hocc by (apply Hin; lia).
        apply in_map_iff in Hocc as (move & Hchoice & Hmove).
        rewrite List.Forall_forall in Habsent. now apply (Habsent move).
      - lia.
      - exact Hlen. }
    apply Math_round_R_below.
    pose proof ln_2_pos as Hln2. pose proof ln_3_pos as Hln3.
    pose proof ln2_ln3_ratio as Hratio.
    set (entropy := fold_left _ GAME_CHOICES 0%R) in *.
    unfold Math_log2.
    assert (entropy / (ln 3 / ln 2) <= 12 / 19)%R as Hle.
    { apply Rmult_le_reg_r with (ln 3 / ln 2)%R.
      - apply Rmult_lt_0_compat; [exact Hln3|].
        now apply Rinv_0_lt_compat.
      - unfold Rdiv at 1. rewrite Rmult_assoc, Rinv_l.
        + apply Rle_trans with 1%R; [lra|].
          apply Rmult_le_reg_r with (ln 2); [exact Hln2|].
          unfold Rdiv. rewrite !Rmult_assoc, Rinv_l by lra. lra.
        + apply Rgt_not_eq. apply Rmult_lt_0_compat; [exact Hln3|].
          now apply Rinv_0_lt_compat. }
    change (IZR (63 + 1)) with 64%R. lra. }
  split; [exact Hscore|].
  unfold metaStrategy.
  destruct (Z.ltb_spec 70 (randomnessScore (analyzePattern history)));
    [lia|reflexivity].
Qed.

(** ** Histories that end in a rotation *)

Lemma slice_last_app_tail {A : Type} (n : nat) (earlier tail : list A) :
  (List.length tail <= n)%nat ->
  exists kept, slice_last n (earlier ++ tail) = (kept ++ tail)%list.
Proof.
  intros Hlen. unfold slice_last. rewrite length_app, skipn_app.
  exists (skipn (List.length earlier + List.length tail - n) earlier).
  f_equal.
  replace (List.length earlier + List.length tail - n
           - List.length earlier)%nat with 0%nat by lia.
  reflexivity.
Qed.

Lemma slice_last_exact {A : Type} (earlier tail : list A) :
  slice_last (List.length tail) (earlier ++ tail) = tail.
Proof.
  unfold slice_last. rewrite length_app.
  replace (List.length earlier + List.length tail - List.length tail)%nat
    with (List.length earlier + 0)%nat by lia.
  rewrite skipn_app, Nat.add_0_r, skipn_all, Nat.sub_diag.
  reflexivity.
Qed.

Lemma first_max_ge (best : Candidate) (preds : list Candidate)
    (c : Candidate) :
  first_max best preds -> In c preds -> (score c <= score best)%Q.
Proof.
  intros (pre & post & -> & Hpre & Hpost) Hin.
  apply in_app_iff in Hin. destruct Hin as [Hin|[<-|Hin]].
  - apply Qlt_le_weak. rewrite List.Forall_forall in Hpre. now apply Hpre.
  - apply Qle_refl.
  - rewrite List.Forall_forall in Hpost. now apply Hpost.
Qed.

(** When the rotation detection fires on a table of counts, its candidate
    is the one selected. *)
Lemma rotation_candidate_wins (pattern : PlayerPattern)
    (apiKey : option string) (w : World) (cand : Candidate) :
  nonneg_transitions pattern ->
  2 <= totalMoves pattern ->
  lastMoves pattern <> [] ->
  rotationStrategy pattern = [cand] ->
  exists text,
    predictNextMove pattern apiKey w
    = Returns {| prediction := cand_choice cand; confidence := 60;
                 reasoning := text; patternType := "sequential" |}.
Proof.
  intros Hnonneg Hwarm Hwindow Hrotation.
  destruct (rotation_candidates pattern cand) as (Hscore & Htype & _).
  { rewrite Hrotation. now left. }
  destruct (predictNextMove_cases pattern apiKey w)
    as [[Hcold _]|[(_ & Hnil & _)|(_ & lastMove & text & Hlast & Hrun)]].
  - lia.
  - congruence.
  - cbn zeta in Hrun.
    set (preds := predictions pattern lastMove (Math_random w)) in *.
    assert (selectBest preds = cand) as Hbest.
    { assert (first_max (selectBest preds) preds) as Hfirst.
      { unfold preds, predictions, frequencyStrategy. cbn [app].
        apply selectBest_first_max. }
      assert (In cand preds) as Hcand.
      { unfold preds, predictions. rewrite Hrotation, !in_app_iff.
        do 4 right. now left. }
      pose proof (first_max_ge _ _ _ Hfirst Hcand) as Hge.
      pose proof (first_max_In _ _ Hfirst) as Hin.
      unfold preds at 2 in Hin. unfold predictions in Hin.
      rewrite !app_assoc in Hin. apply in_app_iff in Hin.
      destruct Hin as [Hin|Hin].
      - rewrite <- !app_assoc in Hin.
        pose proof (early_scores_le_half _ _ _ _ Hnonneg Hin) as Hle.
        rewrite Hscore in Hge. exfalso.
        assert (6 # 10 <= 1 # 2)%Q as Habsurd
          by (now apply Qle_trans with (score (selectBest preds))).
        unfold Qle in Habsurd. cbn in Habsurd. lia.
      - rewrite Hrotation in Hin. destruct Hin as [Hin|[]]. now symmetry. }
    rewrite Hbest, Hscore, Htype in Hrun. exists text. exact Hrun.
Qed.

Lemma rotation_fires (pattern : PlayerPattern) (kept : list GameChoice)
    (s0 s1 s2 : GameChoice) :
  lastMoves pattern = (kept ++ [s0; s1; s2])%list ->
  rotationStrategy pattern
  = if bool_decide (s0 = rock) && bool_decide (s1 = paper)
       && bool_decide (s2 = scissors)
    then [ {| cand_choice := rock; score := 6 # 10;
              type := "sequential" |} ]
    else if bool_decide (s0 = scissors) && bool_decide (s1 = rock)
            && bool_decide (s2 = paper)
    then [ {| cand_choice := scissors; score := 6 # 10;
              type := "sequential" |} ]
    else [].
Proof.
  intros Hlast. unfold rotationStrategy. rewrite Hlast.
  change (slice_last 3 (kept ++ [s0; s1; s2]))
    with (slice_last (List.length [s0; s1; s2]) (kept ++ [s0; s1; s2])).
  rewrite (slice_last_exact kept [s0; s1; s2]).
  destruct (Z.leb_spec 3 (len (kept ++ [s0; s1; s2]))) as [_|Hshort];
    [reflexivity|].
  unfold len in Hshort. rewrite length_app in Hshort.
  cbn [List.length] in Hshort. lia.
Qed.

(** X13: whenever a history ends in rock, paper, scissors the prediction is
    rock, and whenever it ends in scissors, rock, paper the prediction is
    scissors; in both cases with confidence 60 and tag sequential, whatever
    came before and whatever the random draw. *)
Theorem rotation_ending_prediction (history : list GameMove)
    (earlier : list GameChoice) (apiKey : option string) (w : World) :
  (map choice history = (earlier ++ [rock; paper; scissors])%list ->
   exists text,
     predictNextMove (analyzePattern history) apiKey w
     = Returns {| prediction := rock; confidence := 60;
                  reasoning := text; patternType := "sequential" |})
  /\ (map choice history = (earlier ++ [scissors; rock; paper])%list ->
      exists text,
        predictNextMove (analyzePattern history) apiKey w
        = Returns {| prediction := scissors; confidence := 60;
                     reasoning := text; patternType := "sequential" |}).
Proof.
  assert (forall s0 s1 s2 cand,
             map choice history = (earlier ++ [s0; s1; s2])%list ->
             (if bool_decide (s0 = rock) && bool_decide (s1 = paper)
                 && bool_decide (s2 = scissors)
              then [ {| cand_choice := rock; score := 6 # 10;
                        type := "sequential" |} ]
              else if bool_decide (s0 = scissors) && bool_decide (s1 = rock)
                      && bool_decide (s2 = paper)
              then [ {| cand_choice := scissors; score := 6 # 10;
                        type := "sequential" |} ]
              else []) = [cand] ->
             exists text,
               predictNextMove (analyzePattern history) apiKey w
               = Returns {| prediction := cand_choice cand; confidence := 60;
                            reasoning := text;
                            patternType := "sequential" |}) as Hgeneral.
  { intros s0 s1 s2 cand Hchoices Hcand.
    destruct (slice_last_app_tail 10 earlier [s0; s1; s2])
      as [kept Hkept]; [cbn; lia|].
    assert (lastMoves (analyzePattern history)
            = (kept ++ [s0; s1; s2])%list) as Hlast.
    { change (lastMoves (analyzePattern history))
        with (slice_last 10 (map choice history)).
      now rewrite Hchoices. }
    apply rotation_candidate_wins.
    - apply analyzePattern_nonneg_transitions.
    - change (totalMoves (analyzePattern history)) with (len history).
      rewrite <- (len_map choice), Hchoices. unfold len.
      rewrite length_app. cbn [List.length]. lia.
    - rewrite Hlast. now destruct kept.
    - now rewrite (rotation_fires _ kept s0 s1 s2 Hlast). }
  split; intros Hchoices.
  - exact (Hgeneral rock paper scissors _ Hchoices eq_refl).
  - exact (Hgeneral scissors rock paper _ Hchoices eq_refl).
Qed.

(** X14: for an analysed history the transition strategy contributes a
    candidate exactly when the symbol of the last move was already played
    earlier in the history. *)
Theorem transition_needs_earlier_occurrence (history : list GameMove)
    (lastMove : GameChoice) :
  last (map choice history) = Some lastMove ->
  (transitionStrategy (analyzePattern history) lastMove <> []
   <-> In lastMove (removelast (map choice history))).
Proof.
  intros Hlast.
  pose proof (transitions_loop_row lastMove (map choice history)
                (mkPerChoice zeroes zeroes zeroes)) as Hrow.
  replace (sum3 (get lastMove (mkPerChoice zeroes zeroes zeroes))) with 0
    in Hrow by (now destruct lastMove).
  fold (calculateTransitions (map choice history)) in Hrow.
  rewrite <- occurrences_pos_In.
  unfold transitionStrategy. rewrite values_sum.
  change (transitions (analyzePattern history))
    with (calculateTransitions (map choice history)).
  destruct (Z.ltb_spec 0 (sum3 (get lastMove
                                  (calculateTransitions
                                     (map choice history)))))
    as [Htotal|Htotal].
  - split; [lia|]. intros _.
    destruct (fold_left _ GAME_CHOICES _). discriminate.
  - split; [congruence|lia].
Qed.

(** ** The pattern hash as a cache key *)

Lemma base64_digits_ok :
  forallb base64_digit_ok (map N.of_nat (seq 0 64)) = true.
Proof. vm_compute. reflexivity. Qed.

Lemma base64_digit_spec (i : N) :
  (i < 64)%N ->
  base64_value (base64_digit i) = i /\ base64_digit i <> "="%char.
Proof.
  intros Hi.
  pose proof base64_digits_ok as Hall.
  rewrite forallb_forall in Hall.
  assert (base64_digit_ok i = true) as Hok.
  { apply Hall. apply in_map_iff. exists (N.to_nat i).
    split; [lia|]. apply in_seq. lia. }
  unfold base64_digit_ok in Hok.
  apply andb_true_iff in Hok as [Hvalue Hpad].
  split.
  - now apply N.eqb_eq.
  - intros Heq. rewrite Heq in Hpad. discriminate.
Qed.

Lemma base64_digit_inj (i j : N) :
  (i < 64)%N -> (j < 64)%N -> base64_digit i = base64_digit j -> i = j.
Proof.
  intros Hi Hj Heq.
  destruct (base64_digit_spec i Hi) as [<- _].
  destruct (base64_digit_spec j Hj) as [<- _].
  now rewrite Heq.
Qed.

(** Quotient and remainder of [x] by [d] as fresh numbers with their
    defining facts. *)
Ltac euclid x d :=
  let q := fresh "q" in
  let r := fresh "r" in
  pose proof (N.div_mod x d ltac:(discriminate));
  pose proof (N.mod_lt x d ltac:(discriminate));
  set (q := (x / d)%N) in *; set (r := (x mod d)%N) in *; clearbody q r.

(** The four digits of a group of three bytes determine the bytes. *)
Lemma base64_group_inj (a b c a' b' c' : N) :
  (a < 256)%N -> (b < 256)%N -> (c < 256)%N ->
  (a' < 256)%N -> (b' < 256)%N -> (c' < 256)%N ->
  base64_digit (a / 4) = base64_digit (a' / 4) ->
  base64_digit ((a mod 4) * 16 + b / 16)
  = base64_digit ((a' mod 4) * 16 + b' / 16) ->
  base64_digit ((b mod 16) * 4 + c / 64)
  = base64_digit ((b' mod 16) * 4 + c' / 64) ->
  base64_digit (c mod 64) = base64_digit (c' mod 64) ->
  a = a' /\ b = b' /\ c = c'.
Proof.
  intros Ha Hb Hc Ha' Hb' Hc' H1 H2 H3 H4.
  apply base64_digit_inj in H1, H2, H3, H4;
    euclid a 4%N; euclid a' 4%N; euclid b 16%N; euclid b' 16%N;
    euclid c 64%N; euclid c' 64%N; lia.
Qed.

Lemma base64_pad_not_digit (i : N) :
  (i < 64)%N -> "="%char = base64_digit i -> False.
Proof.
  intros Hi Heq. destruct (base64_digit_spec i Hi) as [_ Hpad]. congruence.
Qed.

Lemma base64_bytes_inj_bounded (n : nat) (l1 l2 : list N) :
  (List.length l1 <= n)%nat ->
  Forall (fun b => (b < 256)%N) l1 -> Forall (fun b => (b < 256)%N) l2 ->
  base64_bytes l1 = base64_bytes l2 -> l1 = l2.
Proof.
  revert l1 l2. induction n as [|n IH]; intros l1 l2 Hlen Hl1 Hl2 Heq.
  - destruct l1; [|cbn in Hlen; lia].
    destruct l2 as [|a [|b [|c rest]]]; [reflexivity|discriminate..].
  - destruct l1 as [|a [|b [|c rest]]];
      destruct l2 as [|a' [|b' [|c' rest']]];
      try reflexivity; try discriminate;
      cbn [base64_bytes] in Heq;
      repeat match goal with
        | H : Forall _ (_ :: _) |- _ => inversion H; clear H; subst
        end.
    + injection Heq as Hd1 Hd2.
      pose proof (base64_group_inj a 0 0 a' 0 0) as Hgroup.
      rewrite !N.add_0_r in *.
      destruct Hgroup as (-> & _ & _); auto; lia.
    + injection Heq as Hd1 Hd2 Hd3. exfalso.
      eapply (base64_pad_not_digit ((b' mod 16) * 4)); [|exact Hd3].
      euclid b' 16%N. lia.
    + injection Heq as Hd1 Hd2 Hd3. exfalso.
      eapply (base64_pad_not_digit ((b' mod 16) * 4 + c' / 64));
        [|exact Hd3].
      euclid b' 16%N. euclid c' 64%N. lia.
    + injection Heq as Hd1 Hd2 Hd3. exfalso.
      eapply (base64_pad_not_digit ((b mod 16) * 4)); [|symmetry; exact Hd3].
      euclid b 16%N. lia.
    + injection Heq as Hd1 Hd2 Hd3.
      pose proof (base64_group_inj a b 0 a' b' 0) as Hgroup.
      rewrite !N.add_0_r in *.
      destruct Hgroup as (-> & -> & _); auto; lia.
    + injection Heq as Hd1 Hd2 Hd3 Hd4. exfalso.
      eapply (base64_pad_not_digit (c' mod 64)); [|exact Hd4].
      euclid c' 64%N. lia.
    + injection Heq as Hd1 Hd2 Hd3. exfalso.
      eapply (base64_pad_not_digit ((b mod 16) * 4 + c / 64));
        [|symmetry; exact Hd3].
      euclid b 16%N. euclid c 64%N. lia.
    + injection Heq as Hd1 Hd2 Hd3 Hd4. exfalso.
      eapply (base64_pad_not_digit (c mod 64)); [|symmetry; exact Hd4].
      euclid c 64%N. lia.
    + injection Heq as Hd1 Hd2 Hd3 Hd4 Hrest.
      destruct (base64_group_inj a b c a' b' c') as (-> & -> & ->); auto.
      f_equal. f_equal. f_equal.
      apply IH; auto. cbn [List.length] in Hlen. lia.
Qed.

(** [Buffer.from(s).toString('base64')] loses nothing of [s]. *)
Lemma base64_inj (s1 s2 : string) : base64 s1 = base64 s2 -> s1 = s2.
Proof.
  unfold base64. intros Heq.
  apply base64_bytes_inj_bounded
    with (n := List.length (map N_of_ascii (list_ascii_of_string s1)))
    in Heq.
  - rewrite <- (string_of_list_ascii_of_string s1),
      <- (string_of_list_ascii_of_string s2).
    f_equal.
    assert (forall l1 l2 : list ascii,
               map N_of_ascii l1 = map N_of_ascii l2 -> l1 = l2) as Hmap.
    { induction l1 as [|x l1 IH]; intros [|y l2] Hl; try discriminate.
      - reflexivity.
      - injection Hl as Hxy Hl.
        rewrite <- (ascii_N_embedding x), <- (ascii_N_embedding y), Hxy.
        f_equal. now apply IH. }
    now apply Hmap.
  - lia.
  - apply List.Forall_forall. intros b Hb.
    apply in_map_iff in Hb as (x & <- & _). apply N_ascii_bounded.
  - apply List.Forall_forall. intros b Hb.
    apply in_map_iff in Hb as (x & <- & _). apply N_ascii_bounded.
Qed.

Lemma number_to_string_inj (n m : Z) :
  number_to_string n = number_to_string m -> n = m.
Proof.
  unfold number_to_string. intros Heq.
  assert (forall z,
             NilZero.int_of_string (NilZero.string_of_int (Z.to_int z))
             = Some (Z.to_int z)) as Hparse.
  { intros z. apply NilZero.isi; destruct z; cbn; try discriminate;
      intros Hnil; injection Hnil as Hnil;
      now apply DecimalPos.Unsigned.to_uint_nonnil in Hnil. }
  apply DecimalZ.to_int_inj.
  pose proof (Hparse n) as Hn. rewrite Heq, Hparse in Hn.
  now injection Hn.
Qed.

(** The cache key determines the window it was built from and the move
    count. *)
Lemma pattern_key_inj (l1 l2 : list GameChoice) (s1 s2 : string) :
  join (map choiceName l1) ++ "-" ++ s1
  = join (map choiceName l2) ++ "-" ++ s2 ->
  l1 = l2 /\ s1 = s2.
Proof.
  revert l2. induction l1 as [|c l1 IH]; intros [|c' l2] Heq.
  - cbn in Heq. injection Heq as Heq. now split.
  - destruct c'; cbn in Heq; discriminate.
  - destruct c; cbn in Heq; discriminate.
  - destruct c, c'; cbn in Heq; try discriminate;
      injection Heq as Heq; destruct (IH l2 Heq) as [-> ->]; now split.
Qed.

(** X15: two patterns get the same hash exactly when they agree on the last
    five entries of [lastMoves] and on [totalMoves]: the cache key neither
    separates such patterns nor confuses any others. *)
Theorem patternHash_eq_iff (p q : PlayerPattern) :
  generatePatternHash p = generatePatternHash q
  <-> slice_last 5 (lastMoves p) = slice_last 5 (lastMoves q)
      /\ totalMoves p = totalMoves q.
Proof.
  unfold generatePatternHash. split.
  - intros Heq. apply base64_inj, pattern_key_inj in Heq as [Htail Hcount].
    split; [exact Htail|]. now apply number_to_string_inj.
  - intros [-> ->]. reflexivity.
Qed.

(** ** Rounds *)

(** X16: the rules are symmetric between the two sides: a round is a tie
    exactly when both play the same symbol, the player wins [a] against [b]
    exactly when the AI wins [b] against [a], and countering three times, or
    countering what a symbol beats, gives the symbol back. *)
Theorem rules_are_symmetric (a b : GameChoice) :
  (determineWinner a b = tie <-> a = b)
  /\ (determineWinner a b = player <-> determineWinner b a = ai)
  /\ getCounterMove (getCounterMove (getCounterMove a)) = a
  /\ getCounterMove (get a GAME_RULES) = a.
Proof.
  repeat split; destruct a, b; cbn; try reflexivity; try discriminate;
    intros H; discriminate H.
Qed.

(** What a successful [processMove] found and what it left behind. *)
Lemma processMove_returns_inv (id pid : string)
    (played predicted : GameChoice) (confidence now : Z)
    (m m' : GameManager.Manager) (move : GameMove) :
  GameManager.processMove id pid played predicted confidence now m
  = Returns (move, m') ->
  exists game,
    fst (GameManager.getGame id m) = Some game
    /\ status game = playing
    /\ game_playerId game = pid
    /\ move = {| playerId := pid; choice := played; timestamp := now;
                 aiPrediction := predicted;
                 aiChoice := getCounterMove predicted;
                 aiConfidence := confidence;
                 correct := bool_decide (predicted = played);
                 winner :=
                   determineWinner played (getCounterMove predicted) |}
    /\ m' = {| GameManager.games :=
                 <[id := GameManager.recordMove move game]>
                   (GameManager.games (snd (GameManager.getGame id m)));
               GameManager.redis := GameManager.redis m' |}
    /\ redisOps.json (GameManager.redis m')
       = <[redisOps.GAME_KEY (gameId game)
           := GameManager.recordMove move game]>
           (redisOps.json
              (GameManager.redis (snd (GameManager.getGame id m))))
    /\ redisOps.counters (GameManager.redis m')
       = let counted :=
           redisOps.counters
             (redisOps.incrementMetric "total_moves"
                (GameManager.redis (snd (GameManager.getGame id m)))) in
         if bool_decide (predicted = played)
         then <["metric:ai_correct_predictions" :=
                  default 0 (counted !! "metric:ai_correct_predictions") + 1]>
                counted
         else counted.
Proof.
  unfold GameManager.processMove. intros Hrun.
  destruct (GameManager.getGame id m) as [[game|] m1]; [|discriminate].
  destruct (bool_decide (status game = playing)) eqn:Hstatus;
    [|discriminate].
  destruct (String.eqb (game_playerId game) pid) eqn:Hpid; [|discriminate].
  cbn [negb] in Hrun. injection Hrun as <- <-.
  exists game. cbn [fst snd].
  apply bool_decide_eq_true in Hstatus. apply String.eqb_eq in Hpid.
  split; [reflexivity|]. split; [exact Hstatus|]. split; [exact Hpid|].
  split; [reflexivity|]. split; [reflexivity|].
  cbn [GameManager.redis].
  split; now destruct (bool_decide (predicted = played)).
Qed.

(** X17: in every round [processMove] records, the AI wins exactly when its
    prediction was the player's choice; the round is a tie exactly when the
    player chose the counter to the prediction (what the AI plays); and the
    player wins exactly when the choice is the symbol the prediction
    beats. *)
Theorem round_outcome (id pid : string) (played predicted : GameChoice)
    (confidence now : Z) (m m' : GameManager.Manager) (move : GameMove) :
  GameManager.processMove id pid played predicted confidence now m
  = Returns (move, m') ->
  (winner move = ai <-> played = predicted)
  /\ (winner move = tie <-> played = getCounterMove predicted)
  /\ (winner move = player <-> played = get predicted GAME_RULES)
  /\ (correct move = true <-> winner move = ai).
Proof.
  intros Hrun.
  destruct (processMove_returns_inv _ _ _ _ _ _ _ _ _ Hrun)
    as (game & _ & _ & _ & -> & _).
  cbn [winner correct]. rewrite bool_decide_eq_true.
  repeat split; destruct played, predicted; cbn; intros H;
    try reflexivity; try discriminate H; try congruence.
Qed.

(** ** The game registry *)

Lemma GAME_KEY_inj (a b : string) :
  redisOps.GAME_KEY a = redisOps.GAME_KEY b -> a = b.
Proof. unfold redisOps.GAME_KEY. cbn. intros Heq. now injection Heq. Qed.

Lemma wins_snoc (who : Winner) (ms : list GameMove) (m : GameMove) :
  wins who (ms ++ [m])
  = wins who ms + (if decide (winner m = who) then 1 else 0).
Proof.
  unfold wins, len. rewrite List.filter_app, length_app.
  cbn [List.filter]. destruct (decide (winner m = who)) as [Hw|Hw].
  - rewrite bool_decide_eq_true_2 by exact Hw. cbn [List.length]. lia.
  - rewrite bool_decide_eq_false_2 by exact Hw. cbn [List.length]. lia.
Qed.

Lemma recordMove_consistent (move : GameMove) (game : GameState) :
  game_consistent game ->
  move_by_rules move ->
  playerId move = game_playerId game ->
  game_consistent (GameManager.recordMove move game).
Proof.
  intros (Hplayer & Hai & Hstreak & Hrules & Hpid) Hmove Hmine.
  unfold game_consistent, GameManager.recordMove.
  cbn [playerScore aiScore currentStreak moves game_playerId].
  rewrite !wins_snoc. unfold streak_after. rewrite fold_left_app.
  cbn [fold_left]. fold (streak_after (moves game)).
  repeat split.
  - destruct (winner move); destruct (decide _); try congruence; lia.
  - destruct (winner move); destruct (decide _); try congruence; lia.
  - destruct (winner move); lia.
  - apply Forall_app. split; [exact Hrules|]. now constructor.
  - apply Forall_app. split; [exact Hpid|]. now constructor.
Qed.

Lemma finish_consistent (game : GameState) :
  game_consistent game -> game_consistent (Server.finish game).
Proof. intros Hgame. exact Hgame. Qed.

Lemma registry_insert (m : GameManager.Manager) (id : string)
    (game : GameState) (streams : gmap string (list GameMove))
    (counters : gmap string Z) :
  registry_ok m -> gameId game = id -> game_consistent game ->
  registry_ok
    {| GameManager.games := <[id := game]> (GameManager.games m);
       GameManager.redis :=
         {| redisOps.json :=
              <[redisOps.GAME_KEY id := game]>
                (redisOps.json (GameManager.redis m));
            redisOps.streams := streams;
            redisOps.counters := counters |} |}.
Proof.
  intros (Hgames & Hjson & Hsame) Hid Hgame.
  unfold registry_ok. cbn [GameManager.games GameManager.redis redisOps.json].
  split; [|split].
  - intros id' g Hlookup. apply lookup_insert_Some in Hlookup
      as [[<- <-]|[Hne Hlookup]]; [now split|]. now apply Hgames.
  - intros key g Hlookup. apply lookup_insert_Some in Hlookup
      as [[<- <-]|[Hne Hlookup]]; [|now apply Hjson].
    split; [now rewrite Hid|exact Hgame].
  - intros id' g g' Hg Hg'.
    apply lookup_insert_Some in Hg as [[<- <-]|[Hne Hg]].
    + rewrite lookup_insert_eq in Hg'. now injection Hg'.
    + rewrite lookup_insert_ne in Hg'
        by (intros Hkey; apply GAME_KEY_inj in Hkey; congruence).
      now apply (Hsame id').
Qed.

Lemma registry_same_games (m : GameManager.Manager)
    (streams : gmap string (list GameMove)) (counters : gmap string Z) :
  registry_ok m ->
  registry_ok
    {| GameManager.games := GameManager.games m;
       GameManager.redis :=
         {| redisOps.json := redisOps.json (GameManager.redis m);
            redisOps.streams := streams;
            redisOps.counters := counters |} |}.
Proof. intros Hok. exact Hok. Qed.

(** [getGame] keeps the registry in order, leaves Redis alone, and files
    what it found under the id in memory. *)
Lemma getGame_spec (id : string) (m : GameManager.Manager) :
  registry_ok m ->
  registry_ok (snd (GameManager.getGame id m))
  /\ GameManager.redis (snd (GameManager.getGame id m)) = GameManager.redis m
  /\ GameManager.games (snd (GameManager.getGame id m)) !! id
     = fst (GameManager.getGame id m)
  /\ (forall game,
         fst (GameManager.getGame id m) = Some game ->
         gameId game = id /\ game_consistent game).
Proof.
  intros Hok. pose proof Hok as (Hgames & Hjson & Hsame).
  unfold GameManager.getGame.
  destruct (GameManager.games m !! id) as [game|] eqn:Hmem; cbn [fst snd].
  - split; [exact Hok|]. split; [reflexivity|]. split; [exact Hmem|].
    intros found Hfound. injection Hfound as <-. now apply (Hgames id).
  - unfold redisOps.getGameState.
    destruct (redisOps.json (GameManager.redis m) !! redisOps.GAME_KEY id)
      as [game|] eqn:Hredis; cbn [fst snd].
    + destruct (Hjson _ _ Hredis) as [Hkey Hgame].
      apply GAME_KEY_inj in Hkey.
      split; [|split; [reflexivity|split]].
      * unfold registry_ok.
        cbn [GameManager.games GameManager.redis]. split; [|split].
        -- intros id' g Hlookup. apply lookup_insert_Some in Hlookup
             as [[<- <-]|[Hne Hlookup]]; [now split|]. now apply Hgames.
        -- exact Hjson.
        -- intros id' g g' Hg Hg'.
           apply lookup_insert_Some in Hg as [[<- <-]|[Hne Hg]].
           ++ rewrite Hredis in Hg'. now injection Hg'.
           ++ now apply (Hsame id').
      * cbn [GameManager.games]. apply lookup_insert_eq.
      * intros found Hfound. injection Hfound as <-. now split.
    + split; [exact Hok|]. split; [reflexivity|]. split; [exact Hmem|].
      intros found Hfound. discriminate Hfound.
Qed.

Lemma metric_unchanged (name : string) (m m' : GameManager.Manager) :
  redisOps.counters (GameManager.redis m')
  = redisOps.counters (GameManager.redis m) ->
  metric name m' = metric name m.
Proof. unfold metric. now intros ->. Qed.

(** A manager-level [processMove] keeps the registry and the metrics in
    order. *)
Lemma processMove_preserves (id pid : string)
    (played predicted : GameChoice) (confidence now : Z)
    (m m' : GameManager.Manager) (move : GameMove) :
  registry_ok m -> metrics_ok m ->
  GameManager.processMove id pid played predicted confidence now m
  = Returns (move, m') ->
  registry_ok m' /\ metrics_ok m'.
Proof.
  intros Hok Hmetrics Hrun.
  destruct (processMove_returns_inv _ _ _ _ _ _ _ _ _ Hrun)
    as (game & Hfound & Hstatus & Hpid & Hmove & Hm' & Hjson & Hcounters).
  destruct (getGame_spec id m Hok) as (Hok1 & Hredis1 & Hmem1 & Hgame1).
  destruct (Hgame1 game Hfound) as [Hid Hgame].
  assert (game_consistent (GameManager.recordMove move game)) as Hgame'.
  { apply recordMove_consistent; [exact Hgame| |].
    - rewrite Hmove. now repeat split.
    - rewrite Hmove. cbn. now symmetry. }
  split.
  - rewrite Hm'.
    replace (GameManager.redis m')
      with {| redisOps.json :=
                <[redisOps.GAME_KEY id := GameManager.recordMove move game]>
                  (redisOps.json
                     (GameManager.redis (snd (GameManager.getGame id m))));
              redisOps.streams := redisOps.streams (GameManager.redis m');
              redisOps.counters := redisOps.counters (GameManager.redis m') |}.
    + apply registry_insert; [exact Hok1|exact Hid|exact Hgame'].
    + destruct (GameManager.redis m') as [json streams counters].
      cbn [redisOps.json redisOps.streams redisOps.counters] in *.
      now rewrite Hjson, Hid.
  - unfold metrics_ok, metric in *.
    cbn zeta in Hcounters. rewrite Hredis1 in Hcounters.
    cbn [redisOps.incrementMetric redisOps.counters] in Hcounters.
    change ("metric:" ++ "total_moves") with "metric:total_moves" in *.
    change ("metric:" ++ "ai_correct_predictions")
      with "metric:ai_correct_predictions" in *.
    destruct (bool_decide (predicted = played)); rewrite Hcounters;
      rewrite !lookup_insert; repeat case_decide;
      try discriminate; try congruence; unfold default, Datatypes.id in *; lia.
Qed.

(** ** The server as a whole *)

Lemma registry_delete_memory (m : GameManager.Manager) (id : string) :
  registry_ok m ->
  registry_ok
    {| GameManager.games := delete id (GameManager.games m);
       GameManager.redis := GameManager.redis m |}.
Proof.
  intros (Hgames & Hjson & Hsame). unfold registry_ok.
  cbn [GameManager.games GameManager.redis]. split; [|split].
  - intros id' g Hlookup. apply lookup_delete_Some in Hlookup as [_ Hlookup].
    now apply Hgames.
  - exact Hjson.
  - intros id' g g' Hg Hg'. apply lookup_delete_Some in Hg as [_ Hg].
    now apply (Hsame id').
Qed.

Lemma registry_delete_json (m : GameManager.Manager) (key : string) :
  registry_ok m ->
  registry_ok
    {| GameManager.games := GameManager.games m;
       GameManager.redis :=
         {| redisOps.json := delete key (redisOps.json (GameManager.redis m));
            redisOps.streams := redisOps.streams (GameManager.redis m);
            redisOps.counters := redisOps.counters (GameManager.redis m) |} |}.
Proof.
  intros (Hgames & Hjson & Hsame). unfold registry_ok.
  cbn [GameManager.games GameManager.redis redisOps.json]. split; [|split].
  - exact Hgames.
  - intros k g Hlookup. apply lookup_delete_Some in Hlookup as [_ Hlookup].
    now apply Hjson.
  - intros id' g g' Hg Hg'. apply lookup_delete_Some in Hg' as [_ Hg'].
    now apply (Hsame id').
Qed.

Lemma getPlayerPattern_manager (id : string) (s : Server.State) :
  Server.manager (snd (Server.getPlayerPattern id s))
  = snd (GameManager.getGame id (Server.manager s)).
Proof.
  unfold Server.getPlayerPattern, Server.getGame.
  destruct (GameManager.getGame id (Server.manager s)) as [[game|] m];
    reflexivity.
Qed.

Lemma getAIPrediction_manager (id : string) (w : World) (s : Server.State) :
  Server.manager (snd (Server.getAIPrediction id w s))
  = snd (GameManager.getGame id (Server.manager s)).
Proof.
  unfold Server.getAIPrediction, Server.getGame.
  destruct (GameManager.getGame id (Server.manager s)) as [[game|] m];
    [|reflexivity].
  destruct (negb _); [reflexivity|].
  destruct (redisMore.getCachedAnalysis _ _); [reflexivity|].
  now destruct (predictNextMove _ _ _).
Qed.

Lemma getGame_metrics (id : string) (m : GameManager.Manager) :
  registry_ok m -> metrics_ok m ->
  metrics_ok (snd (GameManager.getGame id m)).
Proof.
  intros Hok Hmetrics. destruct (getGame_spec id m Hok) as (_ & Hredis & _).
  unfold metrics_ok, metric in *. now rewrite Hredis.
Qed.

(** What a successful [endGame] found and what it left behind. *)
Lemma endGame_manager (id : string) (now : Z) (s : Server.State) :
  match fst (GameManager.getGame id (Server.manager s)) with
  | None =>
      Server.endGame id now s
      = (Throws (Error "Game not found"),
         Server.with_manager (snd (GameManager.getGame id (Server.manager s)))
           s)
  | Some game =>
      fst (Server.endGame id now s) = Returns (Server.finish game)
      /\ Server.manager (snd (Server.endGame id now s))
         = {| GameManager.games :=
                delete id
                  (GameManager.games
                     (snd (GameManager.getGame id (Server.manager s))));
              GameManager.redis :=
                redisOps.saveGameState (Server.finish game)
                  (GameManager.redis
                     (snd (GameManager.getGame id (Server.manager s)))) |}
  end.
Proof.
  unfold Server.endGame, Server.getGame.
  destruct (GameManager.getGame id (Server.manager s)) as [[game|] m];
    cbn [fst snd]; [|reflexivity].
  unfold Server.getPlayerPattern, Server.getGame, GameManager.getGame.
  cbn [Server.manager Server.with_manager GameManager.games].
  rewrite lookup_insert_eq. cbn [fst snd Server.with_store Server.manager
                                 Server.with_manager GameManager.games
                                 GameManager.redis].
  split; [reflexivity|].
  f_equal. apply delete_insert_eq.
Qed.

(** The registry and the metrics are in order in every state the server
    can reach. *)
Lemma reachable_ok (s : Server.State) :
  Server.reachable s ->
  registry_ok (Server.manager s) /\ metrics_ok (Server.manager s).
Proof.
  induction 1 as [|s s' _ [Hok Hmetrics] Hstep].
  - split.
    + unfold registry_ok.
      cbn [Server.initial Server.manager GameManager.games
           GameManager.redis redisOps.json].
      split; [|split]; intros * Hlookup; rewrite lookup_empty in Hlookup;
        discriminate.
    + unfold metrics_ok, metric.
      cbn [Server.initial Server.manager GameManager.redis
           redisOps.counters].
      rewrite !lookup_empty. cbn. lia.
  - destruct Hstep
      as [pid key s|id now pid name s|id s|id pid played predicted conf now s
         |id s|id w s|id now s|key s|key s].
    + now split.
    + split; [|exact Hmetrics].
      unfold Server.createGame, redisOps.saveGameState.
      cbn [snd Server.manager Server.with_manager gameId].
      apply registry_insert; [exact Hok|reflexivity|].
      unfold game_consistent, wins, streak_after. cbn.
      repeat split; constructor.
    + unfold Server.getGame.
      destruct (getGame_spec id (Server.manager s) Hok) as (Hok' & _).
      pose proof (getGame_metrics id _ Hok Hmetrics) as Hmetrics'.
      destruct (GameManager.getGame id (Server.manager s)) as [found m].
      now split.
    + unfold Server.processMove.
      destruct (GameManager.processMove id pid played predicted conf now
                  (Server.manager s)) as [[move m]|e] eqn:Hrun.
      * cbn [snd Server.manager Server.with_manager].
        exact (processMove_preserves _ _ _ _ _ _ _ _ _ Hok Hmetrics Hrun).
      * cbn [snd]. unfold Server.getGame.
        destruct (getGame_spec id (Server.manager s) Hok) as (Hok' & _).
        pose proof (getGame_metrics id _ Hok Hmetrics) as Hmetrics'.
        destruct (GameManager.getGame id (Server.manager s)) as [found m].
        now split.
    + rewrite getPlayerPattern_manager.
      destruct (getGame_spec id (Server.manager s) Hok) as (Hok' & _).
      split; [exact Hok'|]. now apply getGame_metrics.
    + rewrite getAIPrediction_manager.
      destruct (getGame_spec id (Server.manager s) Hok) as (Hok' & _).
      split; [exact Hok'|]. now apply getGame_metrics.
    + pose proof (endGame_manager id now s) as Hend.
      destruct (getGame_spec id (Server.manager s) Hok)
        as (Hok' & Hredis & _ & Hfound).
      pose proof (getGame_metrics id _ Hok Hmetrics) as Hmetrics'.
      destruct (fst (GameManager.getGame id (Server.manager s)))
        as [game|].
      * destruct Hend as [_ ->].
        destruct (Hfound game eq_refl) as [Hid Hgame].
        split.
        -- assert (registry_ok
                     {| GameManager.games :=
                          <[id := Server.finish game]>
                            (GameManager.games
                               (snd (GameManager.getGame id
                                       (Server.manager s))));
                        GameManager.redis :=
                          redisOps.saveGameState (Server.finish game)
                            (GameManager.redis
                               (snd (GameManager.getGame id
                                       (Server.manager s)))) |})
             as Hinserted.
           { unfold redisOps.saveGameState.
             replace (gameId (Server.finish game)) with id
               by (now rewrite <- Hid).
             apply registry_insert;
               [exact Hok'|exact Hid|now apply finish_consistent]. }
           pose proof (registry_delete_memory _ id Hinserted) as Hdeleted.
           cbn [GameManager.games GameManager.redis] in Hdeleted.
           now rewrite delete_insert_eq in Hdeleted.
        -- unfold metrics_ok, metric in *.
           cbn [GameManager.redis redisOps.saveGameState redisOps.counters].
           exact Hmetrics'.
      * rewrite Hend. cbn [snd Server.manager Server.with_manager].
        now split.
    + split; [now apply registry_delete_json|exact Hmetrics].
    + now split.
Qed.

(** X18: in every state the server can reach, the bookkeeping of each game
    held in memory or in Redis agrees with its list of moves: the scores are
    the numbers of rounds the player and the AI have won, the streak is the
    number of player wins since the AI's last win, and every recorded move
    follows the rules and belongs to the game's player. *)
Theorem stored_games_consistent (s : Server.State) (g : GameState) :
  Server.reachable s ->
  (exists id, GameManager.games (Server.manager s) !! id = Some g)
  \/ (exists key,
         redisOps.json (GameManager.redis (Server.manager s)) !! key
         = Some g) ->
  playerScore g = wins player (moves g)
  /\ aiScore g = wins ai (moves g)
  /\ currentStreak g = streak_after (moves g)
  /\ Forall move_by_rules (moves g)
  /\ Forall (fun m => playerId m = game_playerId g) (moves g).
Proof.
  intros Hreach Hstored.
  destruct (reachable_ok s Hreach) as [(Hgames & Hjson & _) _].
  destruct Hstored as [[id Hlookup]|[key Hlookup]].
  - now apply (Hgames id).
  - now apply (Hjson key).
Qed.

(** X19: in every state the server can reach, a game is filed under its own
    id, in memory and in Redis, and a game held in memory is identical to
    its Redis document as long as that has not expired: the two copies never
    disagree. *)
Theorem memory_agrees_with_redis (s : Server.State) (id : string)
    (g : GameState) :
  Server.reachable s ->
  GameManager.games (Server.manager s) !! id = Some g ->
  gameId g = id
  /\ match redisOps.getGameState id (GameManager.redis (Server.manager s))
     with
     | Some document => document = g
     | None => True
     end.
Proof.
  intros Hreach Hlookup.
  destruct (reachable_ok s Hreach) as [(Hgames & _ & Hsame) _].
  split; [now apply (Hgames id)|].
  unfold redisOps.getGameState.
  destruct (redisOps.json (GameManager.redis (Server.manager s))
            !! redisOps.GAME_KEY id) as [document|] eqn:Hdoc; [|exact I].
  symmetry. now apply (Hsame id).
Qed.

(** X20: in every state the server can reach, the counter of correct
    predictions is at most the counter of processed moves, and neither is
    negative. *)
Theorem correct_predictions_le_moves (s : Server.State) :
  Server.reachable s ->
  0 <= metric "ai_correct_predictions" (Server.manager s)
  /\ metric "ai_correct_predictions" (Server.manager s)
     <= metric "total_moves" (Server.manager s).
Proof.
  intros Hreach. destruct (reachable_ok s Hreach) as [_ Hmetrics].
  exact Hmetrics.
Qed.

(** ** Single calls of the game manager *)

(** X21: a game just created is a playing game without moves and with both
    scores at 0; [getGame] finds it at once, and it is also found from
    Redis by a manager whose memory is empty. *)
Theorem created_game_is_found (id : string) (now : Z) (pid : string)
    (name : option string) (s : Server.State) :
  let game := fst (Server.createGame id now pid name s) in
  let s' := snd (Server.createGame id now pid name s) in
  gameId game = id /\ game_playerId game = pid
  /\ status game = playing /\ moves game = []
  /\ playerScore game = 0 /\ aiScore game = 0
  /\ fst (Server.getGame id s') = Some game
  /\ fst (GameManager.getGame id
            {| GameManager.games := ∅;
               GameManager.redis := GameManager.redis (Server.manager s') |})
     = Some game.
Proof.
  cbn zeta. unfold Server.createGame, Server.getGame, GameManager.getGame.
  cbn [fst snd Server.manager Server.with_manager GameManager.games
       GameManager.redis gameId game_playerId status moves playerScore
       aiScore].
  rewrite lookup_insert_eq, lookup_empty.
  unfold redisOps.getGameState, redisOps.saveGameState.
  cbn [redisOps.json gameId]. rewrite lookup_insert_eq.
  repeat split.
Qed.

(** Why [processMove] refuses, and what a refused call can have added. *)
Lemma processMove_refused (id pid : string)
    (played predicted : GameChoice) (confidence now : Z) (s : Server.State)
    (e : Exception) :
  fst (Server.processMove id pid played predicted confidence now s)
  = Throws e ->
  let s' := snd (Server.processMove id pid played predicted confidence now s)
  in
  (match fst (Server.getGame id s) with
   | None => e = Error "Game not found or not active"
   | Some game =>
       (status game <> playing /\ e = Error "Game not found or not active")
       \/ (status game = playing /\ game_playerId game <> pid
           /\ e = Error "Player not authorized for this game")
   end)
  /\ GameManager.redis (Server.manager s')
     = GameManager.redis (Server.manager s)
  /\ Server.store s' = Server.store s
  /\ Server.playerApiKeys s' = Server.playerApiKeys s
  /\ (forall id' g,
         GameManager.games (Server.manager s') !! id' = Some g ->
         GameManager.games (Server.manager s) !! id' = Some g
         \/ (id' = id
             /\ redisOps.getGameState id
                  (GameManager.redis (Server.manager s)) = Some g)).
Proof.
  unfold Server.processMove, Server.getGame, GameManager.processMove,
    GameManager.getGame.
  destruct (GameManager.games (Server.manager s) !! id) as [game|] eqn:Hmem.
  - destruct (bool_decide (status game = playing)) eqn:Hstatus;
      cbn [negb fst snd].
    + destruct (String.eqb (game_playerId game) pid) eqn:Hpid;
        cbn [negb fst snd]; [discriminate|].
      intros [= <-]. apply bool_decide_eq_true in Hstatus.
      apply String.eqb_neq in Hpid.
      split; [right; now repeat split|]. repeat split. intros id' g Hg.
      now left.
    + intros [= <-]. apply bool_decide_eq_false in Hstatus.
      split; [left; now split|]. repeat split. intros id' g Hg. now left.
  - destruct (redisOps.getGameState id
                (GameManager.redis (Server.manager s))) as [game|] eqn:Hdoc.
    + destruct (bool_decide (status game = playing)) eqn:Hstatus;
        cbn [negb fst snd].
      * destruct (String.eqb (game_playerId game) pid) eqn:Hpid;
          cbn [negb fst snd]; [discriminate|].
        intros [= <-]. apply bool_decide_eq_true in Hstatus.
        apply String.eqb_neq in Hpid.
        split; [right; now repeat split|]. repeat split.
        intros id' g Hg.
        cbn [Server.manager Server.with_manager GameManager.games] in Hg.
        apply lookup_insert_Some in Hg as [[<- <-]|[_ Hg]];
          [now right|now left].
      * intros [= <-]. apply bool_decide_eq_false in Hstatus.
        split; [left; now split|]. repeat split. intros id' g Hg.
        cbn [Server.manager Server.with_manager GameManager.games] in Hg.
        apply lookup_insert_Some in Hg as [[<- <-]|[_ Hg]];
          [now right|now left].
    + cbn [fst snd]. intros [= <-]. split; [reflexivity|]. repeat split.
      intros id' g Hg. now left.
Qed.

Lemma getGame_keeps_games (id id' : string) (g : GameState)
    (m : GameManager.Manager) :
  GameManager.games m !! id' = Some g ->
  GameManager.games (snd (GameManager.getGame id m)) !! id' = Some g.
Proof.
  intros Hheld. unfold GameManager.getGame.
  destruct (GameManager.games m !! id) as [game|] eqn:Hmem;
    [exact Hheld|].
  destruct (redisOps.getGameState id (GameManager.redis m)) as [game|];
    [|exact Hheld].
  cbn [snd GameManager.games]. rewrite lookup_insert_ne; [exact Hheld|].
  intros <-. congruence.
Qed.

(** X22: [processMove] refuses a move in three cases only: no game is filed
    under the id (in memory or Redis) or the game is not being played, with
    the message [Game not found or not active]; or the game belongs to
    another player, with [Player not authorized for this game].  A refused
    move leaves Redis, the API keys and every game as they were: every game
    held in memory before is held unchanged afterwards, and the only game
    that can be new in memory is the Redis document of the id that was
    asked for. *)
Theorem refused_move_changes_nothing (id pid : string)
    (played predicted : GameChoice) (confidence now : Z) (s : Server.State)
    (e : Exception) :
  fst (Server.processMove id pid played predicted confidence now s)
  = Throws e ->
  let s' := snd (Server.processMove id pid played predicted confidence now s)
  in
  (match fst (Server.getGame id s) with
   | None => e = Error "Game not found or not active"
   | Some game =>
       (status game <> playing /\ e = Error "Game not found or not active")
       \/ (status game = playing /\ game_playerId game <> pid
           /\ e = Error "Player not authorized for this game")
   end)
  /\ GameManager.redis (Server.manager s')
     = GameManager.redis (Server.manager s)
  /\ Server.store s' = Server.store s
  /\ Server.playerApiKeys s' = Server.playerApiKeys s
  /\ (forall id' g,
         GameManager.games (Server.manager s) !! id' = Some g ->
         GameManager.games (Server.manager s') !! id' = Some g)
  /\ (forall id' g,
         GameManager.games (Server.manager s') !! id' = Some g ->
         GameManager.games (Server.manager s) !! id' = Some g
         \/ (id' = id
             /\ redisOps.getGameState id
                  (GameManager.redis (Server.manager s)) = Some g)).
Proof.
  intros Hrun.
  destruct (processMove_refused id pid played predicted confidence now s e
              Hrun) as (Hwhy & Hredis & Hstore & Hkeys & Hnew).
  cbn zeta. split; [exact Hwhy|]. split; [exact Hredis|].
  split; [exact Hstore|]. split; [exact Hkeys|]. split; [|exact Hnew].
  intros id' g Hheld. unfold Server.processMove in *.
  destruct (GameManager.processMove id pid played predicted confidence now
              (Server.manager s)) as [[move m]|e']; [discriminate|].
  cbn [snd]. unfold Server.getGame.
  pose proof (getGame_keeps_games id id' g (Server.manager s) Hheld)
    as Hkept.
  destruct (GameManager.getGame id (Server.manager s)) as [found m].
  exact Hkept.
Qed.

Lemma getGame_again (id : string) (m : GameManager.Manager) :
  GameManager.getGame id (snd (GameManager.getGame id m))
  = GameManager.getGame id m.
Proof.
  unfold GameManager.getGame.
  destruct (GameManager.games m !! id) as [game|] eqn:Hmem; cbn [snd].
  - now rewrite Hmem.
  - destruct (redisOps.getGameState id (GameManager.redis m))
      as [game|] eqn:Hdoc; cbn [snd GameManager.games].
    + now rewrite lookup_insert_eq.
    + now rewrite Hmem, Hdoc.
Qed.

(** Every call is a step of the server. *)
Lemma after_call_step (c : Call) (s : Server.State) :
  Server.step s (after_call c s).
Proof. destruct c; cbn [after_call]; constructor. Qed.

Lemma after_calls_reachable (calls : list Call) (s : Server.State) :
  Server.reachable s -> Server.reachable (after_calls calls s).
Proof.
  revert s. induction calls as [|c calls IH]; intros s Hreach;
    [exact Hreach|].
  cbn [after_calls fold_left]. apply IH.
  exact (Server.reachable_step _ _ Hreach (after_call_step c s)).
Qed.

(** Looking a game up retires none and revives none. *)
Lemma getGame_retired (id id' : string) (m : GameManager.Manager) :
  retired id m -> retired id (snd (GameManager.getGame id' m)).
Proof.
  intros [Hmem Hdoc]. unfold GameManager.getGame.
  destruct (GameManager.games m !! id') as [game|]; [now split|].
  destruct (redisOps.getGameState id' (GameManager.redis m))
    as [game|] eqn:Hfound; [|now split].
  cbn [snd]. split; [|exact Hdoc].
  intros g Hg. cbn [GameManager.games] in Hg.
  apply lookup_insert_Some in Hg as [[<- <-]|[_ Hg]].
  - now apply Hdoc.
  - now apply Hmem.
Qed.

(** A retired game stays retired through every call that does not create
    a game under its id. *)
Lemma after_call_retired (id : string) (c : Call) (s : Server.State) :
  registry_ok (Server.manager s) ->
  retired id (Server.manager s) ->
  ~ creates id c ->
  retired id (Server.manager (after_call c s)).
Proof.
  intros Hok Hretired Hother.
  destruct c as [pid key|id' now pid name|id'|id' pid played predicted conf
                 now|id'|id' w|id' now|key|key]; cbn [after_call].
  - exact Hretired.
  - cbn [creates] in Hother. destruct Hretired as [Hmem Hdoc].
    unfold retired, Server.createGame, redisOps.saveGameState,
      redisOps.getGameState in *.
    cbn [snd Server.manager Server.with_manager GameManager.games
         GameManager.redis redisOps.json gameId].
    split; intros g Hg.
    + rewrite lookup_insert_ne in Hg by exact Hother. now apply Hmem.
    + rewrite lookup_insert_ne in Hg
        by (intros Hkey; apply GAME_KEY_inj in Hkey; congruence).
      now apply Hdoc.
  - unfold Server.getGame.
    pose proof (getGame_retired id id' _ Hretired) as Hkept.
    destruct (GameManager.getGame id' (Server.manager s)) as [found m].
    exact Hkept.
  - unfold Server.processMove.
    pose proof (getGame_retired id id' _ Hretired) as Hkept.
    destruct (GameManager.processMove id' pid played predicted conf now
                (Server.manager s)) as [[move m]|e] eqn:Hrun.
    + cbn [snd Server.manager Server.with_manager].
      destruct (processMove_returns_inv _ _ _ _ _ _ _ _ _ Hrun)
        as (game & Hfound & Hstatus & _ & _ & Hm & Hjson & _).
      destruct (getGame_spec id' (Server.manager s) Hok)
        as (_ & _ & Hheld & Hgame).
      destruct (Hgame game Hfound) as [Hid _].
      destruct Hkept as [Hmem Hdoc].
      assert (id' <> id) as Hne.
      { intros ->. apply (Hmem game); [|exact Hstatus].
        now rewrite Hheld. }
      split; intros g Hg.
      * rewrite Hm in Hg. cbn [GameManager.games] in Hg.
        rewrite lookup_insert_ne in Hg by exact Hne. now apply Hmem.
      * unfold redisOps.getGameState in Hg. rewrite Hjson in Hg.
        rewrite lookup_insert_ne in Hg
          by (intros Hkey; apply GAME_KEY_inj in Hkey; congruence).
        now apply Hdoc.
    + cbn [snd]. unfold Server.getGame.
      destruct (GameManager.getGame id' (Server.manager s)) as [found m].
      exact Hkept.
  - rewrite getPlayerPattern_manager. now apply getGame_retired.
  - rewrite getAIPrediction_manager. now apply getGame_retired.
  - pose proof (endGame_manager id' now s) as Hend.
    pose proof (getGame_retired id id' _ Hretired) as [Hmem Hdoc].
    destruct (fst (GameManager.getGame id' (Server.manager s)))
      as [game|].
    + destruct Hend as [_ ->]. split; intros g Hg.
      * cbn [GameManager.games] in Hg.
        apply lookup_delete_Some in Hg as [_ Hg]. now apply Hmem.
      * unfold redisOps.getGameState, redisOps.saveGameState in Hg.
        cbn [GameManager.redis redisOps.json] in Hg.
        apply lookup_insert_Some in Hg as [[_ <-]|[_ Hg]].
        -- discriminate.
        -- now apply Hdoc.
    + rewrite Hend. cbn [snd Server.manager Server.with_manager].
      now split.
  - destruct Hretired as [Hmem Hdoc]. split; [exact Hmem|].
    intros g Hg. unfold Server.expireGame, redisOps.getGameState in Hg.
    cbn [Server.manager Server.with_manager GameManager.redis
         redisOps.json] in Hg.
    apply lookup_delete_Some in Hg as [_ Hg]. now apply Hdoc.
  - exact Hretired.
Qed.

Lemma after_calls_retired (id : string) (calls : list Call)
    (s : Server.State) :
  Server.reachable s ->
  retired id (Server.manager s) ->
  Forall (fun c => ~ creates id c) calls ->
  retired id (Server.manager (after_calls calls s)).
Proof.
  revert s. induction calls as [|c calls IH]; intros s Hreach Hretired Hall;
    [exact Hretired|].
  inversion Hall as [|c' calls' Hother Hrest]; subst.
  cbn [after_calls fold_left]. apply IH.
  - exact (Server.reachable_step _ _ Hreach (after_call_step c s)).
  - apply after_call_retired; [|exact Hretired|exact Hother].
    now destruct (reachable_ok s Hreach).
  - exact Hrest.
Qed.

(** Moves and predictions for a retired game are refused. *)
Lemma retired_refuses (id : string) (s : Server.State) :
  retired id (Server.manager s) ->
  (forall pid played predicted confidence now,
      fst (Server.processMove id pid played predicted confidence now s)
      = Throws (Error "Game not found or not active"))
  /\ (forall w,
         fst (Server.getAIPrediction id w s)
         = Throws (Error "Game not found or not active")).
Proof.
  intros [Hmem Hdoc]. split.
  - intros pid played predicted confidence now.
    unfold Server.processMove, GameManager.processMove, GameManager.getGame.
    destruct (GameManager.games (Server.manager s) !! id) as [game|]
      eqn:Hheld.
    + rewrite (bool_decide_eq_false_2 _ (Hmem game eq_refl)). reflexivity.
    + destruct (redisOps.getGameState id
                  (GameManager.redis (Server.manager s))) as [game|]
        eqn:Hfound; [|reflexivity].
      rewrite (bool_decide_eq_false_2 _ (Hdoc game eq_refl)). reflexivity.
  - intros w.
    unfold Server.getAIPrediction, Server.getGame, GameManager.getGame.
    destruct (GameManager.games (Server.manager s) !! id) as [game|]
      eqn:Hheld.
    + rewrite (bool_decide_eq_false_2 _ (Hmem game eq_refl)). reflexivity.
    + destruct (redisOps.getGameState id
                  (GameManager.redis (Server.manager s))) as [game|]
        eqn:Hfound; [|reflexivity].
      rewrite (bool_decide_eq_false_2 _ (Hdoc game eq_refl)). reflexivity.
Qed.

(** X23: once [endGame] has returned for a game of a reachable server, the
    game is finished, gone from memory and saved in Redis, and every later
    [processMove] and [getAIPrediction] for its id is refused with
    [Game not found or not active]: at once, and after any sequence of
    further calls and key expiries, as long as none of them is a
    [createGame] whose fresh id comes out as the id of the ended game. *)
Theorem ended_game_refuses_moves (id : string) (now : Z) (s : Server.State)
    (g : GameState) (later : list Call) :
  Server.reachable s ->
  fst (Server.endGame id now s) = Returns g ->
  Forall (fun c => ~ creates id c) later ->
  let s' := snd (Server.endGame id now s) in
  let s'' := after_calls later s' in
  status g = finished
  /\ GameManager.games (Server.manager s') !! id = None
  /\ redisOps.getGameState id (GameManager.redis (Server.manager s'))
     = Some g
  /\ (forall pid played predicted confidence now',
         fst (Server.processMove id pid played predicted confidence now' s'')
         = Throws (Error "Game not found or not active"))
  /\ (forall w,
         fst (Server.getAIPrediction id w s'')
         = Throws (Error "Game not found or not active")).
Proof.
  intros Hreach Hrun Hlater. cbn zeta.
  destruct (reachable_ok s Hreach) as [Hok _].
  destruct (getGame_spec id (Server.manager s) Hok) as (_ & _ & _ & Hfound).
  pose proof (endGame_manager id now s) as Hend.
  destruct (fst (GameManager.getGame id (Server.manager s))) as [game|];
    [|rewrite Hend in Hrun; discriminate].
  destruct Hend as [Hresult Hmanager]. rewrite Hresult in Hrun.
  injection Hrun as <-. destruct (Hfound game eq_refl) as [Hid _].
  assert (GameManager.games
            (Server.manager (snd (Server.endGame id now s))) !! id = None)
    as Hmemory.
  { rewrite Hmanager. cbn [GameManager.games]. apply lookup_delete_eq. }
  assert (redisOps.getGameState id
            (GameManager.redis
               (Server.manager (snd (Server.endGame id now s))))
          = Some (Server.finish game)) as Hredis.
  { rewrite Hmanager. unfold redisOps.getGameState, redisOps.saveGameState.
    cbn [GameManager.redis redisOps.json Server.finish gameId].
    rewrite Hid. apply lookup_insert_eq. }
  split; [reflexivity|]. split; [exact Hmemory|]. split; [exact Hredis|].
  apply retired_refuses. apply after_calls_retired.
  - exact (Server.reachable_step _ _ Hreach (Server.step_endGame id now s)).
  - split; intros g Hg.
    + rewrite Hmemory in Hg. discriminate.
    + rewrite Hredis in Hg. injection Hg as <-. discriminate.
  - exact Hlater.
Qed.

(** X24: when [getAIPrediction] has returned an analysis, calling it again
    returns the same analysis and changes nothing, whatever random number
    and whatever answer of the text service the second call would have
    met. *)
Theorem prediction_is_cached (id : string) (w w' : World)
    (s : Server.State) (analysis : AIAnalysis) :
  fst (Server.getAIPrediction id w s) = Returns analysis ->
  Server.getAIPrediction id w' (snd (Server.getAIPrediction id w s))
  = (Returns analysis, snd (Server.getAIPrediction id w s)).
Proof.
  unfold Server.getAIPrediction, Server.getGame.
  pose proof (getGame_again id (Server.manager s)) as Hagain.
  destruct (GameManager.getGame id (Server.manager s)) as [[game|] m];
    cbn [fst snd] in *; [|discriminate].
  destruct (negb (bool_decide (status game = playing))) eqn:Hstatus;
    [discriminate|].
  cbn [Server.store Server.with_manager].
  destruct (redisMore.getCachedAnalysis _ (Server.store s))
    as [cached|] eqn:Hcache; cbn [fst snd].
  - intros [= <-].
    cbn [Server.manager Server.with_manager Server.store]. rewrite Hagain.
    cbn [Server.store Server.with_manager]. rewrite Hstatus, Hcache.
    destruct s. reflexivity.
  - cbn [Server.getPlayerApiKey Server.playerApiKeys Server.with_manager].
    destruct (predictNextMove _ _ w) as [computed|e]; [|discriminate].
    cbn [fst snd]. intros [= <-].
    cbn [Server.manager Server.with_manager Server.with_store Server.store].
    rewrite Hagain. cbn [Server.store Server.with_manager Server.with_store].
    rewrite Hstatus.
    unfold redisMore.getCachedAnalysis, redisMore.cacheAnalysis.
    cbn [redisMore.analyses]. rewrite lookup_insert_eq. reflexivity.
Qed.

(** X25: for a game that is being played [getAIPrediction] always returns
    an analysis: neither a missing key, nor a failing text service, nor any
    history of moves makes it throw. *)
Theorem playing_game_gets_prediction (id : string) (w : World)
    (s : Server.State) (game : GameState) :
  fst (Server.getGame id s) = Some game ->
  status game = playing ->
  exists analysis, fst (Server.getAIPrediction id w s) = Returns analysis.
Proof.
  unfold Server.getAIPrediction, Server.getGame.
  destruct (GameManager.getGame id (Server.manager s)) as [found m].
  cbn [fst]. intros -> Hstatus.
  rewrite (bool_decide_eq_true_2 _ Hstatus). cbn [negb].
  destruct (redisMore.getCachedAnalysis _ _) as [cached|];
    [now exists cached|].
  match goal with
  | |- context [predictNextMove ?p ?k w] =>
      destruct (predictNextMove_cases p k w)
        as [[_ ->]|[(Hwarm & Hnil & _)|(_ & lastMove & text & _ & ->)]]
  end.
  - now eexists.
  - exfalso. now apply (analysed_window_nonempty (moves game)).
  - now eexists.
Qed.

(** X26: every [endGame] that returns adds exactly one game to the
    statistics of the game's user name, whatever the status of the game
    was: one more game, one more win if the player's score is higher than
    the AI's, the game's moves, the later of the two streaks, the
    randomness score of the game's pattern, and the time of the call. *)
Theorem endGame_counts_the_game (id : string) (now : Z) (s : Server.State)
    (g : GameState) :
  fst (Server.endGame id now s) = Returns g ->
  let key := "player:" ++ username g in
  let before :=
    default (redisMore.noStats (username g))
      (redisMore.hashes (Server.store s) !! key) in
  exists after,
    redisMore.hashes (Server.store (snd (Server.endGame id now s))) !! key
    = Some after
    /\ redisMore.totalGames after = redisMore.totalGames before + 1
    /\ redisMore.totalWins after
       = redisMore.totalWins before
         + (if aiScore g <? playerScore g then 1 else 0)
    /\ redisMore.stats_totalMoves after
       = redisMore.stats_totalMoves before + len (moves g)
    /\ redisMore.longestStreak after
       = Z.max (redisMore.longestStreak before) (currentStreak g)
    /\ redisMore.totalRandomnessScore after
       = redisMore.totalRandomnessScore before
         + randomnessScore (analyzePattern (moves g))
    /\ redisMore.lastPlayed after = now.
Proof.
  unfold Server.endGame, Server.getGame.
  destruct (GameManager.getGame id (Server.manager s)) as [[game|] m];
    cbn [fst snd]; [|discriminate].
  unfold Server.getPlayerPattern, Server.getGame, GameManager.getGame.
  cbn [Server.manager Server.with_manager GameManager.games].
  rewrite lookup_insert_eq.
  cbn [fst snd Server.with_store Server.with_manager Server.store].
  intros [= <-]. cbn zeta.
  unfold redisMore.updatePlayerStats, redisMore.savePlayerPattern.
  cbn [redisMore.hashes redisMore.stats_username Server.finish username
       aiScore playerScore moves currentStreak].
  rewrite lookup_insert_eq. eexists. split; [reflexivity|].
  cbn [redisMore.totalGames redisMore.totalWins redisMore.stats_totalMoves
       redisMore.longestStreak redisMore.totalRandomnessScore
       redisMore.lastPlayed].
  repeat split.
Qed.

Lemma slice_last_slice_last {A : Type} (n k : nat) (arr : list A) :
  (n <= k)%nat -> slice_last n (slice_last k arr) = slice_last n arr.
Proof.
  intros Hle. unfold slice_last. rewrite length_skipn, skipn_skipn.
  f_equal. lia.
Qed.

(** The hash of an analysed history is made of its last five choices and
    its length. *)
Lemma analysed_hash (h1 h2 : list GameMove) :
  slice_last 5 (map choice h1) = slice_last 5 (map choice h2) ->
  len h1 = len h2 ->
  generatePatternHash (analyzePattern h1)
  = generatePatternHash (analyzePattern h2).
Proof.
  intros Htail Hlen. unfold generatePatternHash.
  change (lastMoves (analyzePattern h1)) with (slice_last 10 (map choice h1)).
  change (lastMoves (analyzePattern h2)) with (slice_last 10 (map choice h2)).
  change (totalMoves (analyzePattern h1)) with (len h1).
  change (totalMoves (analyzePattern h2)) with (len h2).
  rewrite !slice_last_slice_last by lia. now rewrite Htail, Hlen.
Qed.

(** After [getAIPrediction] has returned, the analysis sits in the cache
    under the hash of the game's pattern. *)
Lemma getAIPrediction_caches (id : string) (w : World) (s : Server.State)
    (game : GameState) (analysis : AIAnalysis) :
  fst (Server.getGame id s) = Some game ->
  fst (Server.getAIPrediction id w s) = Returns analysis ->
  redisMore.getCachedAnalysis
    (generatePatternHash (analyzePattern (moves game)))
    (Server.store (snd (Server.getAIPrediction id w s)))
  = Some analysis.
Proof.
  unfold Server.getAIPrediction, Server.getGame.
  destruct (GameManager.getGame id (Server.manager s)) as [found m].
  cbn [fst]. intros ->.
  destruct (negb (bool_decide (status game = playing))); [discriminate|].
  cbn [Server.store Server.with_manager].
  destruct (redisMore.getCachedAnalysis _ (Server.store s))
    as [cached|] eqn:Hcache; cbn [fst snd].
  - intros [= <-]. exact Hcache.
  - destruct (predictNextMove _ _ w) as [computed|e]; [|discriminate].
    cbn [fst snd]. intros [= <-].
    unfold redisMore.getCachedAnalysis, redisMore.cacheAnalysis.
    cbn [Server.store Server.with_store redisMore.analyses].
    apply lookup_insert_eq.
Qed.

(** X27: the analysis cache is shared between games.  Once
    [getAIPrediction] has returned an analysis for one game, any other
    playing game whose history has the same length and the same last five
    choices is answered with that very analysis, whatever its own
    statistics, API key, random draw or text service would have given. *)
Theorem cache_is_shared_between_games (idA idB : string) (w w' : World)
    (s : Server.State) (gameA gameB : GameState) (analysis : AIAnalysis) :
  fst (Server.getGame idA s) = Some gameA ->
  fst (Server.getAIPrediction idA w s) = Returns analysis ->
  let s' := snd (Server.getAIPrediction idA w s) in
  fst (Server.getGame idB s') = Some gameB ->
  status gameB = playing ->
  slice_last 5 (map choice (moves gameA))
  = slice_last 5 (map choice (moves gameB)) ->
  len (moves gameA) = len (moves gameB) ->
  fst (Server.getAIPrediction idB w' s') = Returns analysis.
Proof.
  intros HgameA Hrun. cbn zeta. intros HgameB Hstatus Htail Hlen.
  pose proof (getAIPrediction_caches idA w s gameA analysis HgameA Hrun)
    as Hcached.
  rewrite (analysed_hash _ _ Htail Hlen) in Hcached.
  revert Hcached HgameB.
  generalize (snd (Server.getAIPrediction idA w s)).
  intros s1 Hcached HgameB.
  unfold Server.getAIPrediction, Server.getGame in *.
  destruct (GameManager.getGame idB (Server.manager s1)) as [found m].
  cbn [fst] in HgameB. subst found.
  rewrite (bool_decide_eq_true_2 _ Hstatus). cbn [negb].
  cbn [Server.store Server.with_manager]. now rewrite Hcached.
Qed.


(** ** The randomness score sees only how often each symbol was played *)

Lemma PerChoice_ext {A : Type} (p q : PerChoice A) :
  (forall c, get c p = get c q) -> p = q.
Proof.
  intros Hget. destruct p as [p1 p2 p3], q as [q1 q2 q3].
  pose proof (Hget rock) as Hrock. pose proof (Hget paper) as Hpaper.
  pose proof (Hget scissors) as Hscissors.
  cbn in Hrock, Hpaper, Hscissors. congruence.
Qed.

Lemma occurrences_Permutation (c : GameChoice) (cs ds : list GameChoice) :
  Permutation cs ds -> occurrences c cs = occurrences c ds.
Proof.
  induction 1 as [|x cs ds _ IH|x y cs|cs ds es _ IH1 _ IH2].
  - reflexivity.
  - rewrite !occurrences_cons. lia.
  - rewrite !occurrences_cons. lia.
  - congruence.
Qed.

Section Balanced.
Local Open Scope R_scope.

Lemma plogp_balanced (k : Z) :
  (0 < k)%Z -> plogp (IZR k / IZR (3 * k)) = / 3 * ln 3.
Proof.
  intros Hk. apply IZR_lt in Hk.
  assert (IZR k / IZR (3 * k) = / 3) as ->.
  { rewrite mult_IZR. field. lra. }
  unfold plogp. destruct (Rlt_dec 0 (/ 3)) as [_|Hneg]; [|lra].
  rewrite ln_Rinv by lra. ring.
Qed.

Lemma entropy_balanced (k : Z) :
  (0 < k)%Z ->
  fold_left (entropy_step (mkPerChoice k k k) (3 * k)) GAME_CHOICES 0
  / Math_log2 3 * 100
  = 100.
Proof.
  intros Hk. cbn [fold_left GAME_CHOICES].
  rewrite !entropy_step_plogp. cbn [get of_rock of_paper of_scissors].
  rewrite (plogp_balanced k Hk).
  pose proof ln_2_pos as Hln2. pose proof ln_3_pos as Hln3.
  unfold Math_log2. field. lra.
Qed.

End Balanced.

(** X29: the frequency counts and the randomness score do not depend on
    the order of the moves: two histories that are rearrangements of each
    other get the same counts and the same score.  The score therefore
    cannot tell a strict rotation from a shuffled history. *)
Theorem randomness_ignores_order (h1 h2 : list GameMove) :
  Permutation (map choice h1) (map choice h2) ->
  frequencies (analyzePattern h1) = frequencies (analyzePattern h2)
  /\ randomnessScore (analyzePattern h1)
     = randomnessScore (analyzePattern h2).
Proof.
  intros Hperm.
  assert (calculateFrequencies (map choice h1)
          = calculateFrequencies (map choice h2)) as Hfreq.
  { apply PerChoice_ext. intros c.
    rewrite !calculateFrequencies_occurrences.
    now apply occurrences_Permutation. }
  assert (len h1 = len h2) as Hlen.
  { apply Permutation_length in Hperm. rewrite !length_map in Hperm.
    unfold len. now rewrite Hperm. }
  split; [exact Hfreq|].
  change (randomnessScore (analyzePattern h1))
    with (calculateRandomness (initialPattern h1)).
  change (randomnessScore (analyzePattern h2))
    with (calculateRandomness (initialPattern h2)).
  unfold calculateRandomness.
  change (frequencies (initialPattern h1))
    with (calculateFrequencies (map choice h1)).
  change (frequencies (initialPattern h2))
    with (calculateFrequencies (map choice h2)).
  change (totalMoves (initialPattern h1)) with (len h1).
  change (totalMoves (initialPattern h2)) with (len h2).
  now rewrite Hfreq, Hlen.
Qed.

(** X30: a history in which rock, paper and scissors were played equally
    often, and at least once, has randomness score 100; the meta strategy
    then proposes rock, the first of the equally rare symbols, with score
    0.4. *)
Theorem balanced_history_scores_100 (history : list GameMove) :
  history <> [] ->
  (forall c d,
      get c (frequencies (analyzePattern history))
      = get d (frequencies (analyzePattern history))) ->
  randomnessScore (analyzePattern history) = 100
  /\ metaStrategy (analyzePattern history)
     = [ {| cand_choice := rock; score := 4 # 10; type := "meta" |} ].
Proof.
  intros Hnonempty Hequal.
  change (frequencies (analyzePattern history))
    with (calculateFrequencies (map choice history)) in Hequal.
  set (k := get rock (calculateFrequencies (map choice history))).
  assert (calculateFrequencies (map choice history) = mkPerChoice k k k)
    as Hfreq.
  { apply PerChoice_ext. intros c. rewrite (Hequal c rock).
    now destruct c. }
  pose proof (frequencies_fold_sum (map choice history) zeroes) as Hsum.
  rewrite len_map in Hsum. change (sum3 zeroes) with 0 in Hsum.
  fold (calculateFrequencies (map choice history)) in Hsum.
  rewrite Hfreq in Hsum. unfold sum3 in Hsum.
  cbn [of_rock of_paper of_scissors] in Hsum.
  assert (0 < len history) as Hlen.
  { destruct history; [congruence|]. unfold len. cbn [List.length]. lia. }
  assert (0 < k) as Hk by lia.
  assert (len history = 3 * k) as Htotal by lia.
  assert (randomnessScore (analyzePattern history) = 100) as Hscore.
  { change (randomnessScore (analyzePattern history))
      with (calculateRandomness (initialPattern history)).
    unfold calculateRandomness.
    change (frequencies (initialPattern history))
      with (calculateFrequencies (map choice history)).
    change (totalMoves (initialPattern history)) with (len history).
    rewrite Hfreq, Htotal.
    destruct (Z.eqb_spec (3 * k) 0) as [Hzero|_]; [lia|].
    rewrite (entropy_balanced k Hk).
    assert (100 <= Math_round_R 100 <= 100); [|lia].
    apply Math_round_R_range. lra. }
  split; [exact Hscore|].
  unfold metaStrategy. rewrite Hscore. cbn [Z.ltb Z.compare Pos.compare
                                            Pos.compare_cont].
  change (frequencies (analyzePattern history))
    with (calculateFrequencies (map choice history)).
  rewrite Hfreq. unfold Math_min, values, find_key, entries.
  cbn [of_rock of_paper of_scissors fold_left].
  rewrite !Z.min_id. cbn [List.find]. now rewrite Z.eqb_refl.
Qed.

(** ** What a call computes on a history that ends in a rotation *)

(** The whole analysis of a history that ends in rock, paper, scissors:
    what the text service says, or the template when it fails. *)
Lemma rock_rotation_prediction (history : list GameMove)
    (earlier : list GameChoice) (apiKey : option string) (w : World) :
  map choice history = (earlier ++ [rock; paper; scissors])%list ->
  predictNextMove (analyzePattern history) apiKey w
  = Returns
      (rock_analysis
         match getGeminiModel apiKey w with
         | Throws _ => fallbackReasoning "sequential" rock scissors
         | Returns model =>
             match
               generateContent w model
                 {| prompt_lastMoves := lastMoves (analyzePattern history);
                    prompt_frequencies :=
                      frequencies (analyzePattern history);
                    prompt_randomness :=
                      randomnessScore (analyzePattern history);
                    prompt_patternType := "sequential";
                    prompt_prediction := rock |}
             with
             | ServiceFails _ => fallbackReasoning "sequential" rock scissors
             | ServiceReplies reasoning =>
                 if truthy (Some reasoning) then reasoning
                 else "I sense you'll play " ++ choiceName rock ++ " next!"
             end
         end).
Proof.
  intros Hchoices.
  destruct (slice_last_app_tail 10 earlier [rock; paper; scissors])
    as [kept Hkept]; [cbn; lia|].
  assert (lastMoves (analyzePattern history)
          = (kept ++ [rock; paper; scissors])%list) as Hwindow.
  { change (lastMoves (analyzePattern history))
      with (slice_last 10 (map choice history)).
    now rewrite Hchoices. }
  assert (2 <= totalMoves (analyzePattern history)) as Hwarm.
  { change (totalMoves (analyzePattern history)) with (len history).
    rewrite <- (len_map choice), Hchoices. unfold len.
    rewrite length_app. cbn [List.length]. lia. }
  assert (at_index (lastMoves (analyzePattern history))
            (len (lastMoves (analyzePattern history)) - 1)
          = Some scissors) as Hlast.
  { rewrite Hwindow.
    change (kept ++ [rock; paper; scissors])%list
      with (kept ++ [rock] ++ [paper; scissors])%list.
    rewrite app_assoc.
    now destruct (at_index_app_last2 (kept ++ [rock]) paper scissors)
      as (_ & Hat & _). }
  destruct (rotation_candidate_wins (analyzePattern history) apiKey w
              {| cand_choice := rock; score := 6 # 10;
                 type := "sequential" |})
    as [text Hrun].
  - apply analyzePattern_nonneg_transitions.
  - exact Hwarm.
  - rewrite Hwindow. now destruct kept.
  - now rewrite (rotation_fires _ kept rock paper scissors Hwindow).
  - cbn [cand_choice] in Hrun.
    destruct (predictNextMove_cases (analyzePattern history) apiKey w)
      as [[Hcold _]|[(_ & Hnil & _)
                    |(_ & lastMove & text' & Hlast' & Hbest)]].
    + lia.
    + rewrite Hwindow in Hnil. now destruct kept.
    + rewrite Hlast in Hlast'. injection Hlast' as <-.
      cbn zeta in Hbest. rewrite Hrun in Hbest.
      injection Hbest as Hchoice Hconfidence _ Htype.
      unfold predictNextMove.
      destruct (Z.ltb_spec (totalMoves (analyzePattern history)) 2); [lia|].
      rewrite Hlast. cbv zeta.
      rewrite <- Hchoice, <- Hconfidence, <- Htype.
      destruct (getGeminiModel apiKey w) as [model|e]; [|reflexivity].
      now destruct (generateContent w model _).
Qed.

(** With nothing in the cache for its pattern, [getAIPrediction] answers
    with what [predictNextMove] computes. *)
Lemma getAIPrediction_fresh (id : string) (w : World) (s : Server.State)
    (game : GameState) :
  fst (Server.getGame id s) = Some game ->
  status game = playing ->
  redisMore.getCachedAnalysis
    (generatePatternHash (analyzePattern (moves game))) (Server.store s)
  = None ->
  fst (Server.getAIPrediction id w s)
  = predictNextMove (analyzePattern (moves game))
      (Server.getPlayerApiKey (game_playerId game) s) w.
Proof.
  unfold Server.getAIPrediction, Server.getGame.
  destruct (GameManager.getGame id (Server.manager s)) as [found m].
  cbn [fst]. intros -> Hstatus Hcache.
  rewrite (bool_decide_eq_true_2 _ Hstatus). cbn [negb].
  cbn [Server.store Server.with_manager]. rewrite Hcache.
  unfold Server.getPlayerApiKey. cbn [Server.playerApiKeys Server.with_manager].
  now destruct (predictNextMove _ _ w).
Qed.

(** ** The further properties on the sample data *)

Lemma transition_needs_earlier_occurrence_witness :
  transitionStrategy (analyzePattern rotation_history) scissors <> [].
Proof.
  apply (transition_needs_earlier_occurrence rotation_history scissors).
  - reflexivity.
  - vm_compute. tauto.
Defined.

Lemma rotation_ending_prediction_witness :
  exists text,
    predictNextMove (analyzePattern ascending_history) None no_key_world
    = Returns {| prediction := rock; confidence := 60;
                 reasoning := text; patternType := "sequential" |}.
Proof.
  apply (proj1 (rotation_ending_prediction ascending_history [paper] None
                  no_key_world)).
  reflexivity.
Defined.

Lemma meta_needs_all_three_symbols_witness :
  randomnessScore (analyzePattern [sample_move rock; sample_move paper])
  <= 63
  /\ metaStrategy (analyzePattern [sample_move rock; sample_move paper])
     = [].
Proof.
  apply (meta_needs_all_three_symbols [sample_move rock; sample_move paper]
           scissors).
  - discriminate.
  - repeat constructor; discriminate.
Defined.

Lemma round_outcome_witness :
  match
    GameManager.processMove "g1" "alice" rock paper 35 1000 sample_manager
  with
  | Returns (move, _) => winner move = player
  | Throws _ => False
  end.
Proof.
  destruct (GameManager.processMove "g1" "alice" rock paper 35 1000
              sample_manager) as [[move m']|e] eqn:Hrun.
  - apply (round_outcome "g1" "alice" rock paper 35 1000 sample_manager m'
             move Hrun).
    reflexivity.
  - vm_compute in Hrun. discriminate.
Defined.

Lemma stored_games_consistent_witness :
  match GameManager.games (Server.manager played_server) !! "g1" with
  | Some g =>
      playerScore g = wins player (moves g)
      /\ aiScore g = wins ai (moves g)
      /\ currentStreak g = streak_after (moves g)
      /\ Forall move_by_rules (moves g)
      /\ Forall (fun m => playerId m = game_playerId g) (moves g)
  | None => False
  end.
Proof.
  destruct (GameManager.games (Server.manager played_server) !! "g1")
    as [g|] eqn:Hheld.
  - apply (stored_games_consistent played_server g).
    + exact (Server.reachable_step _ _
               (Server.reachable_step _ _ Server.reachable_initial
                  (Server.step_createGame "g1" 1000 "alice" (Some "Alice")
                     Server.initial))
               (Server.step_processMove "g1" "alice" rock paper 35 2000
                  opened_server)).
    + left. exists "g1". exact Hheld.
  - vm_compute in Hheld. discriminate.
Defined.

Lemma memory_agrees_with_redis_witness :
  gameId opened_game = "g1"
  /\ match
       redisOps.getGameState "g1"
         (GameManager.redis (Server.manager opened_server))
     with
     | Some document => document = opened_game
     | None => True
     end.
Proof.
  apply (memory_agrees_with_redis opened_server "g1" opened_game).
  - exact (Server.reachable_step _ _ Server.reachable_initial
             (Server.step_createGame "g1" 1000 "alice" (Some "Alice")
                Server.initial)).
  - reflexivity.
Defined.

Lemma correct_predictions_le_moves_witness :
  0 <= metric "ai_correct_predictions" (Server.manager played_server)
  /\ metric "ai_correct_predictions" (Server.manager played_server)
     <= metric "total_moves" (Server.manager played_server).
Proof.
  apply (correct_predictions_le_moves played_server).
  exact (Server.reachable_step _ _
           (Server.reachable_step _ _ Server.reachable_initial
              (Server.step_createGame "g1" 1000 "alice" (Some "Alice")
                 Server.initial))
           (Server.step_processMove "g1" "alice" rock paper 35 2000
              opened_server)).
Defined.

Lemma refused_move_changes_nothing_witness :
  GameManager.redis
    (Server.manager
       (snd (Server.processMove "g1" "bob" rock paper 35 2000
               opened_server)))
  = GameManager.redis (Server.manager opened_server)
  /\ Server.store
       (snd (Server.processMove "g1" "bob" rock paper 35 2000
               opened_server))
     = Server.store opened_server
  /\ GameManager.games
       (Server.manager
          (snd (Server.processMove "g1" "bob" rock paper 35 2000
                  opened_server)))
     !! "g1"
     = Some opened_game.
Proof.
  destruct (refused_move_changes_nothing "g1" "bob" rock paper 35 2000
              opened_server (Error "Player not authorized for this game"))
    as (_ & Hredis & Hstore & _ & Hkept & _).
  - reflexivity.
  - split; [exact Hredis|]. split; [exact Hstore|].
    apply Hkept. reflexivity.
Defined.

Lemma ended_game_refuses_moves_witness :
  status ended_game = finished
  /\ forall w,
      fst (Server.getAIPrediction "g1" w
             (after_calls
                [call_getGame "g1";
                 call_createGame "g2" 4000 "bob" None;
                 call_processMove "g1" "alice" paper rock 40 5000;
                 expiry_game "game:g2"]
                (snd (Server.endGame "g1" 3000 played_server))))
      = Throws (Error "Game not found or not active").
Proof.
  destruct (ended_game_refuses_moves "g1" 3000 played_server ended_game
              [call_getGame "g1";
               call_createGame "g2" 4000 "bob" None;
               call_processMove "g1" "alice" paper rock 40 5000;
               expiry_game "game:g2"])
    as (Hstatus & _ & _ & _ & Hprediction).
  - exact (Server.reachable_step _ _
             (Server.reachable_step _ _ Server.reachable_initial
                (Server.step_createGame "g1" 1000 "alice" (Some "Alice")
                   Server.initial))
             (Server.step_processMove "g1" "alice" rock paper 35 2000
                opened_server)).
  - reflexivity.
  - repeat constructor; cbn [creates]; try tauto; discriminate.
  - split; [exact Hstatus | exact Hprediction].
Defined.

Lemma prediction_is_cached_witness :
  Server.getAIPrediction "g1" service_down_world
    (snd (Server.getAIPrediction "g1" counting_world busy_server))
  = (Returns (rock_analysis "Rock count: 3"),
     snd (Server.getAIPrediction "g1" counting_world busy_server))
  /\ fst (Server.getAIPrediction "g1" service_down_world busy_server)
     = Returns (rock_analysis "Following your pattern, rock comes next.").
Proof.
  split.
  - apply (prediction_is_cached "g1" counting_world service_down_world
             busy_server (rock_analysis "Rock count: 3")).
    rewrite (getAIPrediction_fresh "g1" counting_world busy_server
               alice_game); [|reflexivity..].
    rewrite (rock_rotation_prediction (moves alice_game)
               [rock; rock; scissors]); reflexivity.
  - rewrite (getAIPrediction_fresh "g1" service_down_world busy_server
               alice_game); [|reflexivity..].
    rewrite (rock_rotation_prediction (moves alice_game)
               [rock; rock; scissors]); reflexivity.
Defined.

Lemma playing_game_gets_prediction_witness :
  len (moves bob_game) = 6
  /\ exists analysis,
      fst (Server.getAIPrediction "g2" no_key_world busy_server)
      = Returns analysis.
Proof.
  split; [reflexivity|].
  apply (playing_game_gets_prediction "g2" no_key_world busy_server
           bob_game); reflexivity.
Defined.

Lemma endGame_counts_the_game_witness :
  exists after,
    redisMore.hashes
      (Server.store (snd (Server.endGame "g1" 3000 played_server)))
    !! "player:Alice"
    = Some after
    /\ redisMore.totalGames after = 1
    /\ redisMore.totalWins after = 1
    /\ redisMore.stats_totalMoves after = 1
    /\ redisMore.lastPlayed after = 3000.
Proof.
  destruct (endGame_counts_the_game "g1" 3000 played_server ended_game)
    as (after & Hkey & Hgames & Hwins & Hmoves & _ & _ & Hlast).
  - reflexivity.
  - exists after.
    split; [exact Hkey|]. split; [exact Hgames|]. split; [exact Hwins|].
    split; [exact Hmoves | exact Hlast].
Defined.

Lemma cache_is_shared_between_games_witness :
  fst (Server.getAIPrediction "g2" counting_world busy_server)
  = Returns (rock_analysis "Rock count: 2")
  /\ fst (Server.getAIPrediction "g2" counting_world
            (snd (Server.getAIPrediction "g1" counting_world busy_server)))
     = Returns (rock_analysis "Rock count: 3").
Proof.
  split.
  - rewrite (getAIPrediction_fresh "g2" counting_world busy_server
               bob_game); [|reflexivity..].
    rewrite (rock_rotation_prediction (moves bob_game)
               [paper; rock; scissors]); reflexivity.
  - apply (cache_is_shared_between_games "g1" "g2" counting_world
             counting_world busy_server alice_game bob_game
             (rock_analysis "Rock count: 3")).
    + reflexivity.
    + rewrite (getAIPrediction_fresh "g1" counting_world busy_server
                 alice_game); [|reflexivity..].
      rewrite (rock_rotation_prediction (moves alice_game)
                 [rock; rock; scissors]); reflexivity.
    + unfold Server.getGame. rewrite getAIPrediction_manager. reflexivity.
    + reflexivity.
    + reflexivity.
    + reflexivity.
Defined.


Lemma randomness_ignores_order_witness :
  frequencies (analyzePattern shifted_history)
  = frequencies
      (analyzePattern (map sample_move [paper; rock; scissors; rock; rock]))
  /\ randomnessScore (analyzePattern shifted_history)
     = randomnessScore
         (analyzePattern
            (map sample_move [paper; rock; scissors; rock; rock])).
Proof.
  apply (randomness_ignores_order shifted_history
           (map sample_move [paper; rock; scissors; rock; rock])).
  exact (Permutation_rev [rock; rock; scissors; rock; paper]).
Defined.

Lemma balanced_history_scores_100_witness :
  randomnessScore (analyzePattern rotation_history) = 100
  /\ metaStrategy (analyzePattern rotation_history)
     = [ {| cand_choice := rock; score := 4 # 10; type := "meta" |} ].
Proof.
  apply (balanced_history_scores_100 rotation_history).
  - discriminate.
  - intros c d. destruct c, d; reflexivity.
Defined.

Lemma winRate_is_miss_rate_witness :
  (winRate (analyzePattern (map sample_move [rock; paper; rock])) == 1 # 3)%Q.
Proof.
  destruct (winRate_is_miss_rate (map sample_move [rock; paper; rock]))
    as (_ & Hshare & _).
  rewrite Hshare; [reflexivity|discriminate].
Defined.
